(** * AR account clearing: reconciliation engine and checkpointed pipeline

    A shallow embedding of the matching logic of [engine/biaProcessor.py]
    and of the per-entity stage functions of [engine/biaCore.py] together
    with the recovery store of [engine/biaRecovery.py].

    Conventions of the embedding

    - A pandas [DataFrame] is a list of rows; every row carries its index
      label, so that label-based access ([.loc]) and re-ordering
      ([sort_values]) are expressed as in the source.
    - Amounts and thresholds of the reconciliation are binary64 floating
      point numbers ([float]), compared and added as the source does. The
      sum of a column ([Series.sum]) is computed by pandas in an order the
      source does not fix; it is a parameter of the model.
    - A missing value ([pd.NA]) of a nullable column is [None].
    - A Python exception is a value of [exn]; a call either returns or
      raises ([result]). *)

From Stdlib Require Import ZArith QArith Floats.
From stdpp Require Import base tactics option list gmap strings.

#[local] Set Warnings "-clear-no-such-hyp".
#[local] Set Warnings "-inexact-float".

Open Scope Z_scope.
Open Scope string_scope.
Open Scope list_scope.

(** ** Python outcomes *)

Inductive exn : Type :=
| AssertionError (msg : string)
| KeyError (key : string)
| UnboundLocalError (name : string)
| TypeError (msg : string)
| ValueError (msg : string)
| BackendError (msg : string).

Inductive result (A : Type) : Type :=
| Ok (a : A)
| Raise (e : exn).
Arguments Ok {A} a.
Arguments Raise {A} e.

(** ** Numbers

    The amounts of the open items and the thresholds are [float64] values
    of the source; [==], [<] and [abs] on them are the IEEE operations.
    The rest amount of a clearing record is only compared with zero and is
    kept as a rational. *)

Definition Qlt_bool (x y : Q) : bool := negb (Qle_bool y x).


Lemma float_eqb_zero_inv (x : float) :
  (x =? 0)%float = true → x = 0%float ∨ x = (-0)%float.
Proof.
  rewrite FloatAxioms.eqb_spec.
  change (Prim2SF 0) with (S754_zero false). intros H.
  rewrite <- (SF2Prim_Prim2SF x).
  destruct (Prim2SF x) as [[]|[]| |[] ? ?]; try discriminate H.
  - by right.
  - by left.
Qed.



(** The sum of the values from left to right, starting from zero: the order
    of Python's [sum]. It instantiates the column sum in the examples. *)
Definition sequential_sum (xs : list float) : float :=
  fold_left PrimFloat.add xs 0%float.

(** ** Records of the two exported data sets *)

(** [Head_Office] is an object column: numeric strings are converted to
    integers, the others stay as text ([_convert_fbl5n_data]). *)
Inductive head_office : Type :=
| HO_num (n : Z)
| HO_text (s : string).

#[global] Instance head_office_eq_dec : EqDecision head_office.
Proof. solve_decision. Defined.

(** One FBL5N open item, with the columns [_parse_fbl5n_data] adds. *)
Record Item : Type := mkItem {
  Document_Number : Z;
  Assignment_Acc : string;
  Document_Type : string;
  Document_Date : string;
  Due_Date : string;
  DC_Amount : float;
  Currency : string;
  Tax : string;
  Text : string;
  Branch : Z;
  Head_Office : head_office;
  ID_Match : bool;
  Amount_Match : bool;
  Tax_Match : bool;
  Warnings : string;
  Virtual_ID : option Z;
  ID : option Z
}.

(** One DMS dispute case ([_parse_dms_data], [_convert_dms_data]). *)
Record Case : Type := mkCase {
  Debitor : Z;
  Case_ID : Z;
  Notification : Z;
  Status_Sales : string;
  Assignment_Disp : string;
  Status : Z;
  Created_On : string;
  Status_AC : string;
  Processor : string;
  Category_Desc : string;
  Root_Cause : string;
  Autoclaims_Note : string;
  Fax_Number : string;
  Category : string
}.

(** One line of the optional customer table. *)
Record Customer : Type := mkCustomer {
  Account : Z;
  Customer_Name : option string;
  Channel : string
}.

(** A row of the consolidated frame: the item, the case joined to it by
    the left merge (all case columns are NA when there is none) and the
    customer joined by head office. [label] is the row's index label. *)
Record Row : Type := mkRow {
  label : nat;
  item : Item;
  dms : option Case;
  cust : option Customer
}.

Abbreviation DataFrame := (list Row) (only parsing).

Definition row_ID (r : Row) : option Z := ID (item r).
Definition row_Tax (r : Row) : string := Tax (item r).
Definition row_Amount (r : Row) : float := DC_Amount (item r).

(** Column assignments [data.loc[mask, col] = v] on one row. *)
Definition set_ID_Match (b : bool) (r : Row) : Row :=
  let i := item r in
  mkRow (label r)
    (mkItem (Document_Number i) (Assignment_Acc i) (Document_Type i)
       (Document_Date i) (Due_Date i) (DC_Amount i) (Currency i) (Tax i)
       (Text i) (Branch i) (Head_Office i) b (Amount_Match i) (Tax_Match i)
       (Warnings i) (Virtual_ID i) (ID i))
    (dms r) (cust r).

Definition set_Amount_Match (b : bool) (r : Row) : Row :=
  let i := item r in
  mkRow (label r)
    (mkItem (Document_Number i) (Assignment_Acc i) (Document_Type i)
       (Document_Date i) (Due_Date i) (DC_Amount i) (Currency i) (Tax i)
       (Text i) (Branch i) (Head_Office i) (ID_Match i) b (Tax_Match i)
       (Warnings i) (Virtual_ID i) (ID i))
    (dms r) (cust r).

Definition set_Tax_Match (b : bool) (r : Row) : Row :=
  let i := item r in
  mkRow (label r)
    (mkItem (Document_Number i) (Assignment_Acc i) (Document_Type i)
       (Document_Date i) (Due_Date i) (DC_Amount i) (Currency i) (Tax i)
       (Text i) (Branch i) (Head_Office i) (ID_Match i) (Amount_Match i) b
       (Warnings i) (Virtual_ID i) (ID i))
    (dms r) (cust r).

Definition set_Warnings (w : string) (r : Row) : Row :=
  let i := item r in
  mkRow (label r)
    (mkItem (Document_Number i) (Assignment_Acc i) (Document_Type i)
       (Document_Date i) (Due_Date i) (DC_Amount i) (Currency i) (Tax i)
       (Text i) (Branch i) (Head_Office i) (ID_Match i) (Amount_Match i)
       (Tax_Match i) w (Virtual_ID i) (ID i))
    (dms r) (cust r).

Definition set_Virtual_ID (v : option Z) (r : Row) : Row :=
  let i := item r in
  mkRow (label r)
    (mkItem (Document_Number i) (Assignment_Acc i) (Document_Type i)
       (Document_Date i) (Due_Date i) (DC_Amount i) (Currency i) (Tax i)
       (Text i) (Branch i) (Head_Office i) (ID_Match i) (Amount_Match i)
       (Tax_Match i) (Warnings i) v (ID i))
    (dms r) (cust r).

Definition set_ID (v : option Z) (r : Row) : Row :=
  let i := item r in
  mkRow (label r)
    (mkItem (Document_Number i) (Assignment_Acc i) (Document_Type i)
       (Document_Date i) (Due_Date i) (DC_Amount i) (Currency i) (Tax i)
       (Text i) (Branch i) (Head_Office i) (ID_Match i) (Amount_Match i)
       (Tax_Match i) (Warnings i) (Virtual_ID i) v)
    (dms r) (cust r).

(** [data.loc[mask, col] = v] on a frame. *)
Definition assign (mask : Row → bool) (upd : Row → Row) (data : DataFrame)
  : DataFrame :=
  map (λ r, if mask r then upd r else r) data.

(** [Series.unique()]: the distinct values, in order of first appearance. *)
Fixpoint unique {A} `{EqDecision A} (l : list A) : list A :=
  match l with
  | [] => []
  | x :: l' => x :: filter (λ y, y ≠ x) (unique l')
  end.

(** ** State-and-exception monad

    A computation runs on a state, returns or raises, and leaves a state
    behind in both cases (what was written before an exception stays
    written). *)

Definition Py (S A : Type) : Type := S → result A * S.

#[global] Instance Py_ret {S} : MRet (Py S) := λ A a s, (Ok a, s).
#[global] Instance Py_bind {S} : MBind (Py S) := λ A B f m s,
  match m s with
  | (Ok a, s') => f a s'
  | (Raise e, s') => (Raise e, s')
  end.
#[global] Instance Py_throw {S} : MThrow exn (Py S) := λ A e s, (Raise e, s).

(** [for x in xs: body] *)
Fixpoint mfor {S A} (xs : list A) (body : A → Py S unit) : Py S unit :=
  match xs with
  | [] => mret tt
  | x :: xs' => body x ;; mfor xs' body
  end.

(** [assert cond, msg] *)
Definition py_assert {S} (cond : bool) (msg : string) : Py S unit :=
  if cond then mret tt else mthrow (AssertionError msg).

(** ** Frames as objects

    [evaluate_items] updates a frame in place, so frames live in a heap
    and are passed by reference. *)

Abbreviation loc := positive (only parsing).
Abbreviation heap := (gmap positive (list Row)) (only parsing).

(** [DataFrame.copy()]: a new object with the same rows. *)
Definition df_copy (l : loc) : Py heap loc := λ h,
  match h !! l with
  | Some d => let l' := fresh (dom h) in (Ok l', <[l' := d]> h)
  | None => (Raise (TypeError "not a DataFrame"), h)
  end.

Definition df_read (l : loc) : Py heap DataFrame := λ h,
  match h !! l with
  | Some d => (Ok d, h)
  | None => (Raise (TypeError "not a DataFrame"), h)
  end.

(** [df.loc[mask, col] = v], in place. *)
Definition df_assign (l : loc) (mask : Row → bool) (upd : Row → Row)
  : Py heap unit := λ h,
  match h !! l with
  | Some d => (Ok tt, <[l := assign mask upd d]> h)
  | None => (Raise (TypeError "not a DataFrame"), h)
  end.

(** A new frame object holding [d] (the value of an expression such as
    [data.query(...)]). *)
Definition df_new (d : DataFrame) : Py heap loc := λ h,
  let l' := fresh (dom h) in (Ok l', <[l' := d]> h).

(** ** Series helpers *)

Abbreviation Series A := (list (nat * A)) (only parsing).

(** [data.loc[data["ID"].notna(), "ID"]] *)
Definition notna_ID (data : DataFrame) : Series Z :=
  omap (λ r, (λ i, (label r, i)) <$> row_ID r) data.

(** [Series.duplicated(keep = False)]: every value occurring more than
    once is marked. *)
Definition occurrences (s : Series Z) (v : Z) : nat :=
  length (filter (λ q, q.2 = v) s).

Definition duplicated (s : Series Z) : Series bool :=
  map (λ p, (p.1, bool_decide (2 ≤ occurrences s p.2)%nat)) s.

Definition Series_any (s : Series bool) : bool := existsb snd s.

(** [s.index[s]] for a boolean series. *)
Definition index_where (s : Series bool) : list nat := (filter (λ p, p.2 = true) s).*1.

(** [s[m]] for a boolean series [m] on the same index. *)
Definition Series_mask {A} (s : Series A) (m : Series bool) : Series A :=
  (filter (λ pm, pm.2.2 = true) (zip s m)).*1.

(** ** [get_matched_items] and [evaluate_items] *)

Definition _NULL_TAX : string := "".
Definition INVALID_THRESHOLD : float := (-1)%float.

(** Taxes that are allowed to pair with the null tax code. *)
Definition allowed_tax_codes : list string :=
  ["YR"; "YN"; "TT"; "TZ"; "YO"; "C3"; "IG"; "K6"; "AU"; "UU"].

Definition all_flags (r : Row) : bool :=
  ID_Match (item r) && Tax_Match (item r) && Amount_Match (item r).

Definition get_matched_items (data : loc) : Py heap loc :=
  rows ← df_read data;
  df_new (filter (λ r, all_flags r = true) rows).

Definition has_ID (id_num : Z) (r : Row) : bool :=
  bool_decide (row_ID r = Some id_num).

Section evaluation.

(** [Series.sum] on a [float64] column. pandas adds the values in an order
    that depends on the length of the column and on the installed numeric
    back end, and rounds after every addition; the evaluation is described
    for whatever sum it computes. *)
Variable Series_sum : list float → float.

(** The amount test of one group: [abs(dc_amnts.sum()) < thresh and
    any(dc_amnts > 0) and any(dc_amnts < 0)]. *)
Definition amounts_match (dc_amnts : list float) (thresh : float) : bool :=
  (PrimFloat.abs (Series_sum dc_amnts) <? thresh)%float
  && existsb (λ a, (0 <? a)%float) dc_amnts
  && existsb (λ a, (a <? 0)%float) dc_amnts.

(** The body of the loop over the duplicated identifiers. *)
Definition evaluate_group (data : loc) (base_thresh : float)
    (tax_threshs : gmap string float) (id_num : Z) : Py heap unit :=
  rows ← df_read data;
  let id_recs := filter (λ r, has_ID id_num r = true) rows in
  let id_taxes := unique (row_Tax <$> id_recs) in
  tax_code ←
    (if decide (length id_taxes = 1%nat) then
       df_assign data (has_ID id_num) (set_Tax_Match true);;
       mret (default "" (id_taxes !! 0%nat))
     else if decide (length id_taxes = 2%nat) then
       if decide (_NULL_TAX ∈ id_taxes) then
         let tax_code :=
           default "" (filter (λ t, t ≠ _NULL_TAX) id_taxes !! 0%nat) in
         (if decide (tax_code ∈ allowed_tax_codes) then
            df_assign data (has_ID id_num) (set_Tax_Match true)
          else mret tt);;
         mret tax_code
       else mret ""
     else mret "");
  let thresh :=
    match tax_threshs !! tax_code with
    | Some t => t
    | None => base_thresh
    end in
  py_assert (negb (thresh =? INVALID_THRESHOLD)%float)
    "Invalid threshold value!";;
  let dc_amnts := row_Amount <$> id_recs in
  if amounts_match dc_amnts thresh then
    df_assign data (has_ID id_num) (set_Amount_Match true)
  else mret tt.

Definition evaluate_items (consolid : loc) (base_threshold : float)
    (tax_thresholds : gmap string float) : Py heap loc :=
  let base_thresh :=
    if (base_threshold =? 0)%float then (base_threshold + 0.01)%float
    else base_threshold in
  data ← df_copy consolid;
  rows ← df_read data;
  let id_values := notna_ID rows in
  let dup := duplicated id_values in
  if negb (Series_any dup) then mret data
  else
    df_assign data (λ r, bool_decide (label r ∈ index_where dup))
      (set_ID_Match true);;
    mfor (unique (Series_mask id_values dup).*2)
      (evaluate_group data base_thresh tax_thresholds);;
    mret data.

(** ** Facts about [unique] *)

Lemma filter_none {A} (P : A → Prop) `{∀ x, Decision (P x)} (l : list A) :
  (∀ x, x ∈ l → ¬ P x) → filter P l = [].
Proof.
  induction l as [|y l IH]; intros Hall; [done|].
  rewrite filter_cons_False by (apply Hall; left).
  apply IH. intros x Hx. apply Hall. by right.
Qed.

Section unique_facts.
Context {A : Type} `{EqDecision A}.

Lemma elem_of_unique (l : list A) (x : A) : x ∈ unique l ↔ x ∈ l.
Proof.
  induction l as [|y l IH]; simpl; [done|].
  rewrite !elem_of_cons, list_elem_of_filter, IH.
  destruct (decide (x = y)); naive_solver.
Qed.

Lemma NoDup_unique (l : list A) : NoDup (unique l).
Proof.
  induction l as [|y l IH]; simpl; [constructor|].
  constructor.
  - rewrite list_elem_of_filter. naive_solver.
  - by apply NoDup_filter.
Qed.

Lemma unique_nil_inv (l : list A) : unique l = [] → l = [].
Proof. by destruct l. Qed.

(** One distinct value: every element is that value. *)
Lemma unique_singleton (l : list A) (x : A) :
  unique l = [x] ↔ l ≠ [] ∧ ∀ y, y ∈ l → y = x.
Proof.
  split.
  - intros Hu. split; [by intros ->|].
    intros y Hy. rewrite <- elem_of_unique, Hu in Hy.
    by apply list_elem_of_singleton in Hy.
  - intros [Hne Hall]. destruct l as [|z l]; [done|]. simpl.
    assert (z = x) as -> by (apply Hall; left).
    f_equal. apply filter_none.
    intros y Hy Hyx. rewrite elem_of_unique in Hy.
    apply Hyx, Hall. by right.
Qed.

Lemma unique_length_1 (l : list A) :
  length (unique l) = 1%nat ↔ ∃ x, l ≠ [] ∧ ∀ y, y ∈ l → y = x.
Proof.
  split.
  - intros Hlen. destruct (unique l) as [|x [|??]] eqn:E; simplify_eq/=.
    exists x. by apply unique_singleton.
  - intros (x & Hx). apply unique_singleton in Hx. by rewrite Hx.
Qed.

(** Two distinct values [x], [y] in the list, and nothing else. *)
Lemma unique_pair_elems (l : list A) (x y : A) :
  unique l = [x; y] → x ≠ y ∧ x ∈ l ∧ y ∈ l ∧ ∀ z, z ∈ l → z = x ∨ z = y.
Proof.
  intros Hu.
  pose proof (NoDup_unique l) as Hnd. rewrite Hu in Hnd.
  apply NoDup_cons in Hnd as [Hxy _].
  split; [|split; [|split]].
  - intros ->. apply Hxy. left.
  - apply elem_of_unique. rewrite Hu. left.
  - apply elem_of_unique. rewrite Hu. right. left.
  - intros z Hz. rewrite <- elem_of_unique, Hu in Hz.
    apply elem_of_cons in Hz as [->|Hz]; [by left|].
    apply list_elem_of_singleton in Hz. by right.
Qed.

Lemma unique_length_le (l : list A) (xs : list A) :
  NoDup xs → (∀ z, z ∈ l → z ∈ xs) → (length (unique l) ≤ length xs)%nat.
Proof.
  intros Hnd Hsub. apply submseteq_length, NoDup_submseteq.
  - apply NoDup_unique.
  - intros z Hz. rewrite elem_of_unique in Hz. by apply Hsub.
Qed.

Lemma unique_length_ge (l : list A) (xs : list A) :
  NoDup xs → (∀ z, z ∈ xs → z ∈ l) → (length xs ≤ length (unique l))%nat.
Proof.
  intros Hnd Hsub. apply submseteq_length, NoDup_submseteq; [done|].
  intros z Hz. apply elem_of_unique. by apply Hsub.
Qed.

End unique_facts.

(** ** Value-level reading of [evaluate_group]

    What one pass of the loop body decides, as functions of the members of
    the group; [evaluate_group_run] below shows that the loop body computes
    exactly this. *)

Definition id_recs_of (id_num : Z) (rows : DataFrame) : DataFrame :=
  filter (λ r, has_ID id_num r = true) rows.

(** The tax code chosen for the threshold lookup, and whether the group is
    tax-matched, from the distinct tax codes of the group. *)
Definition tax_decision (id_taxes : list string) : string * bool :=
  if decide (length id_taxes = 1%nat) then
    (default "" (id_taxes !! 0%nat), true)
  else if decide (length id_taxes = 2%nat) then
    if decide (_NULL_TAX ∈ id_taxes) then
      let tax_code :=
        default "" (filter (λ t, t ≠ _NULL_TAX) id_taxes !! 0%nat) in
      (tax_code, bool_decide (tax_code ∈ allowed_tax_codes))
    else ("", false)
  else ("", false).

Definition group_tax_code (recs : DataFrame) : string :=
  (tax_decision (unique (row_Tax <$> recs))).1.

Definition group_tax_ok (recs : DataFrame) : bool :=
  (tax_decision (unique (row_Tax <$> recs))).2.

Definition resolve_threshold (base_thresh : float) (tax_threshs : gmap string float)
    (tax_code : string) : float :=
  match tax_threshs !! tax_code with
  | Some t => t
  | None => base_thresh
  end.

Definition group_threshold (base_thresh : float) (tax_threshs : gmap string float)
    (recs : DataFrame) : float :=
  resolve_threshold base_thresh tax_threshs (group_tax_code recs).

Definition group_valid (base_thresh : float) (tax_threshs : gmap string float)
    (recs : DataFrame) : bool :=
  negb (group_threshold base_thresh tax_threshs recs
        =? INVALID_THRESHOLD)%float.

Definition group_amount_ok (base_thresh : float) (tax_threshs : gmap string float)
    (recs : DataFrame) : bool :=
  amounts_match (row_Amount <$> recs)
    (group_threshold base_thresh tax_threshs recs).

Definition tax_update (recs : DataFrame) (id_num : Z) (d : DataFrame)
  : DataFrame :=
  if group_tax_ok recs then assign (has_ID id_num) (set_Tax_Match true) d
  else d.

Definition amount_update (base_thresh : float) (tax_threshs : gmap string float)
    (recs : DataFrame) (id_num : Z) (d : DataFrame) : DataFrame :=
  if group_amount_ok base_thresh tax_threshs recs
  then assign (has_ID id_num) (set_Amount_Match true) d
  else d.

Lemma evaluate_group_run data base_thresh tax_threshs id_num (h : heap) rows :
  h !! data = Some rows →
  evaluate_group data base_thresh tax_threshs id_num h =
    let recs := id_recs_of id_num rows in
    let rows1 := tax_update recs id_num rows in
    if group_valid base_thresh tax_threshs recs then
      (Ok tt, <[data := amount_update base_thresh tax_threshs recs id_num rows1]> h)
    else
      (Raise (AssertionError "Invalid threshold value!"), <[data := rows1]> h).
Proof.
  intros Hd.
  assert (Hid : <[data := rows]> h = h) by by apply insert_id.
  unfold evaluate_group, mbind, Py_bind, df_read. rewrite Hd. cbn zeta.
  unfold tax_update, amount_update, group_valid, group_amount_ok,
    group_threshold, group_tax_ok, group_tax_code, tax_decision,
    resolve_threshold, id_recs_of.
  unfold py_assert, df_assign, mret, Py_ret, mthrow, Py_throw.
  repeat match goal with
  | |- context [decide ?P] => destruct (decide P)
  end; cbv beta iota zeta; cbn [fst snd];
    rewrite ?Hd, ?bool_decide_eq_true_2, ?bool_decide_eq_false_2 by done;
    cbv beta iota zeta;
    repeat match goal with
    | |- context [PrimFloat.eqb ?a ?b] =>
        destruct (PrimFloat.eqb a b); cbn [negb]
    end;
    repeat match goal with
    | |- context [amounts_match ?a ?b] => destruct (amounts_match a b)
    end;
    cbv beta iota zeta;
    rewrite ?Hd, ?lookup_insert_eq; cbv beta iota zeta;
    rewrite ?insert_insert_eq, ?Hid; reflexivity.
Qed.

(** The loop reads [ID], [Tax] and [DC_Amount] and writes only flags, so
    every pass sees the groups of the frame it started from. *)

Definition row_keys (r : Row) : option Z * string * float :=
  (row_ID r, row_Tax r, row_Amount r).

Lemma keys_id_recs (f : Row → string * float) (d d0 : list Row) id_num :
  (∀ r r', row_keys r = row_keys r' → f r = f r') →
  row_keys <$> d = row_keys <$> d0 →
  f <$> id_recs_of id_num d = f <$> id_recs_of id_num d0.
Proof.
  intros Hf. revert d0.
  induction d as [|r d IH]; intros [|r0 d0] Hk; try done.
  rewrite !fmap_cons in Hk.
  assert (Hr : row_keys r = row_keys r0) by congruence.
  assert (Hk' : row_keys <$> d = row_keys <$> d0) by congruence.
  unfold id_recs_of in *. rewrite !filter_cons.
  assert (has_ID id_num r = has_ID id_num r0) as ->.
  { unfold has_ID. unfold row_keys in Hr.
    replace (row_ID r) with (row_ID r0) by congruence. done. }
  destruct (decide (has_ID id_num r0 = true)).
  - rewrite !fmap_cons. f_equal; [by apply Hf | by apply IH].
  - by apply IH.
Qed.

Lemma keys_id_recs_tax (d d0 : list Row) id_num :
  row_keys <$> d = row_keys <$> d0 →
  row_Tax <$> id_recs_of id_num d = row_Tax <$> id_recs_of id_num d0.
Proof.
  intros Hk.
  pose proof (keys_id_recs (λ r, (row_Tax r, row_Amount r)) d d0 id_num) as H.
  assert (row_Tax = fst ∘ (λ r, (row_Tax r, row_Amount r))) as -> by done.
  rewrite !list_fmap_compose. f_equal. apply H; [|done].
  unfold row_keys. intros r r' Hr. congruence.
Qed.

Lemma keys_id_recs_amount (d d0 : list Row) id_num :
  row_keys <$> d = row_keys <$> d0 →
  row_Amount <$> id_recs_of id_num d = row_Amount <$> id_recs_of id_num d0.
Proof.
  intros Hk.
  pose proof (keys_id_recs (λ r, (row_Tax r, row_Amount r)) d d0 id_num) as H.
  assert (row_Amount = snd ∘ (λ r, (row_Tax r, row_Amount r))) as -> by done.
  rewrite !list_fmap_compose. f_equal. apply H; [|done].
  unfold row_keys. intros r r' Hr. congruence.
Qed.

Lemma keys_group_tax_ok (d d0 : list Row) id_num :
  row_keys <$> d = row_keys <$> d0 →
  group_tax_ok (id_recs_of id_num d) = group_tax_ok (id_recs_of id_num d0).
Proof.
  intros Hk. unfold group_tax_ok. by rewrite (keys_id_recs_tax d d0).
Qed.

Lemma keys_group_threshold b t (d d0 : list Row) id_num :
  row_keys <$> d = row_keys <$> d0 →
  group_threshold b t (id_recs_of id_num d)
  = group_threshold b t (id_recs_of id_num d0).
Proof.
  intros Hk. unfold group_threshold, group_tax_code.
  by rewrite (keys_id_recs_tax d d0).
Qed.

Lemma keys_group_valid b t (d d0 : list Row) id_num :
  row_keys <$> d = row_keys <$> d0 →
  group_valid b t (id_recs_of id_num d) = group_valid b t (id_recs_of id_num d0).
Proof.
  intros Hk. unfold group_valid. by rewrite (keys_group_threshold b t d d0).
Qed.

Lemma keys_group_amount_ok b t (d d0 : list Row) id_num :
  row_keys <$> d = row_keys <$> d0 →
  group_amount_ok b t (id_recs_of id_num d)
  = group_amount_ok b t (id_recs_of id_num d0).
Proof.
  intros Hk. unfold group_amount_ok.
  by rewrite (keys_group_threshold b t d d0), (keys_id_recs_amount d d0).
Qed.

Lemma assign_keys (mask : Row → bool) (upd : Row → Row) (d : list Row) :
  (∀ r, row_keys (upd r) = row_keys r) →
  row_keys <$> assign mask upd d = row_keys <$> d.
Proof.
  intros Hupd. unfold assign. rewrite <- list_fmap_compose.
  apply list_fmap_ext. intros _ r _. simpl. by destruct (mask r).
Qed.

Lemma tax_update_keys recs id_num (d : list Row) :
  row_keys <$> tax_update recs id_num d = row_keys <$> d.
Proof.
  unfold tax_update. destruct (group_tax_ok recs); [|done].
  by apply assign_keys.
Qed.

Lemma amount_update_keys b t recs id_num (d : list Row) :
  row_keys <$> amount_update b t recs id_num d = row_keys <$> d.
Proof.
  unfold amount_update. destruct (group_amount_ok b t recs); [|done].
  by apply assign_keys.
Qed.

Lemma tax_update_same_keys (cur rows0 d : list Row) id_num :
  row_keys <$> cur = row_keys <$> rows0 →
  tax_update (id_recs_of id_num cur) id_num d
  = tax_update (id_recs_of id_num rows0) id_num d.
Proof.
  intros Hk. unfold tax_update. by rewrite (keys_group_tax_ok cur rows0).
Qed.

Lemma amount_update_same_keys b t (cur rows0 d : list Row) id_num :
  row_keys <$> cur = row_keys <$> rows0 →
  amount_update b t (id_recs_of id_num cur) id_num d
  = amount_update b t (id_recs_of id_num rows0) id_num d.
Proof.
  intros Hk. unfold amount_update.
  by rewrite (keys_group_amount_ok b t cur rows0).
Qed.

(** The whole loop, with every decision taken on the frame [rows0] the
    loop started from. *)
Definition group_update (b : float) (t : gmap string float) (rows0 : list Row)
    (id_num : Z) (d : list Row) : list Row :=
  amount_update b t (id_recs_of id_num rows0) id_num
    (tax_update (id_recs_of id_num rows0) id_num d).

Definition groups_valid (b : float) (t : gmap string float) (rows0 : list Row)
    (ids : list Z) : bool :=
  forallb (λ id_num, group_valid b t (id_recs_of id_num rows0)) ids.

Lemma mfor_evaluate_group_run data b t (rows0 : list Row) (ids : list Z) :
  ∀ (h : gmap positive (list Row)) (cur : list Row),
  h !! data = Some cur →
  row_keys <$> cur = row_keys <$> rows0 →
  ∃ cur',
    row_keys <$> cur' = row_keys <$> rows0 ∧
    mfor ids (evaluate_group data b t) h =
      (if groups_valid b t rows0 ids then Ok tt
       else Raise (AssertionError "Invalid threshold value!"),
       <[data := cur']> h) ∧
    (groups_valid b t rows0 ids = true →
     cur' = foldl (λ d id_num, group_update b t rows0 id_num d) cur ids).
Proof.
  induction ids as [|id_num ids IH]; intros h cur Hd Hk.
  - exists cur. split; [done|]. split; [|done].
    simpl. unfold mret, Py_ret. by rewrite insert_id.
  - cbn [mfor groups_valid forallb foldl].
    unfold mbind at 1. unfold Py_bind.
    rewrite (evaluate_group_run _ _ _ _ _ _ Hd). cbv zeta.
    rewrite (keys_group_valid b t cur rows0 id_num Hk).
    rewrite (tax_update_same_keys cur rows0 _ _ Hk).
    rewrite (amount_update_same_keys b t cur rows0 _ _ Hk).
    destruct (group_valid b t (id_recs_of id_num rows0)); cbn [andb].
    + fold (group_update b t rows0 id_num cur).
      destruct (IH (<[data := group_update b t rows0 id_num cur]> h)
                  (group_update b t rows0 id_num cur))
        as (cur' & Hk' & Hrun & Hval).
      { apply lookup_insert_eq. }
      { unfold group_update.
        by rewrite amount_update_keys, tax_update_keys. }
      exists cur'. split; [done|]. split; [|done].
      by rewrite Hrun, insert_insert_eq.
    + eexists. split; [|split; [reflexivity|done]].
      by rewrite tax_update_keys.
Qed.

(** ** Closed form of the evaluated frame

    The only writes of [evaluate_items] set a flag to [True]; a row of the
    result is the input row with some flags or-ed with a condition. *)

Definition or_flags (i t a : bool) (r : Row) : Row :=
  set_Amount_Match (Amount_Match (item r) || a)
    (set_Tax_Match (Tax_Match (item r) || t)
       (set_ID_Match (ID_Match (item r) || i) r)).

Lemma or_flags_false (r : Row) : or_flags false false false r = r.
Proof.
  destruct r as [l [] d c]. unfold or_flags. cbn.
  by rewrite !orb_false_r.
Qed.

Lemma or_flags_compose i1 t1 a1 i2 t2 a2 (r : Row) :
  or_flags i2 t2 a2 (or_flags i1 t1 a1 r)
  = or_flags (i1 || i2) (t1 || t2) (a1 || a2) r.
Proof.
  destruct r as [l [] d c]. unfold or_flags. cbn.
  by rewrite !orb_assoc.
Qed.

Lemma or_flags_keys i t a (r : Row) : row_keys (or_flags i t a r) = row_keys r.
Proof. by destruct r as [l [] d c]. Qed.

Lemma or_flags_label i t a (r : Row) : label (or_flags i t a r) = label r.
Proof. done. Qed.

Lemma or_flags_has_ID i t a id_num (r : Row) :
  has_ID id_num (or_flags i t a r) = has_ID id_num r.
Proof. done. Qed.

Lemma set_ID_Match_or_flags (r : Row) :
  set_ID_Match true r = or_flags true false false r.
Proof.
  destruct r as [l [] d c]. unfold or_flags. cbn.
  by rewrite !orb_false_r, orb_true_r.
Qed.

Lemma set_Tax_Match_or_flags (r : Row) :
  set_Tax_Match true r = or_flags false true false r.
Proof.
  destruct r as [l [] d c]. unfold or_flags. cbn.
  by rewrite !orb_false_r, orb_true_r.
Qed.

Lemma set_Amount_Match_or_flags (r : Row) :
  set_Amount_Match true r = or_flags false false true r.
Proof.
  destruct r as [l [] d c]. unfold or_flags. cbn.
  by rewrite !orb_false_r, orb_true_r.
Qed.

Lemma assign_or_flags (mask : Row → bool) (upd : Row → Row) i t a
    (d : list Row) :
  (∀ r, upd r = or_flags i t a r) →
  assign mask upd d
  = map (λ r, or_flags (mask r && i) (mask r && t) (mask r && a) r) d.
Proof.
  intros Hupd. unfold assign. apply map_ext. intros r.
  destruct (mask r); simpl; [apply Hupd | by rewrite or_flags_false].
Qed.

Lemma group_update_or_flags b t (rows0 d : list Row) id_num :
  group_update b t rows0 id_num d
  = map (λ r, or_flags false
                (has_ID id_num r && group_tax_ok (id_recs_of id_num rows0))
                (has_ID id_num r
                 && group_amount_ok b t (id_recs_of id_num rows0)) r) d.
Proof.
  unfold group_update, amount_update, tax_update.
  destruct (group_tax_ok _), (group_amount_ok _ _ _).
  - rewrite (assign_or_flags _ (set_Tax_Match true) false true false)
      by apply set_Tax_Match_or_flags.
    rewrite (assign_or_flags _ (set_Amount_Match true) false false true)
      by apply set_Amount_Match_or_flags.
    rewrite map_map. apply map_ext. intros r.
    rewrite or_flags_compose, or_flags_has_ID.
    by rewrite !andb_false_r, !andb_true_r, !orb_false_r.
  - rewrite (assign_or_flags _ (set_Tax_Match true) false true false)
      by apply set_Tax_Match_or_flags.
    apply map_ext. intros r. by rewrite !andb_false_r, !andb_true_r.
  - rewrite (assign_or_flags _ (set_Amount_Match true) false false true)
      by apply set_Amount_Match_or_flags.
    apply map_ext. intros r. by rewrite !andb_false_r, !andb_true_r.
  - rewrite <- (map_id d) at 1. apply map_ext. intros r.
    by rewrite !andb_false_r, or_flags_false.
Qed.

Lemma foldl_group_update_or_flags b t (rows0 : list Row) (ids : list Z) :
  ∀ d : list Row,
  foldl (λ d id_num, group_update b t rows0 id_num d) d ids
  = map (λ r, or_flags false
          (existsb (λ id_num, has_ID id_num r
                      && group_tax_ok (id_recs_of id_num rows0)) ids)
          (existsb (λ id_num, has_ID id_num r
                      && group_amount_ok b t (id_recs_of id_num rows0)) ids)
          r) d.
Proof.
  induction ids as [|id_num ids IH]; intros d; cbn [foldl existsb].
  - rewrite <- (map_id d) at 1. apply map_ext. intros r.
    by rewrite or_flags_false.
  - rewrite IH, group_update_or_flags, map_map. apply map_ext. intros r.
    rewrite or_flags_compose. f_equal.
Qed.

(** ** Duplicated identifiers *)

Definition is_dup_id (rows : list Row) (id_num : Z) : bool :=
  bool_decide (2 ≤ length (id_recs_of id_num rows))%nat.


Lemma occurrences_notna_ID (rows : list Row) id_num :
  occurrences (notna_ID rows) id_num = length (id_recs_of id_num rows).
Proof.
  unfold occurrences, notna_ID, id_recs_of, has_ID.
  induction rows as [|r rows IH]; [done|].
  cbn [omap list_omap]. rewrite filter_cons.
  destruct (row_ID r) as [i|] eqn:Hi; cbn [fmap option_fmap option_map].
  - rewrite filter_cons. cbn [snd].
    destruct (decide (i = id_num)) as [->|Hne].
    + rewrite decide_True by by rewrite bool_decide_eq_true_2.
      cbn [length]. by rewrite IH.
    + rewrite decide_False; [done|].
      rewrite bool_decide_eq_false_2; [done|congruence].
  - rewrite decide_False; [done|]. by rewrite bool_decide_eq_false_2.
Qed.

Section series_facts.
Context {A : Type} (g : nat * A → bool).

Lemma Series_mask_map (s : list (nat * A)) :
  Series_mask s (map (λ p, (p.1, g p)) s) = filter (λ p, g p = true) s.
Proof.
  unfold Series_mask.
  induction s as [|p s IH]; [done|].
  cbn [map zip zip_with]. rewrite !filter_cons. cbn [snd].
  destruct (decide (g p = true)); [|done].
  rewrite fmap_cons. cbn [fst]. by rewrite IH.
Qed.

Lemma index_where_map (s : list (nat * A)) :
  index_where (map (λ p, (p.1, g p)) s) = (filter (λ p, g p = true) s).*1.
Proof.
  unfold index_where.
  induction s as [|p s IH]; [done|].
  cbn [map]. rewrite !filter_cons. cbn [snd].
  destruct (decide (g p = true)); [|done].
  rewrite !fmap_cons. cbn [fst]. by rewrite IH.
Qed.

Lemma Series_any_map (s : list (nat * A)) :
  Series_any (map (λ p, (p.1, g p)) s) = existsb g s.
Proof.
  unfold Series_any. induction s as [|p s IH]; [done|].
  cbn [map existsb snd]. by rewrite IH.
Qed.

Lemma existsb_false_filter (s : list (nat * A)) :
  existsb g s = false → filter (λ p, g p = true) s = [].
Proof.
  intros Hex. apply filter_none. intros p Hp Hg.
  assert (existsb g s = true); [|congruence].
  apply existsb_exists. exists p. split; [|done]. by apply list_elem_of_In.
Qed.

End series_facts.

Definition dup_entries (rows : list Row) : list (nat * Z) :=
  filter (λ p, bool_decide (2 ≤ occurrences (notna_ID rows) p.2)%nat = true)
    (notna_ID rows).

Definition dup_ids (rows : list Row) : list Z := unique (dup_entries rows).*2.
Definition dup_labels (rows : list Row) : list nat := (dup_entries rows).*1.

Lemma elem_of_dup_entries (rows : list Row) (l : nat) (i : Z) :
  (l, i) ∈ dup_entries rows ↔
  is_dup_id rows i = true ∧ ∃ r, r ∈ rows ∧ label r = l ∧ row_ID r = Some i.
Proof.
  unfold dup_entries, is_dup_id.
  rewrite list_elem_of_filter, occurrences_notna_ID. cbn [snd].
  unfold notna_ID. rewrite list_elem_of_omap.
  split.
  - intros [Hd (r & Hr & Hf)]. split; [done|]. exists r.
    destruct (row_ID r) eqn:E; simplify_eq/=. done.
  - intros [Hd (r & Hr & <- & Hi)]. split; [done|]. exists r.
    split; [done|]. by rewrite Hi.
Qed.

Lemma elem_of_dup_ids (rows : list Row) (i : Z) :
  i ∈ dup_ids rows ↔ is_dup_id rows i = true.
Proof.
  unfold dup_ids. rewrite elem_of_unique, list_elem_of_fmap. split.
  - intros ([l i'] & -> & Hin). by apply elem_of_dup_entries in Hin as [? _].
  - intros Hd.
    assert (∃ r, r ∈ rows ∧ row_ID r = Some i) as (r & Hr & Hi).
    { unfold is_dup_id in Hd. apply bool_decide_eq_true in Hd.
      destruct (id_recs_of i rows) as [|r recs] eqn:E; [simpl in Hd; lia|].
      assert (r ∈ id_recs_of i rows) as Hin by (rewrite E; left).
      unfold id_recs_of in Hin. apply list_elem_of_filter in Hin as [Hh Hr].
      exists r. split; [done|]. unfold has_ID in Hh.
      by apply bool_decide_eq_true in Hh. }
    exists (label r, i). split; [done|].
    apply elem_of_dup_entries. split; [done|]. by exists r.
Qed.


Lemma existsb_has_ID (P : Z → bool) (ids : list Z) (r : Row) :
  existsb (λ id_num, has_ID id_num r && P id_num) ids
  = match row_ID r with
    | Some i => bool_decide (i ∈ ids) && P i
    | None => false
    end.
Proof.
  unfold has_ID. induction ids as [|j ids IH]; cbn [existsb].
  - by destruct (row_ID r).
  - rewrite IH. destruct (row_ID r) as [i|]; [|by rewrite bool_decide_eq_false_2].
    destruct (decide (i = j)) as [->|Hne].
    + rewrite (bool_decide_eq_true_2 (Some j = Some j)) by done.
      rewrite (bool_decide_eq_true_2 (j ∈ j :: ids)) by left.
      by destruct (P j), (bool_decide (j ∈ ids)).
    + rewrite (bool_decide_eq_false_2 (Some i = Some j)) by congruence.
      cbn [andb orb]. f_equal. apply bool_decide_ext.
      rewrite elem_of_cons. naive_solver.
Qed.

(** ** What [evaluate_items] returns *)

(** [base_thresh] after the adjustment of a zero base threshold. *)
Definition effective_base (base_threshold : float) : float :=
  if (base_threshold =? 0)%float then (base_threshold + 0.01)%float
  else base_threshold.

Definition id_hit (rows : list Row) (r : Row) : bool :=
  bool_decide (label r ∈ dup_labels rows).

Definition tax_hit (rows : list Row) (r : Row) : bool :=
  match row_ID r with
  | Some i => is_dup_id rows i && group_tax_ok (id_recs_of i rows)
  | None => false
  end.

Definition amount_hit (b : float) (t : gmap string float) (rows : list Row) (r : Row)
  : bool :=
  match row_ID r with
  | Some i =>
      is_dup_id rows i
      && group_amount_ok (effective_base b) t (id_recs_of i rows)
  | None => false
  end.

Definition evaluated (b : float) (t : gmap string float) (rows : list Row)
  : list Row :=
  map (λ r, or_flags (id_hit rows r) (tax_hit rows r) (amount_hit b t rows r) r)
    rows.

(** No assertion fails: no duplicated identifier resolves to the
    threshold [-1]. *)
Definition all_valid (b : float) (t : gmap string float) (rows : list Row) : bool :=
  groups_valid (effective_base b) t rows (dup_ids rows).

Lemma bool_decide_dup_ids (rows : list Row) (i : Z) :
  bool_decide (i ∈ dup_ids rows) = is_dup_id rows i.
Proof.
  destruct (is_dup_id rows i) eqn:E.
  - apply bool_decide_eq_true_2. by apply elem_of_dup_ids.
  - apply bool_decide_eq_false_2. rewrite elem_of_dup_ids. congruence.
Qed.

Lemma evaluated_no_dup (b : float) (t : gmap string float) (rows : list Row) :
  dup_entries rows = [] → evaluated b t rows = rows.
Proof.
  intros He. unfold evaluated. rewrite <- (map_id rows) at 2.
  apply map_ext. intros r.
  assert (Hids : ∀ i, is_dup_id rows i = false).
  { intros i. rewrite <- bool_decide_dup_ids. unfold dup_ids. by rewrite He. }
  unfold id_hit, tax_hit, amount_hit, dup_labels. rewrite He.
  cbn [fmap list_fmap]. rewrite bool_decide_eq_false_2 by apply not_elem_of_nil.
  destruct (row_ID r) as [i|]; rewrite ?Hids; apply or_flags_false.
Qed.

Lemma evaluate_items_run consolid (b : float) (t : gmap string float)
    (h : gmap positive (list Row)) (rows : list Row) :
  h !! consolid = Some rows →
  ∃ cur,
    evaluate_items consolid b t h =
      (if all_valid b t rows then Ok (fresh (dom h))
       else Raise (AssertionError "Invalid threshold value!"),
       <[fresh (dom h) := cur]> h) ∧
    (all_valid b t rows = true → cur = evaluated b t rows).
Proof.
  intros Hd. unfold evaluate_items.
  fold (effective_base b).
  unfold mbind at 1. unfold Py_bind, df_copy. rewrite Hd. cbv zeta.
  set (data := fresh (dom h)).
  unfold mbind at 1. unfold Py_bind, df_read.
  rewrite lookup_insert_eq.
  unfold duplicated.
  rewrite (Series_any_map
    (λ p, bool_decide (2 ≤ occurrences (notna_ID rows) p.2)%nat)).
  rewrite (Series_mask_map
    (λ p, bool_decide (2 ≤ occurrences (notna_ID rows) p.2)%nat)).
  rewrite (index_where_map
    (λ p, bool_decide (2 ≤ occurrences (notna_ID rows) p.2)%nat)).
  fold (dup_entries rows). fold (dup_ids rows). fold (dup_labels rows).
  destruct (existsb _ (notna_ID rows)) eqn:Hany; cbn [negb].
  - (* some identifier is duplicated *)
    unfold mbind at 1. unfold Py_bind, df_assign.
    rewrite lookup_insert_eq, insert_insert_eq.
    set (rows1 := assign _ _ rows).
    assert (Hk1 : row_keys <$> rows1 = row_keys <$> rows).
    { unfold rows1. apply assign_keys. by intros [l [] d c]. }
    destruct (mfor_evaluate_group_run data (effective_base b) t rows
                (dup_ids rows) (<[data := rows1]> h) rows1)
      as (cur' & Hk' & Hrun & Hval); [apply lookup_insert_eq | done |].
    exists cur'. unfold mbind, Py_bind. rewrite Hrun.
    unfold all_valid. rewrite insert_insert_eq.
    split; [by destruct (groups_valid _ _ _ _)|].
    intros Hv. rewrite (Hval Hv), foldl_group_update_or_flags.
    unfold rows1.
    rewrite (assign_or_flags _ (set_ID_Match true) true false false)
      by apply set_ID_Match_or_flags.
    rewrite map_map. unfold evaluated. apply map_ext. intros r.
    rewrite or_flags_compose. rewrite !existsb_has_ID.
    unfold id_hit, tax_hit, amount_hit.
    rewrite andb_true_r, !andb_false_r, !orb_false_r. cbn [orb].
    change (row_ID (or_flags _ _ _ r)) with (row_ID r).
    change (label (or_flags _ _ _ r)) with (label r).
    destruct (row_ID r) as [i|]; [|done].
    by rewrite bool_decide_dup_ids.
  - (* no duplicates at all: the copy is returned as it is *)
    assert (He : dup_entries rows = []).
    { unfold dup_entries. by apply existsb_false_filter. }
    exists rows. unfold all_valid, dup_ids. rewrite He. cbn.
    split; [done|]. intros _. by rewrite evaluated_no_dup.
Qed.

Lemma evaluate_items_ok consolid (b : float) (t : gmap string float)
    (h h' : gmap positive (list Row)) (rows : list Row) data :
  h !! consolid = Some rows →
  evaluate_items consolid b t h = (Ok data, h') →
  all_valid b t rows = true ∧ data = fresh (dom h) ∧
  h' = <[data := evaluated b t rows]> h.
Proof.
  intros Hd Hrun.
  destruct (evaluate_items_run consolid b t h rows Hd) as (cur & Heq & Hcur).
  rewrite Heq in Hrun. destruct (all_valid b t rows); [|done].
  injection Hrun as <- <-. by rewrite Hcur.
Qed.

Lemma evaluate_items_fresh consolid (b : float) (t : gmap string float)
    (h h' : gmap positive (list Row)) (rows : list Row) res :
  h !! consolid = Some rows →
  evaluate_items consolid b t h = (res, h') →
  ∀ l, is_Some (h !! l) → h' !! l = h !! l.
Proof.
  intros Hd Hrun l Hl.
  destruct (evaluate_items_run consolid b t h rows Hd) as (cur & Heq & _).
  rewrite Heq in Hrun. injection Hrun as _ <-.
  apply lookup_insert_ne. intros <-.
  apply elem_of_dom in Hl. by apply is_fresh in Hl.
Qed.

Lemma evaluated_lookup (b : float) (t : gmap string float) (rows : list Row) k r :
  rows !! k = Some r →
  evaluated b t rows !! k
  = Some (or_flags (id_hit rows r) (tax_hit rows r) (amount_hit b t rows r) r).
Proof.
  intros Hk. unfold evaluated.
  change (map ?f rows) with (f <$> rows).
  by rewrite list_lookup_fmap, Hk.
Qed.

Lemma or_flags_ID_Match i t a (r : Row) :
  ID_Match (item (or_flags i t a r)) = ID_Match (item r) || i.
Proof. done. Qed.

Lemma or_flags_Tax_Match i t a (r : Row) :
  Tax_Match (item (or_flags i t a r)) = Tax_Match (item r) || t.
Proof. done. Qed.

Lemma or_flags_Amount_Match i t a (r : Row) :
  Amount_Match (item (or_flags i t a r)) = Amount_Match (item r) || a.
Proof. done. Qed.

Lemma is_dup_id_true (rows : list Row) id_num :
  is_dup_id rows id_num = true ↔ (2 ≤ length (id_recs_of id_num rows))%nat.
Proof. unfold is_dup_id. apply bool_decide_eq_true. Qed.

Lemma elem_of_id_recs (rows : list Row) id_num (r : Row) :
  r ∈ id_recs_of id_num rows ↔ r ∈ rows ∧ row_ID r = Some id_num.
Proof.
  unfold id_recs_of, has_ID. rewrite list_elem_of_filter, bool_decide_eq_true.
  naive_solver.
Qed.


Lemma existsb_elem_of {A} (f : A → bool) (l : list A) :
  existsb f l = true ↔ ∃ x, x ∈ l ∧ f x = true.
Proof.
  rewrite existsb_exists. split; intros (x & Hx & Hf); exists x;
    (split; [by apply list_elem_of_In|done]).
Qed.



(** ** The tax decision in terms of the members' tax codes *)

(** All members carry the same tax code. *)
Definition one_tax_code (members : list Row) (tx : string) : Prop :=
  ∀ r, r ∈ members → row_Tax r = tx.

(** The members carry exactly two tax codes: the null code and [tx]. *)
Definition null_and_one_code (members : list Row) (tx : string) : Prop :=
  tx ≠ _NULL_TAX
  ∧ (∃ r, r ∈ members ∧ row_Tax r = _NULL_TAX)
  ∧ (∃ r, r ∈ members ∧ row_Tax r = tx)
  ∧ ∀ r, r ∈ members → row_Tax r = _NULL_TAX ∨ row_Tax r = tx.

Lemma tax_decision_one (members : list Row) (tx : string) :
  members ≠ [] → one_tax_code members tx →
  tax_decision (unique (row_Tax <$> members)) = (tx, true).
Proof.
  intros Hne Hone.
  assert (unique (row_Tax <$> members) = [tx]) as ->; [|done].
  apply unique_singleton. split.
  - by destruct members.
  - intros y (r & -> & Hr)%list_elem_of_fmap. by apply Hone.
Qed.

Lemma tax_decision_null_pair (members : list Row) (tx : string) :
  null_and_one_code members tx →
  tax_decision (unique (row_Tax <$> members))
  = (tx, bool_decide (tx ∈ allowed_tax_codes)).
Proof.
  intros (Htx & (r0 & Hr0 & Hn) & (r1 & Hr1 & Ht) & Hall).
  set (l := row_Tax <$> members).
  assert (Hin0 : _NULL_TAX ∈ l).
  { apply list_elem_of_fmap. by exists r0. }
  assert (Hin1 : tx ∈ l).
  { apply list_elem_of_fmap. by exists r1. }
  assert (Hsub : ∀ z, z ∈ l → z = _NULL_TAX ∨ z = tx).
  { intros z (r & -> & Hr)%list_elem_of_fmap. by apply Hall. }
  assert (Hlen : length (unique l) = 2%nat).
  { assert (Hnd : NoDup [_NULL_TAX; tx]).
    { apply NoDup_cons. split; [|apply NoDup_singleton].
      intros Hn'%list_elem_of_singleton. congruence. }
    apply Nat.le_antisymm.
    - apply (unique_length_le l [_NULL_TAX; tx] Hnd).
      intros z Hz. destruct (Hsub z Hz) as [->| ->]; [left|right; left].
    - apply (unique_length_ge l [_NULL_TAX; tx] Hnd).
      intros z [->|Hz%list_elem_of_singleton]%elem_of_cons; [done|by subst]. }
  destruct (unique l) as [|x [|y [|??]]] eqn:E; cbn [length] in Hlen; try lia.
  destruct (unique_pair_elems l x y E) as (Hxy & Hx & Hy & Hxyall).
  assert (Hcase : (x = _NULL_TAX ∧ y = tx) ∨ (x = tx ∧ y = _NULL_TAX)).
  { destruct (Hsub x Hx) as [->| ->], (Hsub y Hy) as [->| ->];
      [done|by left|by right|done]. }
  unfold tax_decision. cbn [length].
  rewrite decide_False by done. rewrite decide_True by done.
  destruct Hcase as [[-> ->]|[-> ->]].
  - rewrite decide_True by left.
    rewrite filter_cons_False by (intros H; by apply H).
    rewrite filter_cons_True by done. done.
  - rewrite decide_True by (right; left).
    rewrite filter_cons_True by done. done.
Qed.

Lemma tax_decision_other (members : list Row) :
  (∀ tx, ¬ one_tax_code members tx) →
  (∀ tx, ¬ null_and_one_code members tx) →
  tax_decision (unique (row_Tax <$> members)) = ("", false).
Proof.
  intros Hone Hpair.
  set (l := row_Tax <$> members).
  assert (Hmem : ∀ z, z ∈ l ↔ ∃ r, r ∈ members ∧ row_Tax r = z).
  { intros z. unfold l. rewrite list_elem_of_fmap. naive_solver. }
  unfold tax_decision.
  destruct (decide (length (unique l) = 1%nat)) as [H1|H1].
  { exfalso. apply unique_length_1 in H1 as (x & _ & Hx).
    apply (Hone x). intros r Hr. apply Hx, Hmem. by exists r. }
  destruct (decide (length (unique l) = 2%nat)) as [H2|H2]; [|done].
  destruct (decide (_NULL_TAX ∈ unique l)) as [Hn|Hn]; [|done].
  exfalso.
  destruct (unique l) as [|x [|y [|??]]] eqn:E; cbn [length] in H2; try lia.
  destruct (unique_pair_elems l x y E) as (Hxy & Hx & Hy & Hall).
  apply elem_of_cons in Hn as [Hn|Hn%list_elem_of_singleton].
  - subst x. apply (Hpair y). split; [done|].
    split; [by apply Hmem|]. split; [by apply Hmem|].
    intros r Hr. apply Hall, Hmem. by exists r.
  - subst y. apply (Hpair x). split; [done|].
    split; [by apply Hmem|]. split; [by apply Hmem|].
    intros r Hr. destruct (Hall (row_Tax r)) as [->| ->]; [|by right|by left].
    apply Hmem. by exists r.
Qed.


(** ** Claims about [evaluate_items] *)

(** A small consolidated frame used to instantiate the theorems: two open
    items of case 7 with amounts +100 and -100 and the same tax code, and
    one item without a case. *)
Definition sample_item (doc : Z) (amount : float) (tax : string) (id_num : option Z)
  : Item :=
  mkItem doc "" "DZ" "01.01.2023" "31.01.2023" amount "EUR" tax "" 1001
    (HO_num 1001) false false false "" None id_num.

Definition sample_rows : list Row :=
  [ mkRow 0 (sample_item 9001 100 "A1" (Some 7)) None None;
    mkRow 1 (sample_item 9002 (-100) "A1" (Some 7)) None None;
    mkRow 2 (sample_item 9003 5 "" None) None None ].

Definition sample_heap : gmap positive (list Row) := {[ 1%positive := sample_rows ]}.


(** C5. In [evaluate_items], for a group of records sharing a duplicated
    identifier: with one distinct tax code, [Tax_Match] becomes true on
    all members; with exactly two distinct tax codes of which one is the
    null code, [Tax_Match] becomes true only when the other code is on the
    allow-list; in every other case [Tax_Match] is left as it was. The
    tax codes of the rows are never modified. *)
Theorem evaluate_items_tax_match consolid (b : float) (t : gmap string float)
    (h h' : gmap positive (list Row)) (rows : list Row) data id_num :
  h !! consolid = Some rows →
  evaluate_items consolid b t h = (Ok data, h') →
  (2 ≤ length (id_recs_of id_num rows))%nat →
  let members := id_recs_of id_num rows in
  ∃ out, h' !! data = Some out ∧
    (∀ k r, rows !! k = Some r →
       ∃ r', out !! k = Some r' ∧ row_Tax r' = row_Tax r) ∧
    (∀ k r, rows !! k = Some r → row_ID r = Some id_num →
       ∃ r', out !! k = Some r' ∧
         ((∃ tx, one_tax_code members tx) → Tax_Match (item r') = true) ∧
         (∀ tx, null_and_one_code members tx →
            (Tax_Match (item r') = true
             ↔ Tax_Match (item r) = true ∨ tx ∈ allowed_tax_codes)) ∧
         ((∀ tx, ¬ one_tax_code members tx) →
          (∀ tx, ¬ null_and_one_code members tx) →
          Tax_Match (item r') = Tax_Match (item r))).
Proof.
  intros Hd Hrun Hdup members.
  destruct (evaluate_items_ok _ _ _ _ _ _ _ Hd Hrun) as (_ & _ & ->).
  exists (evaluated b t rows). split; [apply lookup_insert_eq|]. split.
  { intros k r Hk. eexists. split; [by apply evaluated_lookup|].
    by destruct r as [l [] d c]. }
  intros k r Hk Hi. eexists. split; [by apply evaluated_lookup|].
  assert (Hisdup : is_dup_id rows id_num = true) by by apply is_dup_id_true.
  assert (Hne : members ≠ []).
  { intros E. unfold members in E. rewrite E in Hdup. simpl in Hdup. lia. }
  rewrite or_flags_Tax_Match. unfold tax_hit. rewrite Hi, Hisdup. cbn [andb].
  unfold group_tax_ok. fold members.
  split; [|split].
  - intros (tx & Hone). rewrite (tax_decision_one members tx Hne Hone).
    apply orb_true_r.
  - intros tx Hpair. rewrite (tax_decision_null_pair members tx Hpair).
    cbn [snd]. rewrite orb_true_iff, bool_decide_eq_true. done.
  - intros Hone Hpair. rewrite (tax_decision_other members Hone Hpair).
    apply orb_false_r.
Qed.





(** ** Evaluating an evaluated frame *)

Definition row_sig (r : Row) : nat * (option Z * string * float) :=
  (label r, row_keys r).

Lemma sig_keys (d d0 : list Row) :
  row_sig <$> d = row_sig <$> d0 → row_keys <$> d = row_keys <$> d0.
Proof.
  intros Hs.
  assert (row_keys = snd ∘ row_sig) as -> by done.
  by rewrite !list_fmap_compose, Hs.
Qed.

Lemma sig_notna_ID (d d0 : list Row) :
  row_sig <$> d = row_sig <$> d0 → notna_ID d = notna_ID d0.
Proof.
  revert d0. induction d as [|r d IH]; intros [|r0 d0] Hs; try done.
  rewrite !fmap_cons in Hs.
  assert (Hr : row_sig r = row_sig r0) by congruence.
  assert (Hs' : row_sig <$> d = row_sig <$> d0) by congruence.
  unfold notna_ID in *. cbn [omap list_omap].
  rewrite (IH d0 Hs').
  unfold row_sig, row_keys in Hr.
  replace (row_ID r) with (row_ID r0) by congruence.
  replace (label r) with (label r0) by congruence. done.
Qed.

Lemma sig_dup_entries (d d0 : list Row) :
  row_sig <$> d = row_sig <$> d0 → dup_entries d = dup_entries d0.
Proof. intros Hs. unfold dup_entries. by rewrite (sig_notna_ID d d0). Qed.

Lemma sig_is_dup_id (d d0 : list Row) i :
  row_sig <$> d = row_sig <$> d0 → is_dup_id d i = is_dup_id d0 i.
Proof.
  intros Hs. rewrite <- !bool_decide_dup_ids. unfold dup_ids.
  by rewrite (sig_dup_entries d d0).
Qed.

Lemma sig_hits (b : float) (t : gmap string float) (d d0 : list Row) (r r0 : Row) :
  row_sig <$> d = row_sig <$> d0 → row_sig r = row_sig r0 →
  id_hit d r = id_hit d0 r0 ∧ tax_hit d r = tax_hit d0 r0
  ∧ amount_hit b t d r = amount_hit b t d0 r0.
Proof.
  intros Hs Hr. pose proof (sig_keys d d0 Hs) as Hk.
  unfold row_sig, row_keys in Hr.
  unfold id_hit, tax_hit, amount_hit, dup_labels.
  rewrite (sig_dup_entries d d0 Hs).
  replace (row_ID r) with (row_ID r0) by congruence.
  replace (label r) with (label r0) by congruence.
  split; [done|].
  destruct (row_ID r0) as [i|]; [|done].
  by rewrite (sig_is_dup_id d d0 i Hs), (keys_group_tax_ok d d0 i Hk),
    (keys_group_amount_ok _ t d d0 i Hk).
Qed.

Lemma forallb_pointwise {A} (f g : A → bool) (l : list A) :
  (∀ x, f x = g x) → forallb f l = forallb g l.
Proof.
  intros Hfg. induction l as [|x l IH]; [done|].
  cbn [forallb]. by rewrite Hfg, IH.
Qed.

Lemma sig_all_valid (b : float) (t : gmap string float) (d d0 : list Row) :
  row_sig <$> d = row_sig <$> d0 → all_valid b t d = all_valid b t d0.
Proof.
  intros Hs. pose proof (sig_keys d d0 Hs) as Hk.
  unfold all_valid, groups_valid, dup_ids.
  rewrite (sig_dup_entries d d0 Hs).
  apply forallb_pointwise. intros i. by apply keys_group_valid.
Qed.

Lemma evaluated_sig (b : float) (t : gmap string float) (rows : list Row) :
  row_sig <$> evaluated b t rows = row_sig <$> rows.
Proof.
  unfold evaluated. change (map ?f rows) with (f <$> rows).
  rewrite <- list_fmap_compose. apply list_fmap_ext.
  intros _ r _. by destruct r as [l [] d c].
Qed.

Lemma evaluated_idempotent (b : float) (t : gmap string float) (rows : list Row) :
  evaluated b t (evaluated b t rows) = evaluated b t rows.
Proof.
  pose proof (evaluated_sig b t rows) as Hs.
  set (E := evaluated b t rows) in *.
  unfold evaluated at 1.
  set (F := λ r, or_flags (id_hit E r) (tax_hit E r) (amount_hit b t E r) r).
  unfold E at 1 2. unfold evaluated.
  rewrite map_map. apply map_ext. intros r. unfold F.
  set (r' := or_flags _ _ _ r).
  assert (Hr : row_sig r' = row_sig r) by by destruct r as [l [] d c].
  destruct (sig_hits b t _ _ _ _ Hs Hr) as (-> & -> & ->).
  unfold r'. rewrite or_flags_compose. by rewrite !orb_diag.
Qed.

Lemma get_matched_items_run data (h : gmap positive (list Row))
    (rows : list Row) :
  h !! data = Some rows →
  get_matched_items data h =
    (Ok (fresh (dom h)),
     <[fresh (dom h) := filter (λ r, all_flags r = true) rows]> h).
Proof.
  intros Hd. unfold get_matched_items, mbind, Py_bind, df_read, df_new.
  by rewrite Hd.
Qed.

Lemma fresh_lookup_ne {V} (h : gmap positive V) (l : positive) :
  is_Some (h !! l) → fresh (dom h) ≠ l.
Proof. intros Hl <-. apply elem_of_dom in Hl. by apply is_fresh in Hl. Qed.

(** C8. Evaluation followed by matched-item extraction is idempotent:
    evaluating a frame that is already the result of [evaluate_items]
    (same thresholds) succeeds, returns the same rows, and
    [get_matched_items] extracts exactly the same matched subset. *)
Theorem evaluate_items_idempotent consolid (b : float) (t : gmap string float)
    (h h1 : gmap positive (list Row)) (rows : list Row) d1 :
  h !! consolid = Some rows →
  evaluate_items consolid b t h = (Ok d1, h1) →
  ∃ m1 h2 d2 h3 m2 h4,
    get_matched_items d1 h1 = (Ok m1, h2) ∧
    evaluate_items d1 b t h2 = (Ok d2, h3) ∧
    get_matched_items d2 h3 = (Ok m2, h4) ∧
    is_Some (h4 !! m1) ∧ h4 !! m2 = h4 !! m1 ∧
    is_Some (h4 !! d1) ∧ h4 !! d2 = h4 !! d1.
Proof.
  intros Hd Hrun.
  destruct (evaluate_items_ok _ _ _ _ _ _ _ Hd Hrun) as (Hv & _ & ->).
  set (E := evaluated b t rows).
  set (h1 := <[d1 := E]> h).
  assert (H1 : h1 !! d1 = Some E) by apply lookup_insert_eq.
  set (m1 := fresh (dom h1)).
  set (M := filter (λ r, all_flags r = true) E).
  set (h2 := <[m1 := M]> h1).
  assert (Hm1d1 : m1 ≠ d1) by (apply fresh_lookup_ne; by rewrite H1).
  assert (H2 : h2 !! d1 = Some E).
  { unfold h2. by rewrite lookup_insert_ne. }
  destruct (evaluate_items_run d1 b t h2 E H2) as (cur & Hrun2 & Hcur).
  assert (Hv2 : all_valid b t E = true).
  { unfold E. by rewrite (sig_all_valid b t _ rows (evaluated_sig b t rows)). }
  rewrite Hv2 in Hrun2. specialize (Hcur Hv2).
  unfold E in Hcur at 1. rewrite evaluated_idempotent in Hcur. subst cur.
  fold E in Hrun2.
  set (d2 := fresh (dom h2)) in *.
  set (h3 := <[d2 := E]> h2) in *.
  assert (Hd2m1 : d2 ≠ m1).
  { apply fresh_lookup_ne. unfold h2. by rewrite lookup_insert_eq. }
  assert (Hd2d1 : d2 ≠ d1) by (apply fresh_lookup_ne; by rewrite H2).
  assert (H3 : h3 !! d2 = Some E) by apply lookup_insert_eq.
  set (m2 := fresh (dom h3)).
  set (h4 := <[m2 := M]> h3).
  assert (Hm2d2 : m2 ≠ d2) by (apply fresh_lookup_ne; by rewrite H3).
  assert (Hm2m1 : m2 ≠ m1).
  { apply fresh_lookup_ne. unfold h3, h2.
    by rewrite lookup_insert_ne, lookup_insert_eq. }
  assert (Hm2d1 : m2 ≠ d1).
  { apply fresh_lookup_ne. unfold h3. by rewrite lookup_insert_ne, H2. }
  exists m1, h2, d2, h3, m2, h4.
  split; [by apply get_matched_items_run|].
  split; [done|].
  split; [by apply get_matched_items_run|].
  assert (h4 !! m1 = Some M) as ->.
  { unfold h4, h3, h2.
    by rewrite lookup_insert_ne, lookup_insert_ne, lookup_insert_eq. }
  assert (h4 !! m2 = Some M) as -> by apply lookup_insert_eq.
  assert (h4 !! d1 = Some E) as ->.
  { unfold h4, h3. by rewrite lookup_insert_ne, lookup_insert_ne. }
  assert (h4 !! d2 = Some E) as ->.
  { unfold h4. by rewrite lookup_insert_ne. }
  done.
Qed.

(** ** Frame of [evaluate_items] *)

(** Every column other than the three match flags agrees. *)
Definition same_other_fields (r r' : Row) : Prop :=
  label r' = label r ∧ dms r' = dms r ∧ cust r' = cust r
  ∧ Document_Number (item r') = Document_Number (item r)
  ∧ Assignment_Acc (item r') = Assignment_Acc (item r)
  ∧ Document_Type (item r') = Document_Type (item r)
  ∧ Document_Date (item r') = Document_Date (item r)
  ∧ Due_Date (item r') = Due_Date (item r)
  ∧ DC_Amount (item r') = DC_Amount (item r)
  ∧ Currency (item r') = Currency (item r)
  ∧ Tax (item r') = Tax (item r)
  ∧ Text (item r') = Text (item r)
  ∧ Branch (item r') = Branch (item r)
  ∧ Head_Office (item r') = Head_Office (item r)
  ∧ Warnings (item r') = Warnings (item r)
  ∧ Virtual_ID (item r') = Virtual_ID (item r)
  ∧ ID (item r') = ID (item r).

(** A flag that was true is still true. *)
Definition flags_only_raised (r r' : Row) : Prop :=
  (ID_Match (item r) = true → ID_Match (item r') = true)
  ∧ (Tax_Match (item r) = true → Tax_Match (item r') = true)
  ∧ (Amount_Match (item r) = true → Amount_Match (item r') = true).

Lemma or_flags_same_other_fields i t a (r : Row) :
  same_other_fields r (or_flags i t a r).
Proof. destruct r as [l [] d c]. unfold same_other_fields. cbn. tauto. Qed.

Lemma or_flags_only_raised i t a (r : Row) :
  flags_only_raised r (or_flags i t a r).
Proof.
  unfold flags_only_raised.
  rewrite or_flags_ID_Match, or_flags_Tax_Match, or_flags_Amount_Match.
  by repeat split; intros ->.
Qed.

(** When neither the base threshold nor a per-tax threshold is the
    sentinel [-1], no assertion fails and [evaluate_items] returns. *)
Definition no_invalid_threshold (b : float) (t : gmap string float) : Prop :=
  (b =? -1)%float = false
  ∧ ∀ tx v, t !! tx = Some v → (v =? -1)%float = false.

Lemma no_invalid_threshold_all_valid (b : float) (t : gmap string float)
    (rows : list Row) :
  no_invalid_threshold b t → all_valid b t rows = true.
Proof.
  intros [Hb Ht]. unfold all_valid, groups_valid.
  apply forallb_forall. intros i _.
  unfold group_valid, group_threshold, resolve_threshold.
  apply negb_true_iff.
  destruct (t !! group_tax_code (id_recs_of i rows)) as [v|] eqn:E.
  - by apply (Ht _ _ E).
  - unfold effective_base, INVALID_THRESHOLD.
    destruct (b =? 0)%float eqn:E0; [|done].
    by apply float_eqb_zero_inv in E0 as [-> | ->].
Qed.

(** C10. [evaluate_items] works on a copy: whatever the outcome, no frame
    that existed before the call is modified, the input in particular.
    When it returns, the result is a new frame with the same rows in the
    same order, in which every column other than [ID_Match], [Tax_Match]
    and [Amount_Match] is unchanged and each of these flags can only have
    gone from false to true. It returns whenever no threshold is the
    sentinel [-1]. *)
Theorem evaluate_items_frame consolid (b : float) (t : gmap string float)
    (h h' : gmap positive (list Row)) (rows : list Row) res :
  h !! consolid = Some rows →
  evaluate_items consolid b t h = (res, h') →
  (∀ l, is_Some (h !! l) → h' !! l = h !! l) ∧
  h' !! consolid = Some rows ∧
  (no_invalid_threshold b t → ∃ data, res = Ok data) ∧
  ∀ data, res = Ok data →
    data ≠ consolid ∧ h !! data = None ∧
    ∃ out, h' !! data = Some out ∧ length out = length rows ∧
      ∀ k r, rows !! k = Some r →
        ∃ r', out !! k = Some r' ∧ same_other_fields r r'
              ∧ flags_only_raised r r'.
Proof.
  intros Hd Hrun.
  pose proof (evaluate_items_fresh _ _ _ _ _ _ _ Hd Hrun) as Hfr.
  split; [done|]. split; [by rewrite Hfr, Hd|]. split.
  { intros Hok.
    destruct (evaluate_items_run consolid b t h rows Hd) as (cur & Heq & _).
    rewrite (no_invalid_threshold_all_valid b t rows Hok) in Heq.
    rewrite Heq in Hrun. injection Hrun as <- _. by eexists. }
  intros data ->.
  destruct (evaluate_items_ok _ _ _ _ _ _ _ Hd Hrun) as (_ & -> & ->).
  split; [apply fresh_lookup_ne; by rewrite Hd|].
  split; [apply not_elem_of_dom, is_fresh|].
  exists (evaluated b t rows). split; [apply lookup_insert_eq|].
  split; [unfold evaluated; apply length_map|].
  intros k r Hk. eexists. split; [by apply evaluated_lookup|].
  split; [apply or_flags_same_other_fields | apply or_flags_only_raised].
Qed.

End evaluation.

(** ** The theorems on sample frames

    The column sum is taken from left to right. *)


(** The three flags of every row of a frame. *)
Definition flags_of (d : list Row) : list (bool * bool * bool) :=
  map (λ r, (ID_Match (item r), Tax_Match (item r), Amount_Match (item r))) d.

Definition run_flags (p : result positive * gmap positive (list Row))
  : option (list (bool * bool * bool)) :=
  match p.1 with
  | Ok l => flags_of <$> (p.2 !! l)
  | Raise _ => None
  end.

Example sample_rows_matched :
  run_flags (evaluate_items sequential_sum 1%positive 1 ∅ sample_heap)
  = Some [(true, true, true); (true, true, true); (false, false, false)].
Proof. vm_compute. reflexivity. Qed.

(** Two debits of 0.10 and 0.20: under the threshold, but one-sided. *)
Definition one_sided_rows : list Row :=
  [ mkRow 0 (sample_item 9001 0.1 "A1" (Some 7)) None None;
    mkRow 1 (sample_item 9002 0.2 "A1" (Some 7)) None None ].

Example one_sided_rows_not_matched :
  run_flags (evaluate_items sequential_sum 1%positive 1 ∅ {[ 1%positive := one_sided_rows ]})
  = Some [(true, true, false); (true, true, false)].
Proof. vm_compute. reflexivity. Qed.

Lemma evaluate_items_tax_match_witness :
  ∃ out,
    (evaluate_items sequential_sum 1%positive 1 ∅ sample_heap).2 !! 2%positive = Some out ∧
    (∀ k r, sample_rows !! k = Some r →
       ∃ r', out !! k = Some r' ∧ row_Tax r' = row_Tax r) ∧
    (∀ k r, sample_rows !! k = Some r → row_ID r = Some 7 →
       ∃ r', out !! k = Some r' ∧
         ((∃ tx, one_tax_code (id_recs_of 7 sample_rows) tx) →
          Tax_Match (item r') = true) ∧
         (∀ tx, null_and_one_code (id_recs_of 7 sample_rows) tx →
            (Tax_Match (item r') = true
             ↔ Tax_Match (item r) = true ∨ tx ∈ allowed_tax_codes)) ∧
         ((∀ tx, ¬ one_tax_code (id_recs_of 7 sample_rows) tx) →
          (∀ tx, ¬ null_and_one_code (id_recs_of 7 sample_rows) tx) →
          Tax_Match (item r') = Tax_Match (item r))).
Proof.
  apply (evaluate_items_tax_match sequential_sum 1%positive 1 ∅ sample_heap _
           sample_rows 2%positive 7).
  - reflexivity.
  - vm_compute. reflexivity.
  - vm_compute. lia.
Defined.

(** Null tax code paired with an allowed code, with a forbidden code, and
    three distinct codes. *)
Definition tax_rows (t1 t2 t3 : string) : list Row :=
  [ mkRow 0 (sample_item 9001 100 t1 (Some 7)) None None;
    mkRow 1 (sample_item 9002 (-100) t2 (Some 7)) None None;
    mkRow 2 (sample_item 9003 0 t3 (Some 7)) None None ].

Example tax_null_with_allowed :
  run_flags (evaluate_items sequential_sum 1%positive 1 ∅ {[ 1%positive := tax_rows "" "YR" "" ]})
  = Some [(true, true, true); (true, true, true); (true, true, true)].
Proof. vm_compute. reflexivity. Qed.

Example tax_null_with_other :
  run_flags (evaluate_items sequential_sum 1%positive 1 ∅ {[ 1%positive := tax_rows "" "A1" "" ]})
  = Some [(true, false, true); (true, false, true); (true, false, true)].
Proof. vm_compute. reflexivity. Qed.

Example tax_three_codes :
  run_flags (evaluate_items sequential_sum 1%positive 1 ∅ {[ 1%positive := tax_rows "" "YR" "YN" ]})
  = Some [(true, false, true); (true, false, true); (true, false, true)].
Proof. vm_compute. reflexivity. Qed.


(** Base threshold 0: a group summing to 0.00 matches, a group of 0.04 and
    -0.02, whose sum is 0.02, does not. *)
Definition near_zero_rows : list Row :=
  [ mkRow 0 (sample_item 9001 0.04 "A1" (Some 7)) None None;
    mkRow 1 (sample_item 9002 (-0.02) "A1" (Some 7)) None None ].

Example near_zero_rows_sum :
  sequential_sum (row_Amount <$> near_zero_rows) = 0.02%float.
Proof. reflexivity. Qed.

Example zero_base_sum_zero :
  run_flags (evaluate_items sequential_sum 1%positive 0 ∅ sample_heap)
  = Some [(true, true, true); (true, true, true); (false, false, false)].
Proof. vm_compute. reflexivity. Qed.

Example zero_base_sum_two_cents :
  run_flags (evaluate_items sequential_sum 1%positive 0 ∅
               {[ 1%positive := near_zero_rows ]})
  = Some [(true, true, false); (true, true, false)].
Proof. vm_compute. reflexivity. Qed.

(** The test is on the rounded sum. The amounts 1.13 and -0.13 add up to
    0.9999999999999999, which is below the threshold 1.0, and the amounts
    0.03 and -0.02 to 0.009999999999999998, which is below 0.01: both
    groups are amount-matched. *)
Definition amount_rows (a1 a2 : float) : list Row :=
  [ mkRow 0 (sample_item 9001 a1 "A1" (Some 7)) None None;
    mkRow 1 (sample_item 9002 a2 "A1" (Some 7)) None None ].

Example rounded_sum_below_threshold :
  (sequential_sum [1.13; -0.13] <? 1)%float = true
  ∧ run_flags (evaluate_items sequential_sum 1%positive 1 ∅
                 {[ 1%positive := amount_rows 1.13 (-0.13) ]})
    = Some [(true, true, true); (true, true, true)].
Proof. vm_compute. split; reflexivity. Qed.

Example rounded_sum_below_nudged_zero :
  (sequential_sum [0.03; -0.02] <? 0.01)%float = true
  ∧ run_flags (evaluate_items sequential_sum 1%positive 0 ∅
                 {[ 1%positive := amount_rows 0.03 (-0.02) ]})
    = Some [(true, true, true); (true, true, true)].
Proof. vm_compute. split; reflexivity. Qed.

Lemma evaluate_items_idempotent_witness :
  ∃ m1 h2 d2 h3 m2 h4,
    get_matched_items 2%positive
      (evaluate_items sequential_sum 1%positive 1 ∅ sample_heap).2 = (Ok m1, h2) ∧
    evaluate_items sequential_sum 2%positive 1 ∅ h2 = (Ok d2, h3) ∧
    get_matched_items d2 h3 = (Ok m2, h4) ∧
    is_Some (h4 !! m1) ∧ h4 !! m2 = h4 !! m1 ∧
    is_Some (h4 !! 2%positive) ∧ h4 !! d2 = h4 !! 2%positive.
Proof.
  apply (evaluate_items_idempotent sequential_sum 1%positive 1 ∅ sample_heap _ sample_rows).
  - reflexivity.
  - vm_compute. reflexivity.
Defined.

Lemma evaluate_items_frame_witness :
  (∀ l, is_Some (sample_heap !! l) →
     (evaluate_items sequential_sum 1%positive 1 ∅ sample_heap).2 !! l = sample_heap !! l) ∧
  (evaluate_items sequential_sum 1%positive 1 ∅ sample_heap).2 !! 1%positive
  = Some sample_rows ∧
  (no_invalid_threshold 1 ∅ →
   ∃ data, (evaluate_items sequential_sum 1%positive 1 ∅ sample_heap).1 = Ok data) ∧
  ∀ data, (evaluate_items sequential_sum 1%positive 1 ∅ sample_heap).1 = Ok data →
    data ≠ 1%positive ∧ sample_heap !! data = None ∧
    ∃ out, (evaluate_items sequential_sum 1%positive 1 ∅ sample_heap).2 !! data = Some out
      ∧ length out = length sample_rows ∧
      ∀ k r, sample_rows !! k = Some r →
        ∃ r', out !! k = Some r' ∧ same_other_fields r r'
              ∧ flags_only_raised r r'.
Proof.
  apply (evaluate_items_frame sequential_sum 1%positive 1 ∅ sample_heap _ sample_rows).
  - reflexivity.
  - apply surjective_pairing.
Defined.

(** A per-tax threshold of [-1] for the group's tax code stops the
    evaluation with the assertion; the input frame is still unchanged. *)
Example invalid_threshold_raises :
  let p := evaluate_items sequential_sum 1%positive 1 {[ "A1" := (-1)%float ]} sample_heap in
  p.1 = Raise (AssertionError "Invalid threshold value!")
  ∧ p.2 !! 1%positive = Some sample_rows.
Proof. vm_compute. split; reflexivity. Qed.

(** * Root cause of a clearing record *)

(** [_get_new_root_cause]: no branch assigns [new_root_cause] when the
    previous root cause is neither L01 nor L06 and none of the document
    types DG, DZ, DA is present; the [return] then raises
    [UnboundLocalError]. *)
Definition _get_new_root_cause (prev_rt_cause : string)
    (doc_types : list string) : result string :=
  if bool_decide (prev_rt_cause ∈ ["L06"; "L01"]) then Ok prev_rt_cause
  else if bool_decide ("DG" ∈ doc_types) then Ok "L06"
  else if bool_decide ("DZ" ∈ doc_types) || bool_decide ("DA" ∈ doc_types)
  then Ok "L01"
  else Raise (UnboundLocalError "new_root_cause").

(** The two lines of [create_clearing_input] that resolve the root cause
    of a group: the call and the assertion on its result. *)
Definition resolve_root_cause (rt_cause : string) (doc_types : list string)
  : result string :=
  match _get_new_root_cause rt_cause doc_types with
  | Ok new_root_cause =>
      if bool_decide (new_root_cause ∈ ["L01"; "L06"]) then Ok new_root_cause
      else Raise (AssertionError
                    "The new root cause is not applicable for DMS closing!")
  | Raise e => Raise e
  end.

Lemma root_cause_sticky (prev : string) (doc_types : list string) :
  prev = "L01" ∨ prev = "L06" → _get_new_root_cause prev doc_types = Ok prev.
Proof.
  intros Hp. unfold _get_new_root_cause.
  rewrite bool_decide_eq_true_2; [done|].
  destruct Hp as [-> | ->]; [right; left | left].
Qed.

(** C3. [_get_new_root_cause] never returns a value other than L01 or
    L06. An already assigned L01 or L06 is returned unchanged whatever the
    document types are (a prior L06 with document type DZ stays L06);
    otherwise the result is L06 when the credit-memo type DG is present,
    else L01 when DZ or DA is present. In every other case nothing is
    returned: the call raises, and the assertion of
    [create_clearing_input] on the result can never fail. *)
Theorem get_new_root_cause_spec :
  (∀ prev doc_types c,
     _get_new_root_cause prev doc_types = Ok c → c = "L01" ∨ c = "L06") ∧
  (∀ prev doc_types,
     prev = "L01" ∨ prev = "L06" →
     _get_new_root_cause prev doc_types = Ok prev) ∧
  _get_new_root_cause "L06" ["DZ"] = Ok "L06" ∧
  (∀ prev doc_types,
     prev ≠ "L01" → prev ≠ "L06" → "DG" ∈ doc_types →
     _get_new_root_cause prev doc_types = Ok "L06") ∧
  (∀ prev doc_types,
     prev ≠ "L01" → prev ≠ "L06" → "DG" ∉ doc_types →
     "DZ" ∈ doc_types ∨ "DA" ∈ doc_types →
     _get_new_root_cause prev doc_types = Ok "L01") ∧
  (∀ prev doc_types,
     prev ≠ "L01" → prev ≠ "L06" →
     "DG" ∉ doc_types → "DZ" ∉ doc_types → "DA" ∉ doc_types →
     _get_new_root_cause prev doc_types
     = Raise (UnboundLocalError "new_root_cause")) ∧
  (∀ prev doc_types,
     resolve_root_cause prev doc_types = _get_new_root_cause prev doc_types).
Proof.
  assert (Hrange : ∀ prev doc_types c,
            _get_new_root_cause prev doc_types = Ok c → c = "L01" ∨ c = "L06").
  { intros prev doc_types c. unfold _get_new_root_cause.
    repeat case_bool_decide; cbn [orb]; intros Hc; simplify_eq; auto.
    match goal with
    | H : c ∈ _ |- _ =>
        apply elem_of_cons in H as [->|H]; [by right|];
        apply list_elem_of_singleton in H as ->; by left
    end. }
  assert (Hnot : ∀ prev, prev ≠ "L01" → prev ≠ "L06" →
            bool_decide (prev ∈ ["L06"; "L01"]) = false).
  { intros prev H1 H6. apply bool_decide_eq_false_2.
    intros [->|H]%elem_of_cons; [done|].
    by apply list_elem_of_singleton in H. }
  split; [exact Hrange|].
  split; [apply root_cause_sticky|].
  split; [done|].
  split.
  { intros prev doc_types H1 H6 Hdg. unfold _get_new_root_cause.
    by rewrite Hnot, bool_decide_eq_true_2. }
  split.
  { intros prev doc_types H1 H6 Hdg Hz. unfold _get_new_root_cause.
    rewrite Hnot, bool_decide_eq_false_2 by done.
    destruct Hz as [Hz|Hz]; rewrite (bool_decide_eq_true_2 _ Hz);
      [done|by rewrite orb_true_r]. }
  split.
  { intros prev doc_types H1 H6 Hdg Hdz Hda. unfold _get_new_root_cause.
    by rewrite Hnot, !bool_decide_eq_false_2. }
  intros prev doc_types. unfold resolve_root_cause.
  destruct (_get_new_root_cause prev doc_types) as [c|e] eqn:E; [|done].
  rewrite bool_decide_eq_true_2; [done|].
  destruct (Hrange _ _ _ E) as [-> | ->]; [left | right; left].
Qed.

Lemma get_new_root_cause_spec_witness :
  _get_new_root_cause "L06" ["DZ"; "DA"] = Ok "L06"
  ∧ _get_new_root_cause "" ["DZ"; "DG"] = Ok "L06"
  ∧ _get_new_root_cause "" ["DA"] = Ok "L01"
  ∧ _get_new_root_cause "" ["AB"]
    = Raise (UnboundLocalError "new_root_cause").
Proof.
  pose proof get_new_root_cause_spec as (_ & Hsticky & _ & Hdg & Hdz & Hno & _).
  split; [apply Hsticky; by right|].
  split; [apply Hdg; [done|done|right; left]|].
  split; [apply Hdz; [done|done| |right; left]|].
  - intros [H|H]%elem_of_cons; [done|by apply elem_of_nil in H].
  - apply Hno; try done;
      intros [H|H]%elem_of_cons; try done; by apply elem_of_nil in H.
Defined.

(** * Consolidation of FBL5N and DMS data *)

(** [_order_data(data, ["ID"])]: rows by identifier, descending, missing
    identifiers last. The order among rows with equal identifiers is not
    fixed by the source (pandas' default sort is not stable); an insertion
    sort is used here and nothing below depends on that order. *)
Definition ID_before (a b : option Z) : bool :=
  match a, b with
  | Some x, Some y => (y <=? x)%Z
  | Some _, None => true
  | None, Some _ => false
  | None, None => true
  end.

Fixpoint insert_row (r : Row) (l : list Row) : list Row :=
  match l with
  | [] => [r]
  | r' :: l' =>
      if ID_before (row_ID r) (row_ID r') then r :: l
      else r' :: insert_row r l'
  end.

Definition _order_data (data : list Row) : list Row :=
  foldr insert_row [] data.

(** [pd.merge(fbl5n, dms, how = "left", left_on = "ID", right_on =
    "Case_ID")]: every item, in order, once per case with its identifier,
    or once with empty case columns; the result gets a fresh range index. *)
Definition join_cases (dms : list Case) (i : Item) : list (Item * option Case) :=
  match filter (λ c, ID i = Some (Case_ID c)) dms with
  | [] => [(i, None)]
  | cs => map (λ c, (i, Some c)) cs
  end.

Definition merge_cases (fbl5n : list Item) (dms : list Case) : list Row :=
  imap (λ k p, mkRow k p.1 p.2 None) (concat (map (join_cases dms) fbl5n)).

(** [pd.merge(merged, cust, how = "left", left_on = "Head_Office",
    right_on = "Account")].

    The rows of the left join of one row: once per customer whose account
    is the head office of the row, or once with empty customer columns. A
    head office that is text is the account of no customer. *)
Definition join_customers (cust : list Customer) (r : Row)
  : list (Item * option Case * option Customer) :=
  match filter (λ c, Head_Office (item r) = HO_num (Account c)) cust with
  | [] => [(item r, dms r, None)]
  | cs => map (λ c, (item r, dms r, Some c)) cs
  end.

(** The left join, again with a fresh range index. *)
Definition left_join_customers (merged : list Row) (cust : list Customer)
  : list Row :=
  imap (λ k p, mkRow k p.1.1 p.1.2 p.2)
    (concat (map (join_customers cust) merged)).

Definition HO_is_text (h : head_office) : bool :=
  match h with
  | HO_text _ => true
  | HO_num _ => false
  end.

(** Before it joins, [pd.merge] compares the types of the two key
    columns, unless one of the frames has no rows. [Account] is a column
    of integers and [Head_Office] a column of objects; when every head
    office is a string, none having been converted to a number, pandas
    refuses to merge the two columns and raises [ValueError]. As soon as
    one head office is a number the columns are merged. *)
Definition keys_incompatible (merged : list Row) (cust : list Customer)
  : bool :=
  match merged, cust with
  | _ :: _, _ :: _ => forallb (λ r, HO_is_text (Head_Office (item r))) merged
  | _, _ => false
  end.

(** The message is pandas' own and names the two types; its wording after
    these words differs between the versions of pandas. *)
Definition merge_key_error : exn :=
  ValueError "You are trying to merge on object and int64 columns".

Definition merge_customers (merged : list Row) (cust : list Customer)
  : result (list Row) :=
  if keys_incompatible merged cust then Raise merge_key_error
  else Ok (left_join_customers merged cust).

(** [merged["Customer_Name"].isna()] on one row. *)
Definition Customer_Name_isna (r : Row) : bool :=
  match cust r with
  | Some c => bool_decide (Customer_Name c = None)
  | None => true
  end.

(** [_detect_inconsistencies]: each check overwrites [Warnings] on the
    rows it selects. A comparison with a missing value selects nothing. *)
Definition _detect_inconsistencies (data : list Row) (valid_taxes : list string)
  : list Row :=
  let debitor_differs (r : Row) : bool :=
    match dms r with
    | Some c => negb (Debitor c =? Branch (item r))%Z
                && bool_decide (is_Some (row_ID r))
    | None => false
    end in
  let checked := assign debitor_differs
                   (set_Warnings "FBL5N and DMS debitors not equal!") data in
  let checked := assign debitor_differs
                   (set_Warnings "FBL5N and DMS debitors not equal!") checked in
  let checked := assign (λ r, negb (bool_decide (row_Tax r ∈ valid_taxes)))
                   (set_Warnings "Unexpected tax code detected!") checked in
  assign (λ r, match dms r with
               | Some c => (Status c =? 4)%Z
               | None => false
               end)
    (set_Warnings "Devaluated case ID assigned to an open item!") checked.

Section consolidate.

(** The two modes of [_get_cases] rest on the regular-expression engine
    and on the configured case pattern: per text, the matches of
    [Series.str.findall(rx_patt, re.I)] and the integers
    [[int(m[1]) for m in re.findall(rx_patt, text)]]. The first ignores
    case, the second does not. *)
Variable str_findall_ignorecase : string → list string.
Variable re_findall_ints : string → list Z.

Definition row_Text (r : Row) : string := Text (item r).

(** [data["Text"][idx]] *)
Definition text_at (data : list Row) (idx : nat) : string :=
  default "" (row_Text <$> head (filter (λ r, label r = idx) data)).

(** One pass of the loop of [_virtualize] over the records with more than
    one identifier; [gen] is the next value of the generator. *)
Definition virtualize_item (data : list Row) (st : list Row * Z) (idx : nat)
  : list Row * Z :=
  let virt_id := st.2 in
  let virtual :=
    assign (λ r, bool_decide (label r = idx))
      (set_Virtual_ID (Some virt_id)) st.1 in
  let case_IDs := re_findall_ints (text_at data idx) in
  let virtual :=
    foldl (λ v case_id,
             assign (has_ID case_id) (set_Virtual_ID (Some virt_id)) v)
      virtual case_IDs in
  (virtual, virt_id + 1).

(** [data.index[case_IDs.str.len() > 1]] *)
Definition multi_id_recs (data : list Row) : list nat :=
  (filter (λ p, 1 < length p.2)%nat
     (map (λ r, (label r, str_findall_ignorecase (row_Text r))) data)).*1.

Definition _virtualize (data : list Row) (base : Z) : list Row :=
  if decide (multi_id_recs data = []) then data
  else (foldl (virtualize_item data) (data, base) (multi_id_recs data)).1.

(** The swap of [ID] and [Virtual_ID] on one row. *)
Definition swap_ids (r : Row) : Row :=
  set_Virtual_ID (row_ID r) (set_ID (Virtual_ID (item r)) r).

Definition Virtual_ID_notna (r : Row) : bool :=
  bool_decide (is_Some (Virtual_ID (item r))).

(** [virtualized["Virtual_ID"].any()] *)
Definition Virtual_ID_any (data : list Row) : bool :=
  existsb (λ r, match Virtual_ID (item r) with
                | Some v => negb (v =? 0)%Z
                | None => false
                end) data.

Definition apply_virtual_ids (virtualized : list Row) : list Row :=
  if Virtual_ID_any virtualized then assign Virtual_ID_notna swap_ids virtualized
  else virtualized.

(** The frame after the merge with the customer data, when there are
    any: the merged frame, [None] when a row lacks a customer name, or the
    error of the merge. *)
Definition enrich (merged : list Row) (cust : option (list Customer))
  : result (option (list Row)) :=
  match cust with
  | Some c =>
      match merge_customers merged c with
      | Ok merged =>
          if existsb Customer_Name_isna merged then Ok None
          else Ok (Some merged)
      | Raise e => Raise e
      end
  | None => Ok (Some merged)
  end.

Definition consolidate (fbl5n : list Item) (dms : list Case)
    (cust : option (list Customer)) (valid_taxes : list string)
  : result (option (list Row)) :=
  let merged := merge_cases fbl5n dms in
  if bool_decide (0 < length merged)%nat then
    match enrich merged cust with
    | Raise e => Raise e
    | Ok None => Ok None
    | Ok (Some merged) =>
        let virtualized := _virtualize merged 10000000 in
        let virtualized := apply_virtual_ids virtualized in
        let checked := _detect_inconsistencies virtualized valid_taxes in
        Ok (Some (_order_data checked))
    end
  else Raise (AssertionError
                "Data unmerged! Check the correctness of the megring key!").

End consolidate.

(** ** Virtual identifiers *)

Lemma insert_row_perm (r : Row) (l : list Row) : insert_row r l ≡ₚ r :: l.
Proof.
  induction l as [|r' l IH]; [done|]. simpl.
  destruct (ID_before _ _); [done|].
  rewrite IH. apply Permutation_swap.
Qed.

Lemma order_data_perm (data : list Row) : _order_data data ≡ₚ data.
Proof.
  induction data as [|r l IH]; [done|].
  unfold _order_data in *. cbn [foldr]. by rewrite insert_row_perm, IH.
Qed.

(** A row keeps its label, identifier and virtual identifier. *)
Definition keeps_ids (r r' : Row) : Prop :=
  label r' = label r ∧ row_ID r' = row_ID r
  ∧ Virtual_ID (item r') = Virtual_ID (item r).

Lemma assign_Warnings_elem (mask : Row → bool) (w : string) (data : list Row)
    (r : Row) :
  r ∈ data → ∃ r', r' ∈ assign mask (set_Warnings w) data ∧ keeps_ids r r'.
Proof.
  intros Hr. exists (if mask r then set_Warnings w r else r). split.
  - unfold assign. apply list_elem_of_fmap. by exists r.
  - by destruct (mask r).
Qed.

Lemma detect_inconsistencies_elem (data : list Row) (valid_taxes : list string)
    (r : Row) :
  r ∈ data →
  ∃ r', r' ∈ _detect_inconsistencies data valid_taxes ∧ keeps_ids r r'.
Proof.
  intros Hr. unfold _detect_inconsistencies. cbv zeta.
  set (m1 := λ r0 : Row, match dms r0 with
                          | Some c => negb (Debitor c =? Branch (item r0))%Z
                                      && bool_decide (is_Some (row_ID r0))
                          | None => false
                          end).
  destruct (assign_Warnings_elem m1 "FBL5N and DMS debitors not equal!"
              data r Hr) as (r1 & Hr1 & Hk1).
  destruct (assign_Warnings_elem m1 "FBL5N and DMS debitors not equal!"
              _ r1 Hr1) as (r2 & Hr2 & Hk2).
  destruct (assign_Warnings_elem
              (λ r0, negb (bool_decide (row_Tax r0 ∈ valid_taxes)))
              "Unexpected tax code detected!" _ r2 Hr2) as (r3 & Hr3 & Hk3).
  destruct (assign_Warnings_elem
              (λ r0, match dms r0 with
                     | Some c => (Status c =? 4)%Z
                     | None => false
                     end)
              "Devaluated case ID assigned to an open item!" _ r3 Hr3)
    as (r4 & Hr4 & Hk4).
  exists r4. split; [done|].
  unfold keeps_ids in *. intuition congruence.
Qed.

Lemma set_Virtual_ID_twice (a b : option Z) (r : Row) :
  set_Virtual_ID a (set_Virtual_ID b r) = set_Virtual_ID a r.
Proof. done. Qed.

Lemma set_Virtual_ID_same (r : Row) :
  set_Virtual_ID (Virtual_ID (item r)) r = r.
Proof. by destruct r as [l [] d c]. Qed.

Section virtualize_facts.
Variable str_findall_ignorecase : string → list string.
Variable re_findall_ints : string → list Z.

(** The rows one multi-identifier item writes to: the item itself and the
    rows whose identifier is one of those found in its text. *)
Definition touches (data : list Row) (idx : nat) (r : Row) : bool :=
  bool_decide (label r = idx)
  || existsb (λ case_id, has_ID case_id r)
       (re_findall_ints (text_at data idx)).

Definition row_step (data : list Row) (p : Row * Z) (idx : nat) : Row * Z :=
  (if touches data idx p.1 then set_Virtual_ID (Some p.2) p.1 else p.1,
   (p.2 + 1)%Z).

Lemma foldl_assign_has_ID (v : option Z) (cs : list Z) :
  ∀ d : list Row,
  foldl (λ d case_id, assign (has_ID case_id) (set_Virtual_ID v) d) d cs
  = map (λ r, if existsb (λ case_id, has_ID case_id r) cs
              then set_Virtual_ID v r else r) d.
Proof.
  induction cs as [|c cs IH]; intros d; cbn [foldl existsb].
  - by rewrite map_id.
  - rewrite IH. unfold assign. rewrite map_map. apply map_ext. intros r.
    destruct (has_ID c r) eqn:Hc; cbn [orb].
    + change (has_ID ?x (set_Virtual_ID v r)) with (has_ID x r).
      by destruct (existsb _ cs).
    + done.
Qed.

Lemma virtualize_item_map (data v : list Row) (g : Z) (idx : nat) :
  virtualize_item re_findall_ints data (v, g) idx
  = (map (λ r, (row_step data (r, g) idx).1) v, (g + 1)%Z).
Proof.
  unfold virtualize_item. cbn [fst snd]. f_equal.
  rewrite foldl_assign_has_ID. unfold assign. rewrite map_map.
  apply map_ext. intros r. unfold row_step, touches. cbn [fst snd].
  destruct (bool_decide (label r = idx)); cbn [orb].
  - change (has_ID ?x (set_Virtual_ID ?y r)) with (has_ID x r).
    by destruct (existsb _ _).
  - done.
Qed.

Lemma foldl_virtualize_item (data : list Row) (idxs : list nat) :
  ∀ (v : list Row) (g : Z),
  foldl (virtualize_item re_findall_ints data) (v, g) idxs
  = (map (λ r, (foldl (row_step data) (r, g) idxs).1) v,
     (g + Z.of_nat (length idxs))%Z).
Proof.
  induction idxs as [|idx idxs IH]; intros v g; cbn [foldl length].
  - rewrite map_id. apply pair_equal_spec. split; [done|lia].
  - rewrite virtualize_item_map, IH, map_map.
    apply pair_equal_spec. split; [|lia].
    apply map_ext. intros r. reflexivity.
Qed.

(** What the passes do to one row. *)
Lemma foldl_row_step_inv (data : list Row) (idxs : list nat) :
  ∀ (r : Row) (g : Z),
  (foldl (row_step data) (r, g) idxs).2 = (g + Z.of_nat (length idxs))%Z
  ∧ (foldl (row_step data) (r, g) idxs).1
    = set_Virtual_ID
        (Virtual_ID (item (foldl (row_step data) (r, g) idxs).1)) r
  ∧ (Forall (λ idx, touches data idx r = false) idxs →
     (foldl (row_step data) (r, g) idxs).1 = r).
Proof.
  induction idxs as [|idx idxs IH]; intros r g; cbn [foldl length].
  - split; [cbn; lia|]. split; [by rewrite set_Virtual_ID_same|done].
  - unfold row_step at 2 4 6 8. cbn [fst snd].
    destruct (touches data idx r) eqn:Ht.
    + destruct (IH (set_Virtual_ID (Some g) r) (g + 1)%Z) as (H1 & H2 & H3).
      split; [rewrite H1; lia|]. split.
      * rewrite H2 at 1. by rewrite set_Virtual_ID_twice.
      * intros Hall. apply Forall_cons in Hall as [Hf _]. congruence.
    + destruct (IH r (g + 1)%Z) as (H1 & H2 & H3).
      split; [rewrite H1; lia|]. split; [done|].
      intros Hall. apply Forall_cons in Hall as [_ Hall]. by apply H3.
Qed.

Lemma touches_set_Virtual_ID (data : list Row) idx v (r : Row) :
  touches data idx (set_Virtual_ID v r) = touches data idx r.
Proof. done. Qed.

(** A row written by the item at position [length pre] of the list and by
    no later item ends with that item's value. *)
Lemma foldl_row_step_last (data : list Row) (pre post : list nat) (idx : nat)
    (r : Row) (g : Z) :
  touches data idx r = true →
  Forall (λ idx', touches data idx' r = false) post →
  (foldl (row_step data) (r, g) (pre ++ idx :: post)).1
  = set_Virtual_ID (Some (g + Z.of_nat (length pre))%Z) r.
Proof.
  intros Ht Hpost. rewrite foldl_app. cbn [foldl].
  destruct (foldl_row_step_inv data pre r g) as (H1 & H2 & _).
  destruct (foldl (row_step data) (r, g) pre) as [r1 g1]. cbn [fst snd] in *.
  unfold row_step at 2. cbn [fst snd].
  assert (touches data idx r1 = true) as ->.
  { rewrite H2. by rewrite touches_set_Virtual_ID. }
  subst g1.
  destruct (foldl_row_step_inv data post
              (set_Virtual_ID (Some (g + Z.of_nat (length pre))%Z) r1)
              (g + Z.of_nat (length pre) + 1)%Z) as (_ & _ & H3).
  rewrite H3.
  - rewrite H2. by rewrite set_Virtual_ID_twice.
  - eapply Forall_impl; [exact Hpost|]. intros idx' Hf. cbn beta.
    rewrite touches_set_Virtual_ID, H2. by rewrite touches_set_Virtual_ID.
Qed.

End virtualize_facts.

Lemma imap_label_NoDup {A} (f : nat → A → Row) (l : list A) :
  (∀ k a, label (f k a) = k) → NoDup (label <$> imap f l).
Proof.
  intros Hf. apply NoDup_alt. intros i j x Hi Hj.
  rewrite list_lookup_fmap, list_lookup_imap in Hi, Hj.
  destruct (l !! i) as [a|]; [|done]. destruct (l !! j) as [a'|]; [|done].
  cbn in Hi, Hj. rewrite Hf in Hi, Hj. congruence.
Qed.

Lemma assign_labels (mask : Row → bool) (upd : Row → Row) (d : list Row) :
  (∀ r, label (upd r) = label r) →
  label <$> assign mask upd d = label <$> d.
Proof.
  intros Hupd. unfold assign. rewrite <- list_fmap_compose.
  apply list_fmap_ext. intros _ r _. cbn. by destruct (mask r).
Qed.

Lemma detect_inconsistencies_labels (data : list Row) (valid_taxes : list string) :
  label <$> _detect_inconsistencies data valid_taxes = label <$> data.
Proof. unfold _detect_inconsistencies. cbv zeta. by rewrite !assign_labels. Qed.

Section virtual_id_claim.
Variable str_findall_ignorecase : string → list string.
Variable re_findall_ints : string → list Z.

Lemma virtualize_labels (data : list Row) (base : Z) :
  label <$> _virtualize str_findall_ignorecase re_findall_ints data base
  = label <$> data.
Proof.
  unfold _virtualize. case_decide; [done|].
  rewrite foldl_virtualize_item. cbn [fst].
  change (map ?f data) with (f <$> data).
  rewrite <- list_fmap_compose. apply list_fmap_ext. intros _ r _. cbn.
  destruct (foldl_row_step_inv re_findall_ints data
              (multi_id_recs str_findall_ignorecase data) r base)
    as (_ & -> & _). done.
Qed.

Lemma apply_virtual_ids_labels (data : list Row) :
  label <$> apply_virtual_ids data = label <$> data.
Proof.
  unfold apply_virtual_ids. destruct (Virtual_ID_any data); [|done].
  by apply assign_labels.
Qed.

(** The item with label [idx], and every record whose identifier is one
    of those found in its text, end keyed to one synthetic identifier [v]
    of at least 10,000,000, with the original identifier in
    [Virtual_ID]. *)
Definition rekeyed_to_one_id (merged out : list Row) (idx : nat) (v : Z)
  : Prop :=
  (10000000 ≤ v)%Z ∧
  ∀ r, r ∈ merged → touches re_findall_ints merged idx r = true →
    ∃ r', r' ∈ out ∧ label r' = label r ∧ row_ID r' = Some v
          ∧ Virtual_ID (item r') = row_ID r.

(** The claim as it is written: every item with two or more identifiers
    in its text ends with a synthetic identifier shared with all the
    records it references. *)
Definition every_multi_item_rekeyed (fbl5n : list Item) (dms : list Case)
    (cust : option (list Customer)) (valid_taxes : list string) : Prop :=
  ∀ merged out,
    enrich (merge_cases fbl5n dms) cust = Ok (Some merged) →
    consolidate str_findall_ignorecase re_findall_ints fbl5n dms cust
      valid_taxes = Ok (Some out) →
    ∀ idx, idx ∈ multi_id_recs str_findall_ignorecase merged →
      ∃ v, rekeyed_to_one_id merged out idx v.

Lemma enrich_labels_NoDup (merged0 merged : list Row)
    (cust : option (list Customer)) :
  NoDup (label <$> merged0) → enrich merged0 cust = Ok (Some merged) →
  NoDup (label <$> merged).
Proof.
  unfold enrich, merge_customers. destruct cust as [c|]; [|congruence].
  destruct (keys_incompatible _ _); [done|].
  destruct (existsb _ _); [done|]. intros _ [= <-].
  by apply imap_label_NoDup.
Qed.

(** C4 (as amended). [consolidate] gives the k-th item (in row order,
    counting from 0) whose text holds two or more case identifiers the
    synthetic identifier 10,000,000 + k. That value is written to the
    item and to every record whose identifier is one of those extracted
    from the item's text, over whatever an earlier item wrote there; when
    no later multi-identifier item writes to one of these rows, they all
    end with the synthetic identifier in [ID] and their original
    identifier in [Virtual_ID]. The synthetic identifier differs from
    every identifier below 10,000,000, and the labels of the result are
    pairwise distinct. *)
Theorem consolidate_virtual_ids (fbl5n : list Item) (dms : list Case)
    (cust : option (list Customer)) (valid_taxes : list string)
    (merged out : list Row) (pre post : list nat) (idx : nat) :
  enrich (merge_cases fbl5n dms) cust = Ok (Some merged) →
  consolidate str_findall_ignorecase re_findall_ints fbl5n dms cust
    valid_taxes = Ok (Some out) →
  multi_id_recs str_findall_ignorecase merged = pre ++ idx :: post →
  (∀ idx' r, idx' ∈ post → r ∈ merged →
     touches re_findall_ints merged idx r = true →
     touches re_findall_ints merged idx' r = false) →
  rekeyed_to_one_id merged out idx (10000000 + Z.of_nat (length pre))
  ∧ (∀ r i, r ∈ merged → row_ID r = Some i → (i < 10000000)%Z →
       i ≠ (10000000 + Z.of_nat (length pre))%Z)
  ∧ NoDup (label <$> out).
Proof.
  intros Hen Hcons Hmulti Hlast.
  unfold consolidate in Hcons. cbv zeta in Hcons.
  case_bool_decide; [|done]. rewrite Hen in Hcons.
  injection Hcons as <-.
  split; [|split].
  - split; [lia|]. intros r Hr Ht.
    set (v := (10000000 + Z.of_nat (length pre))%Z).
    (* the row after [_virtualize] *)
    assert (Hr1 : set_Virtual_ID (Some v) r
                  ∈ _virtualize str_findall_ignorecase re_findall_ints
                      merged 10000000).
    { unfold _virtualize. rewrite decide_False.
      2:{ rewrite Hmulti. by destruct pre. }
      rewrite foldl_virtualize_item. cbn [fst].
      apply list_elem_of_fmap. exists r. split; [|done].
      rewrite Hmulti. symmetry. apply foldl_row_step_last; [done|].
      apply Forall_forall. intros idx' Hidx'. by apply Hlast. }
    (* the swap *)
    set (virtualized := _virtualize _ _ merged 10000000) in *.
    assert (Hany : Virtual_ID_any virtualized = true).
    { apply existsb_elem_of. exists (set_Virtual_ID (Some v) r).
      split; [done|]. cbn. apply negb_true_iff, Z.eqb_neq. unfold v. lia. }
    assert (Hr2 : swap_ids (set_Virtual_ID (Some v) r)
                  ∈ apply_virtual_ids virtualized).
    { unfold apply_virtual_ids. rewrite Hany. unfold assign.
      apply list_elem_of_fmap. exists (set_Virtual_ID (Some v) r).
      split; [|done]. reflexivity. }
    destruct (detect_inconsistencies_elem _ valid_taxes _ Hr2)
      as (r3 & Hr3 & Hl & Hi & Hv).
    exists r3. split; [by rewrite order_data_perm|].
    rewrite Hl, Hi, Hv. done.
  - intros r i _ _ Hlt. lia.
  - rewrite order_data_perm, detect_inconsistencies_labels,
      apply_virtual_ids_labels, virtualize_labels.
    eapply enrich_labels_NoDup; [|exact Hen].
    by apply imap_label_NoDup.
Qed.

End virtual_id_claim.

(** ** Two concrete consolidations

    The pattern is instantiated on four texts; "D 1 D 2" stands for an
    item description with the two case markers D 1 and D 2. *)
Definition sample_findall_ints (text : string) : list Z :=
  if decide (text = "D 1 D 2") then [1; 2]
  else if decide (text = "D 2 D 3") then [2; 3]
  else if decide (text = "D 1") then [1]
  else if decide (text = "D 3") then [3]
  else [].

Definition sample_findall (text : string) : list string :=
  if decide (text = "D 1 D 2") then ["1"; "2"]
  else if decide (text = "D 2 D 3") then ["2"; "3"]
  else if decide (text = "D 1") then ["1"]
  else if decide (text = "D 3") then ["3"]
  else [].

Definition text_item (doc : Z) (amount : float) (text : string)
    (id_num : option Z) : Item :=
  mkItem doc "" "DZ" "01.01.2023" "31.01.2023" amount "EUR" "A1" text 1001
    (HO_num 1001) false false false "" None id_num.

(** One item referencing cases 1 and 2, one item of case 1, one of case 3. *)
Definition single_multi_items : list Item :=
  [ text_item 9001 10 "D 1 D 2" (Some 1);
    text_item 9002 (-10) "D 1" (Some 1);
    text_item 9003 5 "D 3" (Some 3) ].

(** Two items with overlapping references: cases 1 and 2, cases 2 and 3. *)
Definition chained_items : list Item :=
  [ text_item 9001 10 "D 1 D 2" (Some 1);
    text_item 9002 (-10) "D 2 D 3" (Some 2) ].

Definition consolidated_or_empty (res : result (option (list Row))) : list Row :=
  match res with
  | Ok (Some d) => d
  | _ => []
  end.

Definition ids_of (d : list Row) : list (nat * option Z * option Z) :=
  map (λ r, (label r, row_ID r, Virtual_ID (item r))) d.

Example chained_items_consolidated :
  ids_of (consolidated_or_empty
            (consolidate sample_findall sample_findall_ints chained_items []
               None ["A1"]))
  = [(1%nat, Some 10000001, Some 2); (0%nat, Some 10000000, Some 1)].
Proof. vm_compute. reflexivity. Qed.

Lemma consolidate_virtual_ids_witness :
  rekeyed_to_one_id sample_findall_ints
    (merge_cases single_multi_items [])
    (consolidated_or_empty
       (consolidate sample_findall sample_findall_ints single_multi_items []
          None ["A1"]))
    0 (10000000 + Z.of_nat (length (@nil nat)))
  ∧ (∀ r i, r ∈ merge_cases single_multi_items [] → row_ID r = Some i →
       (i < 10000000)%Z → i ≠ (10000000 + Z.of_nat (length (@nil nat)))%Z)
  ∧ NoDup (label <$> consolidated_or_empty
             (consolidate sample_findall sample_findall_ints
                single_multi_items [] None ["A1"])).
Proof.
  apply (consolidate_virtual_ids sample_findall sample_findall_ints
           single_multi_items [] None ["A1"] _ _ [] [] 0%nat).
  - reflexivity.
  - vm_compute. reflexivity.
  - vm_compute. reflexivity.
  - intros idx' r Hin. by apply elem_of_nil in Hin.
Defined.

(** With overlapping references the claim as written fails: the first
    item references case 2, yet the record of case 2 ends with the second
    item's synthetic identifier. *)
Lemma chained_items_not_rekeyed :
  ¬ every_multi_item_rekeyed sample_findall sample_findall_ints
      chained_items [] None ["A1"].
Proof.
  intros Hclaim.
  destruct (Hclaim (merge_cases chained_items [])
              (consolidated_or_empty
                 (consolidate sample_findall sample_findall_ints chained_items
                    [] None ["A1"]))
              eq_refl) with (idx := 0%nat) as (v & _ & Hv).
  { vm_compute. reflexivity. }
  { vm_compute. left. }
  assert (Hin : ∀ r' : Row,
            r' ∈ consolidated_or_empty
                   (consolidate sample_findall sample_findall_ints
                      chained_items [] None ["A1"]) →
            (label r' = 1%nat ∧ row_ID r' = Some 10000001)
            ∨ (label r' = 0%nat ∧ row_ID r' = Some 10000000)).
  { intros r' Hr'. vm_compute in Hr'.
    apply elem_of_cons in Hr' as [->|Hr']; [by left|].
    apply list_elem_of_singleton in Hr' as ->. by right. }
  destruct (Hv (mkRow 0 (text_item 9001 10 "D 1 D 2" (Some 1)) None None))
    as (ra & Hra & Hla & Hia & _).
  { vm_compute. left. }
  { vm_compute. reflexivity. }
  destruct (Hv (mkRow 1 (text_item 9002 (-10) "D 2 D 3" (Some 2)) None None))
    as (rb & Hrb & Hlb & Hib & _).
  { vm_compute. right. left. }
  { vm_compute. reflexivity. }
  cbn in Hla, Hlb.
  destruct (Hin ra Hra) as [[Hl Hi]|[Hl Hi]]; [congruence|].
  destruct (Hin rb Hrb) as [[Hl' Hi']|[Hl' Hi']]; [|congruence].
  rewrite Hia in Hi. rewrite Hib in Hi'. congruence.
Qed.

(** * The checkpointed pipeline ([biaCore], [biaRecovery], the
      accumulator of [biaProcessor]) *)

(** ** Clearing input and output *)

(** One record of the clearing input: the accounting parameters of a
    group of matched items. [rec_F30_Clearing_Status] is the key that
    [clear_open_items] adds to a skipped record. *)
Record ClearingRecord : Type := mkClearingRecord {
  Skipped : bool;
  Message : string;
  rec_Case_IDs : list Z;
  rec_Currency : string;
  Assignment : string;
  rec_Head_Office : Z;
  Tax_Code : string;
  rec_Root_Cause : string;
  GL_Account : string;
  Cost_Center : string;
  Posting_Text : string;
  Rest_Amount : Q;
  rec_Notification : Z;
  DMS_Closing_Status : string;
  QM_Closing_Status : string;
  rec_F30_Clearing_Status : option string
}.

(** The parameters of one currency. *)
Record CurrencyParams : Type := mkCurrencyParams {
  records : list (Z * ClearingRecord);
  F30_Clearing_Status : string;
  Head_Offs_To_Docs : list (Z * list Z);
  Case_IDs : list Z;
  Posting_Number : option Z;
  Cleared : bool;
  Matched_Count : nat
}.

(** What the accumulator and the dump files hold. *)
Inductive Data : Type :=
| PyNone
| Items (d : list Item)
| Cases (d : list Case)
| Rows (d : list Row)
| Clearing (d : list (string * CurrencyParams)).

Definition is_None (d : Data) : bool :=
  match d with
  | PyNone => true
  | _ => false
  end.

(** ** Calls to the collaborators

    Every call that does a stage's work is recorded, with the entity it
    is made for. *)
Inductive Call : Type :=
| Fbl5nExport (ent : string)
| Fbl5nPreprocess (ent : string)
| DmsSearchDisputes (ent : string)
| DmsExport (ent : string)
| DmsPreprocess (ent : string)
| Consolidate (ent : string)
| EvaluateItems (ent : string)
| CreateClearingInput (ent : string)
| F30LoadItems (ent curr : string)
| F30SelectAndTransfer (ent curr : string)
| F30PostItems (ent curr : string)
| DmsModifyCase (ent : string) (case : Z)
| QmSearchNotification (ent : string) (notif : Z)
| QmCompleteNotification (ent : string) (notif : Z)
| SessionCall (what : string).

#[global] Instance Call_eq_dec : EqDecision Call.
Proof. solve_decision. Defined.

(** ** The state of a run *)

Record World : Type := mkWorld {
  (** [biaRecovery._ent_states] *)
  ent_states : gmap string (gmap string bool);
  (** the recovery file; [None] when it does not exist *)
  rec_file : option (gmap string (gmap string bool));
  (** [biaProcessor._accum]: data kind, then entity *)
  accum : gmap string (gmap string Data);
  (** the files of the dump folder, by kind and entity *)
  dump : gmap (string * string) Data;
  (** the calls made so far, oldest first *)
  calls : list Call
}.

Definition set_states (es : gmap string (gmap string bool))
    (file : option (gmap string (gmap string bool))) (w : World) : World :=
  mkWorld es file (accum w) (dump w) (calls w).

Definition set_accum (a : gmap string (gmap string Data)) (w : World) : World :=
  mkWorld (ent_states w) (rec_file w) a (dump w) (calls w).

Definition set_dump (d : gmap (string * string) Data) (w : World) : World :=
  mkWorld (ent_states w) (rec_file w) (accum w) d (calls w).

Definition set_calls (c : list Call) (w : World) : World :=
  mkWorld (ent_states w) (rec_file w) (accum w) (dump w) c.

(** A collaborator is called. *)
Definition call (c : Call) : Py World unit := λ w,
  (Ok tt, set_calls (calls w ++ [c]) w).

(** [raise] of an outcome the collaborator produced. *)
Definition of_result {A} (r : result A) : Py World A := λ w, (r, w).

(** [try: m except Exception: handler] *)
Definition try_except {A} (m : Py World A) (handler : exn → Py World A)
  : Py World A := λ w,
  match m w with
  | (Ok a, w') => (Ok a, w')
  | (Raise e, w') => handler e w'
  end.

(** ** [biaRecovery] *)

Definition checkpoint_keys : list string :=
  [ "fbl5n_data_exported"; "fbl5n_data_converted"; "fbl5n_data_no_case";
    "dms_data_exported"; "dms_data_converted"; "f30_input_generated";
    "f30_items_cleared"; "dms_cases_processed"; "data_consolidated";
    "data_analyzed"; "qm_notifications_processed" ].

(** [reset_entity_states]: every checkpoint of every entity is false, and
    the file is rewritten. *)
Definition default_states (entits : list string)
  : gmap string (gmap string bool) :=
  list_to_map
    (map (λ ent, (ent, list_to_map (map (λ k, (k, false)) checkpoint_keys)))
       entits).

Definition clear_entity_states : Py World unit := λ w,
  (Ok tt, set_states ∅ (Some ∅) w).

(** [initialize]: the states of the file when it holds any (a previous
    run ended abnormally), fresh states otherwise. Returns whether there
    was a previous failure. *)
Definition initialize (entits : list string) : Py World bool := λ w,
  let w :=
    if bool_decide (rec_file w = None) then (clear_entity_states w).2
    else w in
  let saved := default ∅ (rec_file w) in
  if bool_decide (saved ≠ ∅) then (Ok true, set_states saved (rec_file w) w)
  else (Ok false,
        set_states (default_states entits) (Some (default_states entits)) w).

(** [reset] *)
Definition reset : Py World unit :=
  clear_entity_states.

(** [save_entity_state]: the state is changed in memory and the whole
    table is written to the file. *)
Definition save_entity_state (ent key : string) (val : bool) : Py World unit :=
  λ w,
  match ent_states w !! ent with
  | Some st =>
      let es := <[ent := <[key := val]> st]> (ent_states w) in
      (Ok tt, set_states es (Some es) w)
  | None => (Raise (KeyError ent), w)
  end.

Definition get_entity_state (ent state : string) : Py World bool := λ w,
  match ent_states w !! ent with
  | Some st =>
      match st !! state with
      | Some b => (Ok b, w)
      | None => (Raise (KeyError state), w)
      end
  | None => (Raise (KeyError ent), w)
  end.

(** ** The accumulator and the dump files *)

Definition empty_accum : gmap string (gmap string Data) :=
  list_to_map
    (map (λ k, (k, ∅))
       [ "fbl5n_data"; "dms_data"; "consolidated_data"; "analyzed_data";
         "matched_data"; "clearing_input"; "clearing_output";
         "dms_closing_output"; "qm_closing_output" ]).

Definition store_to_accum (ent key : string) (data : Data) (force : bool)
  : Py World unit := λ w,
  match accum w !! key with
  | Some m =>
      if bool_decide (is_Some (m !! ent)) && negb force then
        (Raise (AssertionError
                  "Cannot modify data already stored in the accumulator!"), w)
      else (Ok tt, set_accum (<[key := <[ent := data]> m]> (accum w)) w)
  | None => (Raise (KeyError key), w)
  end.

Definition get_from_accum (ent key : string) : Py World Data := λ w,
  match accum w !! key with
  | Some m =>
      match m !! ent with
      | Some d => (Ok d, w)
      | None => (Raise (KeyError ent), w)
      end
  | None => (Raise (KeyError key), w)
  end.

(** [store_to_binary] and [store_to_serial] *)
Definition store_to_file (kind ent : string) (data : Data) : Py World unit :=
  λ w, (Ok tt, set_dump (<[(kind, ent) := data]> (dump w)) w).

(** [read_binary] *)
Definition read_binary (kind ent : string) : Py World Data := λ w,
  match dump w !! (kind, ent) with
  | Some d => (Ok d, w)
  | None => (Raise (BackendError "FileNotFoundError"), w)
  end.

(** [read_serial]: an empty document reads as [None]. *)
Definition read_serial (kind ent : string) : Py World Data :=
  d ← read_binary kind ent;
  match d with
  | Clearing [] => mret PyNone
  | _ => mret d
  end.

(** ** Loops with [continue] and [return] *)

Inductive ctl (A R : Type) : Type :=
| Next (a : A)
| Return (r : R).
Arguments Next {A R} a.
Arguments Return {A R} r.

(** [for x in xs: body], where the body ends an iteration with the new
    value of the loop's variables ([Next]) or leaves the function
    ([Return]). *)
Fixpoint mloop {S X A R} (body : X → A → Py S (ctl A R)) (xs : list X) (a : A)
  : Py S (ctl A R) :=
  match xs with
  | [] => mret (Next a)
  | x :: xs' =>
      c ← body x a;
      match c with
      | Next a' => mloop body xs' a'
      | Return r => mret (Return r)
      end
  end.

(** ** The collaborators and the rules *)

Inductive Fbl5nOutcome : Type :=
| Fbl5nExported
| Fbl5nNoDataFound
| Fbl5nAbapRuntimeError
| Fbl5nWorklistNotFound
| Fbl5nConnectionLost
| Fbl5nFailed (e : exn).

Inductive DmsSearchOutcome : Type :=
| DmsFound
| DmsNoCaseFound
| DmsSearchFailed (e : exn).

Inductive PostOutcome : Type :=
| Posted (pst_num : Z)
| ItemPostingError (msg : string)
| PostFailed (e : exn).

Inductive ModifyOutcome : Type :=
| CaseClosed
| SavingChangesError
| StatusAcError
| CaseEditingError
| ModifyFailed.

#[global] Instance ModifyOutcome_eq_dec : EqDecision ModifyOutcome.
Proof. solve_decision. Defined.

Inductive QmSearchOutcome : Type :=
| QmTasks
| QmTransactionNotStarted
| QmSearchError (msg : string)
| QmCompletionWarning
| QmSearchFailed (e : exn).

(** What a run depends on besides its own state: the clearing rules, the
    column sum of pandas, and what the automation backend and the
    exported files answer. Parsing of the exported files and the building
    of the clearing input are taken as given functions of these
    answers. *)
Record Env : Type := mkEnv {
  entity_type : string → string → string;
  case_findall : string → string → list string;
  case_findall_ints : string → string → list Z;
  valid_taxes : string → string → list string;
  base_threshold : string → float;
  tax_thresholds : string → gmap string float;
  Series_sum : list float → float;
  customer_data : string → option (list Customer);
  fbl5n_export : string → Fbl5nOutcome;
  fbl5n_exported_items : string → result (list Item);
  dms_search_disputes : string → list Z → DmsSearchOutcome;
  dms_export : string → bool;
  dms_exported_cases : string → result (list Case);
  clearing_input_of :
    string → string → list Row → result (list (string * CurrencyParams));
  f30_load_account_items : string → string → bool;
  f30_select_and_transfer : string → string → result bool;
  f30_post_items : string → string → PostOutcome;
  dms_search_dispute : string → Z → result unit;
  dms_modify_case : string → Z → ModifyOutcome;
  qm_search_notification : string → Z → QmSearchOutcome;
  qm_complete_notification : string → Z → bool;
  report_sent : result bool;
  sap_login : bool
}.

(** [evaluate_items] and [get_matched_items] on frame values: the frame
    is placed in a heap of its own and the result is read back. *)
Definition evaluate_rows (sum : list float → float) (consolid : list Row)
    (b : float) (t : gmap string float) : result (list Row) :=
  match evaluate_items sum 1%positive b t {[ 1%positive := consolid ]} with
  | (Ok data, h) =>
      match h !! data with
      | Some d => Ok d
      | None => Raise (TypeError "not a DataFrame")
      end
  | (Raise e, _) => Raise e
  end.

Definition matched_rows (analyzed : list Row) : list Row :=
  filter (λ r, all_flags r = true) analyzed.

Section pipeline.
Variable env : Env.

(** *** [export_fbl5n_data] *)

(** On a lost connection the source calls [fbl5n.export] again without
    the session argument; the arguments shift by one, the company code is
    taken for the file path and the call raises [FolderNotFoundError].

    [worklist] is assigned only for the two known types of entity. For
    another type the name is unbound when no earlier pass of the loop has
    assigned it, and the call of the export raises [UnboundLocalError];
    this is the case followed here. After a pass that assigned it, the
    source calls the export with the worklist of that earlier entity. *)
Definition export_fbl5n_body (ent cocd : string) (success : bool)
  : Py World (ctl bool bool) :=
  let group_type := entity_type env cocd ent in
  exported ← get_entity_state ent "fbl5n_data_exported";
  if (exported : bool) then mret (Next true)
  else
    (if bool_decide (group_type = "worklist")
        || bool_decide (group_type = "company_code")
     then mret tt
     else mthrow (UnboundLocalError "worklist"));;
    call (Fbl5nExport ent);;
    match fbl5n_export env ent with
    | Fbl5nNoDataFound => mret (Next success)
    | Fbl5nExported | Fbl5nAbapRuntimeError | Fbl5nWorklistNotFound =>
        save_entity_state ent "fbl5n_data_exported" true;;
        mret (Next true)
    | Fbl5nConnectionLost => mthrow (BackendError "FolderNotFoundError")
    | Fbl5nFailed e => mthrow e
    end.

Definition loop_result {S} (c : Py S (ctl bool bool)) : Py S bool :=
  r ← c;
  match r with
  | Next a => mret a
  | Return b => mret b
  end.

Definition export_fbl5n_data (entits : list (string * string)) : Py World bool :=
  loop_result (mloop (λ p, export_fbl5n_body p.1 p.2) entits false).

(** *** [load_fbl5n_data] *)

Definition _exist_cases (fbl5n_data : list Item) : bool :=
  negb (bool_decide (unique (omap ID fbl5n_data) = [])).

Definition load_fbl5n_body (ent cocd : string) (success : bool)
  : Py World (ctl bool bool) :=
  exported ← get_entity_state ent "fbl5n_data_exported";
  if negb (exported : bool) then
    store_to_accum ent "fbl5n_data" PyNone false;;
    mret (Next success)
  else
    converted ← get_entity_state ent "fbl5n_data_converted";
    conv ← (if (converted : bool) then read_binary "fbl5n_data_binary" ent
            else
              call (Fbl5nPreprocess ent);;
              d ← of_result (fbl5n_exported_items env ent);
              mret (Items d));
    (if negb (is_None conv) then
       store_to_file "fbl5n_data_binary" ent conv;;
       save_entity_state ent "fbl5n_data_converted" true;;
       match conv with
       | Items d =>
           if negb (_exist_cases d)
           then save_entity_state ent "fbl5n_data_no_case" true
           else mret tt
       | _ => mthrow (TypeError "not a DataFrame")
       end
     else mret tt);;
    store_to_accum ent "fbl5n_data" conv true;;
    mret (Next true).

Definition load_fbl5n_data (entits : list (string * string)) : Py World bool :=
  loop_result (mloop (λ p, load_fbl5n_body p.1 p.2) entits false).

(** *** [export_dms_data] *)

Definition export_dms_body (ent cocd : string) (u : bool)
  : Py World (ctl bool bool) :=
  no_case ← get_entity_state ent "fbl5n_data_no_case";
  if (no_case : bool) then mret (Next u)
  else
    exported ← get_entity_state ent "fbl5n_data_exported";
    if negb (exported : bool) then mret (Next u)
    else
      fbl5n_data ← get_from_accum ent "fbl5n_data";
      case_nums ← match fbl5n_data with
                  | Items d => mret (unique (omap ID d))
                  | _ => mthrow (TypeError "not subscriptable")
                  end;
      dms_exported ← get_entity_state ent "dms_data_exported";
      if (dms_exported : bool) then mret (Next u)
      else
        call (DmsSearchDisputes ent);;
        match dms_search_disputes env ent case_nums with
        | DmsNoCaseFound => mret (Next u)
        | DmsSearchFailed e => mthrow e
        | DmsFound =>
            call (DmsExport ent);;
            if dms_export env ent then
              save_entity_state ent "dms_data_exported" true;;
              mret (Next u)
            else
              call (SessionCall "dms.close");;
              mret (Return false)
        end.

Definition export_dms_data (entits : list (string * string)) : Py World bool :=
  call (SessionCall "dms.start");;
  c ← mloop (λ p, export_dms_body p.1 p.2) entits true;
  match c with
  | Return r => mret r
  | Next _ => call (SessionCall "dms.close");; mret true
  end.

(** *** [load_dms_data] *)

Definition load_dms_body (ent cocd : string) (success : bool)
  : Py World (ctl bool bool) :=
  exported ← get_entity_state ent "dms_data_exported";
  if negb (exported : bool) then mret (Next true)
  else
    was_converted ← get_entity_state ent "dms_data_converted";
    converted ← (if negb (was_converted : bool) then
                   call (DmsPreprocess ent);;
                   d ← of_result (dms_exported_cases env ent);
                   store_to_file "dms_data_binary" ent (Cases d);;
                   save_entity_state ent "dms_data_converted" true;;
                   mret (Cases d)
                 else read_binary "dms_data_binary" ent);
    store_to_accum ent "dms_data" converted true;;
    mret (Next (negb (is_None converted))).

Definition load_dms_data (entits : list (string * string)) : Py World bool :=
  loop_result (mloop (λ p, load_dms_body p.1 p.2) entits false).

(** *** [consolidate_data] *)

Definition consolidate_body (ent cocd : string) (success : bool)
  : Py World (ctl bool bool) :=
  exported ← get_entity_state ent "dms_data_exported";
  if negb (exported : bool) then
    store_to_accum ent "consolidated_data" PyNone false;;
    mret (Next true)
  else
    consolidated ← get_entity_state ent "data_consolidated";
    if (consolidated : bool) then
      consolid ← read_binary "consolidated_data" ent;
      store_to_accum ent "consolidated_data" consolid false;;
      mret (Next true)
    else
      let cust_data := customer_data env cocd in
      fbl5n_data ← get_from_accum ent "fbl5n_data";
      dms_data ← get_from_accum ent "dms_data";
      call (Consolidate ent);;
      consolid ←
        match fbl5n_data, dms_data with
        | Items f, Cases d =>
            of_result (consolidate (case_findall env cocd)
                         (case_findall_ints env cocd) f d cust_data
                         (valid_taxes env cocd ent))
        | _, _ => mthrow (TypeError "Can only merge DataFrame objects")
        end;
      match consolid with
      | None => mret (Next success)
      | Some rows =>
          store_to_file "consolidated_data" ent (Rows rows);;
          store_to_accum ent "consolidated_data" (Rows rows) true;;
          save_entity_state ent "data_consolidated" true;;
          mret (Next true)
      end.

Definition consolidate_data (entits : list (string * string)) : Py World bool :=
  loop_result (mloop (λ p, consolidate_body p.1 p.2) entits false).

End pipeline.

(** Updates of the clearing data. *)
Definition set_records (recs : list (Z * ClearingRecord)) (p : CurrencyParams)
  : CurrencyParams :=
  mkCurrencyParams recs (F30_Clearing_Status p) (Head_Offs_To_Docs p)
    (Case_IDs p) (Posting_Number p) (Cleared p) (Matched_Count p).

Definition set_cleared (b : bool) (status : string) (p : CurrencyParams)
  : CurrencyParams :=
  mkCurrencyParams (records p) status (Head_Offs_To_Docs p) (Case_IDs p)
    (Posting_Number p) b (Matched_Count p).

Definition set_posting_number (n : option Z) (p : CurrencyParams)
  : CurrencyParams :=
  mkCurrencyParams (records p) (F30_Clearing_Status p) (Head_Offs_To_Docs p)
    (Case_IDs p) n (Cleared p) (Matched_Count p).

Definition set_rec_F30_status (s : option string) (r : ClearingRecord)
  : ClearingRecord :=
  mkClearingRecord (Skipped r) (Message r) (rec_Case_IDs r) (rec_Currency r)
    (Assignment r) (rec_Head_Office r) (Tax_Code r) (rec_Root_Cause r)
    (GL_Account r) (Cost_Center r) (Posting_Text r) (Rest_Amount r)
    (rec_Notification r) (DMS_Closing_Status r) (QM_Closing_Status r) s.

Definition set_DMS_status (s : string) (r : ClearingRecord) : ClearingRecord :=
  mkClearingRecord (Skipped r) (Message r) (rec_Case_IDs r) (rec_Currency r)
    (Assignment r) (rec_Head_Office r) (Tax_Code r) (rec_Root_Cause r)
    (GL_Account r) (Cost_Center r) (Posting_Text r) (Rest_Amount r)
    (rec_Notification r) s (QM_Closing_Status r) (rec_F30_Clearing_Status r).

Definition set_QM_status (s : string) (r : ClearingRecord) : ClearingRecord :=
  mkClearingRecord (Skipped r) (Message r) (rec_Case_IDs r) (rec_Currency r)
    (Assignment r) (rec_Head_Office r) (Tax_Code r) (rec_Root_Cause r)
    (GL_Account r) (Cost_Center r) (Posting_Text r) (Rest_Amount r)
    (rec_Notification r) (DMS_Closing_Status r) s (rec_F30_Clearing_Status r).

(** A loop that threads its variables through the passes. *)
Fixpoint mfoldl {S A B} (f : B → A → Py S B) (b : B) (xs : list A) : Py S B :=
  match xs with
  | [] => mret b
  | x :: xs' => b' ← f b x; mfoldl f b' xs'
  end.

Section pipeline_posting.
Variable env : Env.

(** *** [generate_clearing_input] *)

Definition generate_input_body (ent cocd : string) (exist_matches : bool)
  : Py World (ctl bool bool) :=
  consolidated ← get_entity_state ent "data_consolidated";
  if negb (consolidated : bool) then
    store_to_accum ent "clearing_input" PyNone false;;
    store_to_accum ent "analyzed_data" PyNone false;;
    store_to_accum ent "matched_data" PyNone false;;
    mret (Next exist_matches)
  else
    was_analyzed ← get_entity_state ent "data_analyzed";
    p ← (if (was_analyzed : bool) then
           analyzed ← read_binary "analyzed_data" ent;
           matched ← read_binary "matched_data" ent;
           mret (analyzed, matched)
         else
           consolid ← get_from_accum ent "consolidated_data";
           call (EvaluateItems ent);;
           match consolid with
           | Rows c =>
               analyzed ← of_result (evaluate_rows (Series_sum env) c
                                       (base_threshold env cocd)
                                       (tax_thresholds env cocd));
               mret (Rows analyzed, Rows (matched_rows analyzed))
           | _ => mthrow (TypeError "not a DataFrame")
           end);
    store_to_accum ent "analyzed_data" p.1 false;;
    store_to_accum ent "matched_data" p.2 false;;
    store_to_file "analyzed_data" ent p.1;;
    store_to_file "matched_data" ent p.2;;
    save_entity_state ent "data_analyzed" true;;
    match p.2 with
    | Rows matched =>
        if bool_decide (length matched = 0%nat) then
          store_to_accum ent "clearing_input" PyNone false;;
          store_to_file "clearing_input" ent (Clearing []);;
          mret (Next exist_matches)
        else
          generated ← get_entity_state ent "f30_input_generated";
          if (generated : bool) then
            clearing_input ← read_serial "clearing_input" ent;
            store_to_accum ent "clearing_input" clearing_input false;;
            mret (Next true)
          else
            call (CreateClearingInput ent);;
            clr_input ← of_result (clearing_input_of env cocd ent matched);
            store_to_file "clearing_input" ent (Clearing clr_input);;
            store_to_accum ent "clearing_input" (Clearing clr_input) false;;
            save_entity_state ent "f30_input_generated" true;;
            mret (Next true)
    | _ => mthrow (TypeError "not a DataFrame")
    end.

Definition generate_clearing_input (entits : list (string * string))
  : Py World bool :=
  loop_result (mloop (λ p, generate_input_body p.1 p.2) entits false).

(** *** [clear_open_items] *)

Definition mark_skipped (recs : list (Z * ClearingRecord))
  : list (Z * ClearingRecord) :=
  map (λ p, if Skipped p.2
            then (p.1, set_rec_F30_status
                         (Some ("WARNING: " +:+ Message p.2)) p.2)
            else p) recs.

Definition clr_records_of (recs : list (Z * ClearingRecord))
  : list (Z * ClearingRecord) :=
  filter (λ p, Skipped p.2 = false) recs.

(** One pass of the loop over the currencies; the loop's variables are
    the output built so far and [posted].

    The source updates a shallow copy of the clearing input
    ([clr_input.copy()]): the parameters and the records are shared with
    the entry [clearing_input] of the accumulator, which takes the same
    updates. The output is built here as a value of its own and the
    entry of the input is left as it was; what is stated of the
    accumulator after the clearing is stated of the entry
    [clearing_output] only. *)
Definition clear_currency (ent cocd : string)
    (acc : list (string * CurrencyParams) * bool)
    (cp : string * CurrencyParams)
  : Py World (list (string * CurrencyParams) * bool) :=
  let curr := cp.1 in
  let params := set_records (mark_skipped (records cp.2)) cp.2 in
  if bool_decide (clr_records_of (records cp.2) = []) then
    mret (acc.1 ++ [(curr, params)], acc.2)
  else
    call (F30LoadItems ent curr);;
    if negb (f30_load_account_items env ent curr) then
      mret (acc.1 ++ [(curr, set_cleared false
                               "ERROR: Could not load items from account(s)"
                               params)], acc.2)
    else
      call (F30SelectAndTransfer ent curr);;
      pst_button ← of_result (f30_select_and_transfer env ent curr);
      if negb (pst_button : bool) then
        mret (acc.1 ++ [(curr, set_cleared false "ERROR: Item selection failed"
                                 params)], acc.2)
      else
        call (F30PostItems ent curr);;
        match f30_post_items env ent curr with
        | ItemPostingError msg =>
            mret (acc.1 ++ [(curr, set_cleared false ("ERROR: " +:+ msg +:+ ".")
                                     params)], acc.2)
        | PostFailed e => mthrow e
        | Posted pst_num =>
            mret (acc.1 ++ [(curr, set_posting_number (Some pst_num)
                                     (set_cleared true "Item cleared." params))],
                  true)
        end.

Definition clear_body (ent cocd : string) (success : bool)
  : Py World (ctl bool bool) :=
  clr_input ← get_from_accum ent "clearing_input";
  if is_None clr_input then
    store_to_accum ent "clearing_output" PyNone false;;
    mret (Next true)
  else
    cleared ← get_entity_state ent "f30_items_cleared";
    if (cleared : bool) then
      clr_output ← read_serial "clearing_output" ent;
      store_to_accum ent "clearing_output" clr_output false;;
      mret (Next true)
    else
      match clr_input with
      | Clearing input =>
          r ← mfoldl (clear_currency ent cocd) ([], false) input;
          save_entity_state ent "f30_items_cleared" r.2;;
          store_to_accum ent "clearing_output" (Clearing r.1) false;;
          store_to_file "clearing_output" ent (Clearing r.1);;
          mret (Next (success || r.2))
      | _ => mthrow (TypeError "not a dict")
      end.

Definition clear_open_items (entits : list (string * string))
  : Py World bool :=
  call (SessionCall "f30.start");;
  success ← loop_result (mloop (λ p, clear_body p.1 p.2) entits false);
  call (SessionCall "f30.close");;
  mret success.

(** *** [close_disputes] *)

Definition modify_message (o : ModifyOutcome) : string :=
  match o with
  | CaseClosed => "Case closed."
  | SavingChangesError =>
      "ERROR: Could not save changes. Check if Coordinator/Processor is correct."
  | StatusAcError => "ERROR: Status AC length limit exceeded!"
  | CaseEditingError => "ERROR: Could not edit the case!"
  | ModifyFailed => "ERROR: Could not close the case!"
  end.

(** The loop over the cases of one record; the loop's variable is the
    record. *)
Definition close_case (ent : string) (record : ClearingRecord) (case : Z)
  : Py World ClearingRecord :=
  of_result (dms_search_dispute env ent case);;
  call (DmsModifyCase ent case);;
  let outcome := dms_modify_case env ent case in
  (if bool_decide (outcome = ModifyFailed) then call (SessionCall "dms.start")
   else mret tt);;
  mret (set_DMS_status (modify_message outcome) record).

Definition close_record (ent : string) (acc : list (Z * ClearingRecord))
    (p : Z * ClearingRecord) : Py World (list (Z * ClearingRecord)) :=
  if Skipped p.2 then
    mret (acc ++ [(p.1, set_DMS_status
                          "WARNING: Closing skipped due to the accouting exclusion criteria."
                          p.2)])
  else
    record ← mfoldl (close_case ent) p.2 (rec_Case_IDs p.2);
    mret (acc ++ [(p.1, record)]).

(** One pass of the loop over the currencies of the clearing output. As
    in the clearing, the source writes [DMS_Closing_Status] into records
    that [dms_output], a shallow copy, shares with the entry
    [clearing_output] of the accumulator; the output is built here as a
    value of its own and that entry is left as it was. *)
Definition close_currency (ent : string) (acc : list (string * CurrencyParams))
    (cp : string * CurrencyParams) : Py World (list (string * CurrencyParams)) :=
  if negb (Cleared cp.2) then mret (acc ++ [cp])
  else
    get_from_accum ent "matched_data";;
    recs ← mfoldl (close_record ent) [] (records cp.2);
    mret (acc ++ [(cp.1, set_records recs cp.2)]).

Definition close_disputes_body (ent cocd : string) (u : bool)
  : Py World (ctl bool bool) :=
  no_case ← get_entity_state ent "fbl5n_data_no_case";
  if (no_case : bool) then mret (Next u)
  else
    processed ← get_entity_state ent "dms_cases_processed";
    if (processed : bool) then
      dms_output ← read_serial "dms_closing_output" ent;
      store_to_accum ent "dms_closing_output" dms_output false;;
      mret (Next u)
    else
      cleared ← get_entity_state ent "f30_items_cleared";
      if negb (cleared : bool) then mret (Next u)
      else
        clearing_out ← get_from_accum ent "clearing_output";
        match clearing_out with
        | PyNone =>
            mthrow (AssertionError
              "Error loading correct F-30 clearing input from the accumulator!")
        | Clearing co =>
            dms_output ← mfoldl (close_currency ent) [] co;
            save_entity_state ent "dms_cases_processed" true;;
            store_to_accum ent "dms_closing_output" (Clearing dms_output) false;;
            store_to_file "dms_closing_output" ent (Clearing dms_output);;
            mret (Next u)
        | _ => mthrow (TypeError "not a dict")
        end.

Definition close_disputes (entits : list (string * string)) : Py World unit :=
  call (SessionCall "dms.start");;
  mloop (λ p, close_disputes_body p.1 p.2) entits true;;
  call (SessionCall "dms.close").

End pipeline_posting.

(** [str(notif_id).startswith("301")] *)
Fixpoint leading_digits (fuel : nat) (n : Z) : Z :=
  match fuel with
  | O => n
  | S fuel' => if (n <? 1000)%Z then n else leading_digits fuel' (n / 10)
  end.

Definition startswith_301 (n : Z) : bool :=
  (leading_digits (Z.to_nat (Z.log2_up n)) n =? 301)%Z.

Section pipeline_closing.
Variable env : Env.

(** *** [close_notifications] *)

(** One pass of the loop over the records of a currency. The source
    writes [QM_Closing_Status] into records that [qm_closing_output], a
    shallow copy, shares with the entry [dms_closing_output] of the
    accumulator; the output is built here as a value of its own and that
    entry is left as it was. *)
Definition close_notification_record (ent : string) (p : Z * ClearingRecord)
    (acc : list (Z * ClearingRecord))
  : Py World (ctl (list (Z * ClearingRecord)) bool) :=
  let record := p.2 in
  let notif_id := rec_Notification record in
  let done (msg : string) : Py World (ctl (list (Z * ClearingRecord)) bool) :=
    mret (Next (acc ++ [(p.1, set_QM_status msg record)])) in
  if Skipped record then
    done "WARNING: Closing skipped due to the accouting exclusion criteria."
  else if startswith_301 notif_id then
    done "WARNING: Closing skipped due to invalid notification type for QM02."
  else if bool_decide (rec_Root_Cause record = "L06") then
    done "WARNING: Manual closing expected for credited L06 items."
  else
    call (QmSearchNotification ent notif_id);;
    match qm_search_notification env ent notif_id with
    | QmTransactionNotStarted => mret (Return false)
    | QmSearchError msg => done ("ERROR: " +:+ msg +:+ ".")
    | QmCompletionWarning => done "WARNING: Notification already closed."
    | QmSearchFailed e => mthrow e
    | QmTasks =>
        call (QmCompleteNotification ent notif_id);;
        if qm_complete_notification env ent notif_id then
          done "Notification closed."
        else
          call (SessionCall "qm02.start");;
          done "ERROR: Attempt to complete the notification failed."
    end.

Definition close_notification_currency (ent : string)
    (cp : string * CurrencyParams) (acc : list (string * CurrencyParams))
  : Py World (ctl (list (string * CurrencyParams)) bool) :=
  if negb (Cleared cp.2) then mret (Next (acc ++ [cp]))
  else
    c ← mloop (close_notification_record ent) (records cp.2) [];
    match c with
    | Next recs => mret (Next (acc ++ [(cp.1, set_records recs cp.2)]))
    | Return r => mret (Return r)
    end.

Definition close_notifications_body (ent cocd : string) (success : bool)
  : Py World (ctl bool bool) :=
  no_case ← get_entity_state ent "fbl5n_data_no_case";
  if (no_case : bool) then mret (Next success)
  else
    cleared ← get_entity_state ent "f30_items_cleared";
    if negb (cleared : bool) then mret (Next success)
    else
      processed ← get_entity_state ent "qm_notifications_processed";
      if (processed : bool) then
        qm_output ← read_serial "qm_closing_output" ent;
        store_to_accum ent "qm_closing_output" qm_output false;;
        mret (Next true)
      else
        dms_closing_out ← get_from_accum ent "dms_closing_output";
        match dms_closing_out with
        | PyNone =>
            mthrow (AssertionError
              "Error loading correct F-30 input from the accumulator!")
        | Clearing dco =>
            c ← mloop (close_notification_currency ent) dco [];
            match c with
            | Return r => mret (Return r)
            | Next qm_closing_output =>
                save_entity_state ent "qm_notifications_processed" true;;
                store_to_accum ent "qm_closing_output"
                  (Clearing qm_closing_output) false;;
                store_to_file "qm_closing_output" ent
                  (Clearing qm_closing_output);;
                mret (Next success)
            end
        | _ => mthrow (TypeError "not a dict")
        end.

Definition close_notifications (entits : list (string * string))
  : Py World bool :=
  call (SessionCall "qm02.start");;
  c ← mloop (λ p, close_notifications_body p.1 p.2) entits true;
  match c with
  | Return r => mret r
  | Next success => call (SessionCall "qm02.close");; mret success
  end.

(** *** [report_output] and the start and end of a run *)

Definition report_output : Py World bool :=
  call (SessionCall "report");;
  of_result (report_sent env).

(** [initialize_recovery]: the dump files are deleted unless the previous
    run failed. *)
Definition initialize_recovery (entits : list string) : Py World unit :=
  is_prev_failure ← initialize entits;
  if (is_prev_failure : bool) then mret tt
  else (λ w, (Ok tt, set_dump ∅ w)).

Definition disconnect_from_sap : Py World unit :=
  call (SessionCall "sap.logout").

(** *** [main], from the point where the entities are known *)

Definition main (entits : list (string * string)) : Py World Z :=
  if bool_decide (entits = []) then mret 0
  else
    initialize_recovery entits.*1;;
    call (SessionCall "sap.login");;
    exported ← try_except (export_fbl5n_data env entits;; mret true)
                  (λ _, mret false);
    if negb (exported : bool) then disconnect_from_sap;; mret 4
    else
      ok ← load_fbl5n_data env entits;
      if negb (ok : bool) then disconnect_from_sap;; mret 5
      else
        ok ← export_dms_data env entits;
        if negb (ok : bool) then disconnect_from_sap;; mret 6
        else
          ok ← load_dms_data env entits;
          if negb (ok : bool) then disconnect_from_sap;; mret 7
          else
            ok ← consolidate_data env entits;
            if negb (ok : bool) then disconnect_from_sap;; mret 8
            else
              exist_matches ← generate_clearing_input env entits;
              code ← (if (exist_matches : bool) then
                        ok ← clear_open_items env entits;
                        if negb (ok : bool) then
                          disconnect_from_sap;; mret 9
                        else
                          close_disputes env entits;;
                          ok ← close_notifications entits;
                          if negb (ok : bool) then
                            disconnect_from_sap;; mret 10
                          else mret 0
                      else mret 0);
              if negb (code =? 0)%Z then mret code
              else
                ok ← report_output;
                if negb (ok : bool) then disconnect_from_sap;; mret 11
                else
                  disconnect_from_sap;;
                  reset;;
                  mret 0.

End pipeline_closing.

(** ** Reasoning about runs

    A run [m w = (r, w')] is taken apart along the binds; every branch
    of the code becomes a case. *)

Lemma bind_inv {S A B} (m : Py S A) (f : A → Py S B) (s s' : S)
    (r : result B) :
  (m ≫= f) s = (r, s') →
  (∃ a s1, m s = (Ok a, s1) ∧ f a s1 = (r, s'))
  ∨ (∃ e, m s = (Raise e, s') ∧ r = Raise e).
Proof.
  unfold mbind, Py_bind. destruct (m s) as [[a|e] s1]; intros H.
  - left. by exists a, s1.
  - right. exists e. by injection H as <- <-.
Qed.

Lemma bind_ok {S A B} (m : Py S A) (f : A → Py S B) (s s1 : S) (a : A) :
  m s = (Ok a, s1) → (m ≫= f) s = f a s1.
Proof. intros H. unfold mbind, Py_bind. by rewrite H. Qed.

Lemma bind_raise {S A B} (m : Py S A) (f : A → Py S B) (s s1 : S) (e : exn) :
  m s = (Raise e, s1) → (m ≫= f) s = (Raise e, s1).
Proof. intros H. unfold mbind, Py_bind. by rewrite H. Qed.

(** The checkpoint of an entity in memory and in the recovery file;
    [None] when the entity or the key is not there. *)
Definition get_state (w : World) (ent key : string) : option bool :=
  st ← ent_states w !! ent; st !! key.

Definition persisted (w : World) (ent key : string) : option bool :=
  t ← rec_file w; st ← t !! ent; st !! key.

(** The data of an entity in the accumulator. *)
Definition accum_at (w : World) (key ent : string) : option Data :=
  m ← accum w !! key; m !! ent.

(** The world after [save_entity_state] on an entity of the table. *)
Definition put_state (ent key : string) (v : bool) (w : World) : World :=
  let es := <[ent := <[key := v]> (default ∅ (ent_states w !! ent))]>
              (ent_states w) in
  set_states es (Some es) w.

(** The world after [store_to_accum] on a kind of the accumulator. *)
Definition put_accum (ent key : string) (d : Data) (w : World) : World :=
  set_accum (<[key := <[ent := d]> (default ∅ (accum w !! key))]> (accum w)) w.

Definition put_file (kind ent : string) (d : Data) (w : World) : World :=
  set_dump (<[(kind, ent) := d]> (dump w)) w.

Definition add_calls (new : list Call) (w : World) : World :=
  set_calls (calls w ++ new) w.

Lemma get_entity_state_inv (ent key : string) (w w' : World) (r : result bool) :
  get_entity_state ent key w = (r, w') →
  w' = w ∧ match r with
           | Ok b => get_state w ent key = Some b
           | Raise _ => get_state w ent key = None
           end.
Proof.
  unfold get_entity_state, get_state.
  destruct (ent_states w !! ent) as [st|]; cbn.
  - destruct (st !! key); intros [= <- <-]; done.
  - intros [= <- <-]; done.
Qed.

Lemma get_entity_state_ok (ent key : string) (w : World) (b : bool) :
  get_state w ent key = Some b → get_entity_state ent key w = (Ok b, w).
Proof.
  unfold get_entity_state, get_state.
  destruct (ent_states w !! ent) as [st|]; cbn; [|done].
  by intros ->.
Qed.

(** The entity is in the table of checkpoints. *)
Definition has_entity (w : World) (ent : string) : Prop :=
  is_Some (ent_states w !! ent).

Lemma get_state_has_entity (w : World) (ent key : string) (b : bool) :
  get_state w ent key = Some b → has_entity w ent.
Proof.
  unfold get_state, has_entity. by destruct (ent_states w !! ent).
Qed.

Lemma save_entity_state_inv (ent key : string) (v : bool) (w w' : World)
    (r : result unit) :
  save_entity_state ent key v w = (r, w') →
  match r with
  | Ok _ => has_entity w ent ∧ w' = put_state ent key v w
  | Raise _ => w' = w ∧ ¬ has_entity w ent
  end.
Proof.
  unfold save_entity_state, put_state, has_entity.
  destruct (ent_states w !! ent) as [st|]; intros [= <- <-]; [by eauto|].
  split; [done|]. by intros [? [=]].
Qed.

Lemma save_entity_state_ok (ent key : string) (v : bool) (w : World) :
  is_Some (get_state w ent key) →
  save_entity_state ent key v w = (Ok tt, put_state ent key v w).
Proof.
  unfold save_entity_state, put_state, get_state.
  destruct (ent_states w !! ent) as [st|]; [done|].
  by intros [? [=]].
Qed.

Lemma store_to_accum_inv (ent key : string) (d : Data) (force : bool)
    (w w' : World) (r : result unit) :
  store_to_accum ent key d force w = (r, w') →
  match r with
  | Ok _ => is_Some (accum w !! key) ∧ w' = put_accum ent key d w
  | Raise _ => w' = w
  end.
Proof.
  unfold store_to_accum, put_accum.
  destruct (accum w !! key) as [m|]; [|by intros [= <- <-]].
  destruct (_ && _); intros [= <- <-]; eauto.
Qed.

(** Storing the first datum of an entity succeeds, also unforced. *)
Lemma store_to_accum_fresh (ent key : string) (d : Data) (force : bool)
    (w : World) :
  is_Some (accum w !! key) → accum_at w key ent = None →
  store_to_accum ent key d force w = (Ok tt, put_accum ent key d w).
Proof.
  unfold store_to_accum, put_accum, accum_at.
  intros [m ->]. cbn. intros ->. by rewrite bool_decide_eq_false_2 by by intros [? [=]].
Qed.

Lemma get_from_accum_inv (ent key : string) (w w' : World) (r : result Data) :
  get_from_accum ent key w = (r, w') →
  w' = w ∧ match r with
           | Ok d => accum_at w key ent = Some d
           | Raise _ => accum_at w key ent = None
           end.
Proof.
  unfold get_from_accum, accum_at.
  destruct (accum w !! key) as [m|]; cbn; [|by intros [= <- <-]].
  destruct (m !! ent) eqn:E; intros [= <- <-]; eauto.
Qed.

Lemma get_from_accum_ok (ent key : string) (w : World) (d : Data) :
  accum_at w key ent = Some d → get_from_accum ent key w = (Ok d, w).
Proof.
  unfold get_from_accum, accum_at.
  destruct (accum w !! key) as [m|]; cbn; [|done]. by intros ->.
Qed.

Lemma read_binary_inv (kind ent : string) (w w' : World) (r : result Data) :
  read_binary kind ent w = (r, w') → w' = w.
Proof.
  unfold read_binary. destruct (dump w !! _); by intros [= <- <-].
Qed.

Lemma read_serial_inv (kind ent : string) (w w' : World) (r : result Data) :
  read_serial kind ent w = (r, w') → w' = w.
Proof.
  unfold read_serial. intros [(a & s1 & H1 & H2)|(e & H1 & ->)]%bind_inv.
  - apply read_binary_inv in H1 as ->.
    destruct a as [| | | |[|]]; by injection H2 as <- <-.
  - by apply read_binary_inv in H1.
Qed.

Lemma of_result_inv {A} (x : result A) (w w' : World) (r : result A) :
  of_result x w = (r, w') → w' = w ∧ r = x.
Proof. by intros [= <- <-]. Qed.

Lemma call_inv (c : Call) (w w' : World) (r : result unit) :
  call c w = (r, w') → r = Ok tt ∧ w' = add_calls [c] w.
Proof. by intros [= <- <-]. Qed.

Lemma store_to_file_inv (kind ent : string) (d : Data) (w w' : World)
    (r : result unit) :
  store_to_file kind ent d w = (r, w') →
  r = Ok tt ∧ w' = put_file kind ent d w.
Proof. by intros [= <- <-]. Qed.

Lemma ret_inv {S A} (a : A) (s s' : S) (r : result A) :
  (mret a : Py S A) s = (r, s') → r = Ok a ∧ s' = s.
Proof. by intros [= <- <-]. Qed.

Lemma throw_inv {S A} (e : exn) (s s' : S) (r : result A) :
  (mthrow e : Py S A) s = (r, s') → r = Raise e ∧ s' = s.
Proof. by intros [= <- <-]. Qed.

(** *** The state after a write *)

Lemma get_state_add_calls new w e k :
  get_state (add_calls new w) e k = get_state w e k.
Proof. done. Qed.

Lemma get_state_put_accum ent key d w e k :
  get_state (put_accum ent key d w) e k = get_state w e k.
Proof. done. Qed.

Lemma get_state_put_file kind ent d w e k :
  get_state (put_file kind ent d w) e k = get_state w e k.
Proof. done. Qed.

Lemma get_state_put_state ent key v w :
  get_state (put_state ent key v w) ent key = Some v.
Proof.
  unfold get_state, put_state. cbn.
  rewrite lookup_insert_eq. cbn. by rewrite lookup_insert_eq.
Qed.

Lemma get_state_put_state_key ent key v w e k :
  k ≠ key → get_state (put_state ent key v w) e k = get_state w e k.
Proof.
  intros Hk. unfold get_state, put_state. cbn.
  destruct (decide (e = ent)) as [->|He].
  - rewrite lookup_insert_eq. cbn. rewrite lookup_insert_ne by done.
    by destruct (ent_states w !! ent).
  - by rewrite lookup_insert_ne.
Qed.

Lemma get_state_put_state_ent ent key v w e k :
  e ≠ ent → get_state (put_state ent key v w) e k = get_state w e k.
Proof.
  intros He. unfold get_state, put_state. cbn. by rewrite lookup_insert_ne.
Qed.

Lemma persisted_put_state ent key v w e k :
  persisted (put_state ent key v w) e k = get_state (put_state ent key v w) e k.
Proof. done. Qed.

Lemma persisted_add_calls new w e k :
  persisted (add_calls new w) e k = persisted w e k.
Proof. done. Qed.

Lemma persisted_put_accum ent key d w e k :
  persisted (put_accum ent key d w) e k = persisted w e k.
Proof. done. Qed.

Lemma persisted_put_file kind ent d w e k :
  persisted (put_file kind ent d w) e k = persisted w e k.
Proof. done. Qed.

Lemma calls_add_calls new w : calls (add_calls new w) = calls w ++ new.
Proof. done. Qed.

Lemma calls_put_state ent key v w : calls (put_state ent key v w) = calls w.
Proof. done. Qed.

Lemma calls_put_accum ent key d w : calls (put_accum ent key d w) = calls w.
Proof. done. Qed.

Lemma calls_put_file kind ent d w : calls (put_file kind ent d w) = calls w.
Proof. done. Qed.

Lemma has_entity_add_calls new w e :
  has_entity (add_calls new w) e ↔ has_entity w e.
Proof. done. Qed.

Lemma has_entity_put_accum ent key d w e :
  has_entity (put_accum ent key d w) e ↔ has_entity w e.
Proof. done. Qed.

Lemma has_entity_put_file kind ent d w e :
  has_entity (put_file kind ent d w) e ↔ has_entity w e.
Proof. done. Qed.

Lemma has_entity_put_state ent key v w :
  has_entity (put_state ent key v w) ent ↔ True.
Proof.
  unfold has_entity, put_state. cbn. by rewrite lookup_insert_eq.
Qed.

(** The recovery file holds the table that is in memory. *)
Definition in_sync (w : World) : Prop := rec_file w = Some (ent_states w).

Lemma in_sync_add_calls new w : in_sync (add_calls new w) ↔ in_sync w.
Proof. done. Qed.

Lemma in_sync_put_accum ent key d w : in_sync (put_accum ent key d w) ↔ in_sync w.
Proof. done. Qed.

Lemma in_sync_put_file kind ent d w : in_sync (put_file kind ent d w) ↔ in_sync w.
Proof. done. Qed.

Lemma in_sync_put_state ent key v w : in_sync (put_state ent key v w).
Proof. done. Qed.

Lemma in_sync_put_state_iff ent key v w : in_sync (put_state ent key v w) ↔ True.
Proof. done. Qed.

Lemma in_sync_persisted w e k : in_sync w → persisted w e k = get_state w e k.
Proof. unfold in_sync, persisted, get_state. by intros ->. Qed.

Create Rewrite HintDb world.
#[global] Hint Rewrite get_state_add_calls get_state_put_accum
  get_state_put_file get_state_put_state persisted_put_state
  persisted_add_calls persisted_put_accum persisted_put_file
  calls_add_calls calls_put_state calls_put_accum calls_put_file
  in_sync_add_calls in_sync_put_accum in_sync_put_file
  in_sync_put_state_iff has_entity_add_calls has_entity_put_accum
  has_entity_put_file has_entity_put_state : world.
#[global] Hint Rewrite get_state_put_state_key using done : world.
#[global] Hint Rewrite get_state_put_state_ent using done : world.

Arguments put_state : simpl never.
Arguments put_accum : simpl never.
Arguments put_file : simpl never.
Arguments add_calls : simpl never.
Arguments get_state : simpl never.
Arguments persisted : simpl never.
Arguments in_sync : simpl never.
Arguments has_entity : simpl never.

Ltac world_simpl := autorewrite with world in *.

(** *** Taking a run apart *)

(** Loops the tactic below meets are taken apart by the lemma on the
    loop. *)
Ltac py_inv_loop := fail.

(** One step of taking a run apart. *)
Ltac py_inv_step :=
  match goal with
  | H : (_ ≫= _) _ = (_, _) |- _ =>
      let a := fresh "a" in let w1 := fresh "w" in
      let e := fresh "e" in let H1 := fresh "Hrun" in
      apply bind_inv in H as [(a & w1 & H1 & H)|(e & H & ?)];
      cbv beta in *
  | H : @mret (Py _) _ _ _ _ = (_, _) |- _ => apply ret_inv in H as [? ?]
  | H : @mthrow _ (Py _) _ _ _ _ = (_, _) |- _ => apply throw_inv in H as [? ?]
  | H : call _ _ = (_, _) |- _ => apply call_inv in H as [? ?]
  | H : store_to_file _ _ _ _ = (_, _) |- _ =>
      apply store_to_file_inv in H as [? ?]
  | H : of_result _ _ = (_, _) |- _ => apply of_result_inv in H as [? ?]
  | H : get_entity_state _ _ _ = (_, _) |- _ =>
      apply get_entity_state_inv in H as [? H]
  | H : get_from_accum _ _ _ = (_, _) |- _ =>
      apply get_from_accum_inv in H as [? H]
  | H : read_binary _ _ _ = (_, _) |- _ => apply read_binary_inv in H
  | H : read_serial _ _ _ = (_, _) |- _ => apply read_serial_inv in H
  | H : save_entity_state _ _ _ _ = (Ok _, _) |- _ =>
      apply save_entity_state_inv in H as [? ?]
  | H : save_entity_state _ _ _ _ = (Raise _, _) |- _ =>
      apply save_entity_state_inv in H as [? H];
      try by (exfalso; apply H; autorewrite with world;
              first [done | eauto using get_state_has_entity])
  | H : store_to_accum _ _ _ _ _ = (Ok _, _) |- _ =>
      apply store_to_accum_inv in H as [? ?]
  | H : store_to_accum _ _ _ _ _ = (Raise _, _) |- _ =>
      apply store_to_accum_inv in H
  | H : negb _ = true |- _ => apply negb_true_iff in H
  | H : negb _ = false |- _ => apply negb_false_iff in H
  | _ => py_inv_loop
  | H : (if ?b then _ else _) _ = (_, _) |- _ =>
      let E := fresh "E" in destruct b eqn:E
  | H : (match ?x with _ => _ end) _ = (_, _) |- _ =>
      let E := fresh "E" in destruct x eqn:E
  | H : Ok _ = Ok _ |- _ => injection H as H
  | H : Ok _ = Raise _ |- _ => discriminate H
  | H : Raise _ = Ok _ |- _ => discriminate H
  | H : Next _ = Next _ |- _ => injection H as H
  | H : Next _ = Return _ |- _ => discriminate H
  | H : Return _ = Next _ |- _ => discriminate H
  | H : (_, _) = (_, _) |- _ => injection H as ? ?
  end.

Ltac py_inv := repeat (py_inv_step; simplify_eq).

(** ** Stages and their checkpoints *)

Inductive Stage : Type :=
| LedgerExport
| LedgerConversion
| CaseExport
| CaseConversion
| Consolidation
| Evaluation
| InputGeneration
| ItemClearing
| DisputeClosing
| NotificationClosing.

#[global] Instance Stage_eq_dec : EqDecision Stage.
Proof. solve_decision. Defined.

(** The key a stage reads before its work and writes after it. *)
Definition checkpoint (s : Stage) : string :=
  match s with
  | LedgerExport => "fbl5n_data_exported"
  | LedgerConversion => "fbl5n_data_converted"
  | CaseExport => "dms_data_exported"
  | CaseConversion => "dms_data_converted"
  | Consolidation => "data_consolidated"
  | Evaluation => "data_analyzed"
  | InputGeneration => "f30_input_generated"
  | ItemClearing => "f30_items_cleared"
  | DisputeClosing => "dms_cases_processed"
  | NotificationClosing => "qm_notifications_processed"
  end.

(** The stage and the entity a call works for; session calls work for
    none. *)
Definition stage_of (c : Call) : option (Stage * string) :=
  match c with
  | Fbl5nExport ent => Some (LedgerExport, ent)
  | Fbl5nPreprocess ent => Some (LedgerConversion, ent)
  | DmsSearchDisputes ent | DmsExport ent => Some (CaseExport, ent)
  | DmsPreprocess ent => Some (CaseConversion, ent)
  | Consolidate ent => Some (Consolidation, ent)
  | EvaluateItems ent => Some (Evaluation, ent)
  | CreateClearingInput ent => Some (InputGeneration, ent)
  | F30LoadItems ent _ | F30SelectAndTransfer ent _ | F30PostItems ent _ =>
      Some (ItemClearing, ent)
  | DmsModifyCase ent _ => Some (DisputeClosing, ent)
  | QmSearchNotification ent _ | QmCompleteNotification ent _ =>
      Some (NotificationClosing, ent)
  | SessionCall _ => None
  end.

(** The pass of a stage over one entity. Evaluation and the generation
    of the clearing input share a function. *)
Definition stage_body (env : Env) (s : Stage)
  : string → string → bool → Py World (ctl bool bool) :=
  match s with
  | LedgerExport => export_fbl5n_body env
  | LedgerConversion => load_fbl5n_body env
  | CaseExport => export_dms_body env
  | CaseConversion => load_dms_body env
  | Consolidation => consolidate_body env
  | Evaluation | InputGeneration => generate_input_body env
  | ItemClearing => clear_body env
  | DisputeClosing => close_disputes_body env
  | NotificationClosing => close_notifications_body env
  end.

(** Every call of the list works for a stage and an entity whose
    checkpoint is false in [w]. *)
Definition gated (w : World) (new : list Call) : Prop :=
  ∀ c s e, c ∈ new → stage_of c = Some (s, e) →
    get_state w e (checkpoint s) = Some false.

Lemma gated_nil w : gated w [].
Proof. intros c s e Hc. by apply elem_of_nil in Hc. Qed.

Lemma gated_cons w c new :
  (∀ s e, stage_of c = Some (s, e) → get_state w e (checkpoint s) = Some false) →
  gated w new → gated w (c :: new).
Proof.
  intros Hc Hn c' s e [->|Hin]%elem_of_cons; [apply Hc | by apply Hn].
Qed.

Lemma gated_app w new1 new2 :
  gated w new1 → gated w new2 → gated w (new1 ++ new2).
Proof.
  intros H1 H2 c s e [Hin|Hin]%elem_of_app; [by apply H1 | by apply H2].
Qed.

(** ** Code that only calls collaborators *)

Definition only_calls (P : Call → Prop) {A} (m : Py World A) : Prop :=
  ∀ w r w', m w = (r, w') → ∃ new, w' = add_calls new w ∧ Forall P new.

Lemma add_calls_nil (w : World) : add_calls [] w = w.
Proof. unfold add_calls. rewrite app_nil_r. by destruct w. Qed.

Lemma add_calls_app (w : World) (l1 l2 : list Call) :
  add_calls l2 (add_calls l1 w) = add_calls (l1 ++ l2) w.
Proof. unfold add_calls, set_calls. cbn. by rewrite <- app_assoc. Qed.

Section only_calls.
Context (P : Call → Prop).

Lemma only_calls_ret {A} (a : A) : only_calls P (mret a).
Proof. intros w r w' [= <- <-]. exists []. by rewrite add_calls_nil. Qed.

Lemma only_calls_throw {A} (e : exn) : only_calls P (mthrow e : Py World A).
Proof. intros w r w' [= <- <-]. exists []. by rewrite add_calls_nil. Qed.

Lemma only_calls_of_result {A} (x : result A) : only_calls P (of_result x).
Proof. intros w r w' [= <- <-]. exists []. by rewrite add_calls_nil. Qed.

Lemma only_calls_get_from_accum (ent key : string) :
  only_calls P (get_from_accum ent key).
Proof.
  intros w r w' [-> _]%get_from_accum_inv. exists [].
  by rewrite add_calls_nil.
Qed.

Lemma only_calls_call (c : Call) : P c → only_calls P (call c).
Proof.
  intros Hc w r w' [= <- <-]. exists [c]. split; [done|].
  by apply Forall_singleton.
Qed.

Lemma only_calls_bind {A B} (m : Py World A) (f : A → Py World B) :
  only_calls P m → (∀ a, only_calls P (f a)) → only_calls P (m ≫= f).
Proof.
  intros Hm Hf w r w' [(a & w1 & H1 & H2)|(e & H1 & ->)]%bind_inv.
  - apply Hm in H1 as (n1 & -> & HP1). apply Hf in H2 as (n2 & -> & HP2).
    exists (n1 ++ n2). rewrite add_calls_app. split; [done|].
    by apply Forall_app.
  - by apply Hm in H1.
Qed.

Lemma only_calls_mfoldl {A B} (f : B → A → Py World B) (xs : list A) (b : B) :
  (∀ b x, only_calls P (f b x)) → only_calls P (mfoldl f b xs).
Proof.
  intros Hf. revert b. induction xs as [|x xs IH]; intros b; cbn [mfoldl].
  - apply only_calls_ret.
  - apply only_calls_bind; [apply Hf | intros b'; apply IH].
Qed.

Lemma only_calls_mloop {X A R} (body : X → A → Py World (ctl A R))
    (xs : list X) (a : A) :
  (∀ x a, only_calls P (body x a)) → only_calls P (mloop body xs a).
Proof.
  intros Hf. revert a. induction xs as [|x xs IH]; intros a; cbn [mloop].
  - apply only_calls_ret.
  - apply only_calls_bind; [apply Hf|].
    intros [a'|r]; [apply IH | apply only_calls_ret].
Qed.

End only_calls.

Ltac only_calls_step :=
  match goal with
  | |- only_calls _ (_ ≫= _) => apply only_calls_bind; [|intros ?]
  | |- only_calls _ (mfoldl _ _ _) => apply only_calls_mfoldl; intros ? ?
  | |- only_calls _ (mloop _ _ _) => apply only_calls_mloop; intros ? ?
  | |- only_calls _ (call _) => apply only_calls_call; cbn; eauto
  | |- only_calls _ (of_result _) => apply only_calls_of_result
  | |- only_calls _ (get_from_accum _ _) => apply only_calls_get_from_accum
  | |- only_calls _ (if ?b then _ else _) => destruct b
  | |- only_calls _ (match ?x with _ => _ end) => destruct x
  | |- only_calls _ _ => apply only_calls_ret
  | |- only_calls _ _ => apply only_calls_throw
  end.

(** A call of the stage for the entity, or a session call. *)
Definition stage_call (s : Stage) (ent : string) (c : Call) : Prop :=
  stage_of c = Some (s, ent) ∨ stage_of c = None.

Lemma gated_stage_calls w s ent new :
  Forall (stage_call s ent) new →
  get_state w ent (checkpoint s) = Some false → gated w new.
Proof.
  intros Hall Hs c s' e Hc Hst.
  rewrite Forall_forall in Hall. destruct (Hall c Hc) as [H|H]; congruence.
Qed.

Lemma clear_currency_calls env ent cocd acc cp :
  only_calls (stage_call ItemClearing ent) (clear_currency env ent cocd acc cp).
Proof. unfold clear_currency, stage_call. repeat only_calls_step. Qed.

Lemma close_currency_calls env ent acc cp :
  only_calls (stage_call DisputeClosing ent) (close_currency env ent acc cp).
Proof.
  unfold close_currency, close_record, close_case, stage_call.
  repeat only_calls_step.
Qed.

Lemma close_notification_currency_calls env ent cp acc :
  only_calls (stage_call NotificationClosing ent)
    (close_notification_currency env ent cp acc).
Proof.
  unfold close_notification_currency, close_notification_record, stage_call.
  repeat only_calls_step.
Qed.

(** The currencies of one entity: a posting that succeeds sets [posted]. *)
Lemma clear_currency_posted env ent cocd acc cp w out w' :
  clear_currency env ent cocd acc cp w = (Ok out, w') →
  ∃ new, w' = add_calls new w ∧
    (acc.2 = true → out.2 = true) ∧
    ∀ curr n, F30PostItems ent curr ∈ new →
      f30_post_items env ent curr = Posted n → out.2 = true.
Proof.
  unfold clear_currency. intros H. py_inv.
  all: rewrite ?add_calls_app; cbn [app fst snd].
  all: try (exists []; rewrite add_calls_nil; split; [done|];
            split; [done|]; intros ?? []%elem_of_nil).
  all: eexists; (split; [reflexivity|]); split; [done|].
  all: intros curr n Hin Hp; set_unfold in Hin; destruct_or?; simplify_eq;
    try done; congruence.
Qed.

Lemma clear_loop_run env ent cocd input acc w r w' :
  mfoldl (clear_currency env ent cocd) acc input w = (r, w') →
  ∃ new, w' = add_calls new w ∧ Forall (stage_call ItemClearing ent) new ∧
    ∀ out, r = Ok out →
      (acc.2 = true → out.2 = true) ∧
      ∀ curr n, F30PostItems ent curr ∈ new →
        f30_post_items env ent curr = Posted n → out.2 = true.
Proof.
  revert acc w. induction input as [|cp input IH]; intros acc w; cbn [mfoldl].
  - intros [= <- <-]. exists []. rewrite add_calls_nil.
    split; [done|]. split; [done|]. intros out [= <-].
    split; [done|]. intros ?? []%elem_of_nil.
  - intros [(out1 & w1 & H1 & H2)|(e & H1 & ->)]%bind_inv.
    + pose proof H1 as (n1 & -> & HP1)%clear_currency_calls.
      apply clear_currency_posted in H1 as (n1' & Heq & Hacc & Hpost).
      assert (n1' = n1) as ->.
      { apply (f_equal calls) in Heq. unfold add_calls in Heq. cbn in Heq.
        by apply app_inv_head in Heq. }
      apply IH in H2 as (n2 & -> & HP2 & Hout).
      exists (n1 ++ n2). rewrite add_calls_app.
      split; [done|]. split; [by apply Forall_app|].
      intros out -> . destruct (Hout out eq_refl) as [Hout1 Hout2].
      split; [by auto|].
      intros curr n [Hin|Hin]%elem_of_app Hp; [|by eauto].
      apply Hout1. by eapply Hpost.
    + apply clear_currency_calls in H1 as (n1 & -> & HP1).
      exists n1. split; [done|]. split; [done|]. by intros out [=].
Qed.

Lemma close_loop_run env ent co acc w r w' :
  mfoldl (close_currency env ent) acc co w = (r, w') →
  ∃ new, w' = add_calls new w ∧ Forall (stage_call DisputeClosing ent) new.
Proof.
  apply only_calls_mfoldl. intros b x. apply close_currency_calls.
Qed.

Lemma notification_loop_run env ent dco acc w r w' :
  mloop (close_notification_currency env ent) dco acc w = (r, w') →
  ∃ new, w' = add_calls new w ∧ Forall (stage_call NotificationClosing ent) new.
Proof.
  apply only_calls_mloop. intros x a. apply close_notification_currency_calls.
Qed.

Ltac py_inv_loop ::=
  match goal with
  | H : mfoldl (clear_currency _ _ _) _ _ _ = (_, _) |- _ =>
      apply clear_loop_run in H as (? & ? & ? & ?)
  | H : mfoldl (close_currency _ _) _ _ _ = (_, _) |- _ =>
      apply close_loop_run in H as (? & ? & ?)
  | H : mloop (close_notification_currency _ _) _ _ _ = (_, _) |- _ =>
      apply notification_loop_run in H as (? & ? & ?)
  end.

(** ** What a pass does to the state *)

(** Every pass of a stage over an entity: the calls it makes are gated
    by the checkpoints at its start, the recovery file stays the image of
    the table, no checkpoint other than [f30_items_cleared] goes back to
    false, and the checkpoints of the other entities are not touched. *)
Definition pass_frame (ent : string) (w w' : World) : Prop :=
  (∃ new, calls w' = calls w ++ new ∧ gated w new)
  ∧ (in_sync w → in_sync w')
  ∧ (∀ e k, k ≠ "f30_items_cleared" →
       get_state w e k ≠ Some false → get_state w' e k ≠ Some false)
  ∧ (∀ e k, e ≠ ent → get_state w' e k = get_state w e k).

Lemma get_state_put_state_true ent key w e k :
  get_state w e k ≠ Some false →
  get_state (put_state ent key true w) e k ≠ Some false.
Proof.
  intros H. destruct (decide (e = ent)) as [->|He].
  - destruct (decide (k = key)) as [->|Hk].
    + by rewrite get_state_put_state.
    + by rewrite get_state_put_state_key.
  - by rewrite get_state_put_state_ent.
Qed.

Ltac log_solve :=
  world_simpl; rewrite <- ?app_assoc;
  first [ exists []; split; [by rewrite app_nil_r|]
        | eexists; split; [reflexivity|] ];
  repeat first
    [ apply gated_nil
    | apply gated_cons;
        [cbn; intros ? ? [= <- <-]; cbn [checkpoint]; world_simpl; done|]
    | apply gated_app
    | eapply gated_stage_calls;
        [eassumption | cbn [checkpoint]; world_simpl; done] ].

Ltac frame_solve :=
  split; [log_solve|];
  split; [intros ?; world_simpl; done|];
  split;
    [ intros ? ? ? ?; world_simpl; repeat apply get_state_put_state_true; done
    | intros ? ? ?; world_simpl; done ].

Lemma export_fbl5n_body_frame env ent cocd a w r w' :
  export_fbl5n_body env ent cocd a w = (r, w') → pass_frame ent w w'.
Proof. unfold export_fbl5n_body. intros H. py_inv. all: frame_solve. Qed.

Lemma load_fbl5n_body_frame env ent cocd a w r w' :
  load_fbl5n_body env ent cocd a w = (r, w') → pass_frame ent w w'.
Proof. unfold load_fbl5n_body. intros H. py_inv. all: frame_solve. Qed.

Lemma export_dms_body_frame env ent cocd a w r w' :
  export_dms_body env ent cocd a w = (r, w') → pass_frame ent w w'.
Proof. unfold export_dms_body. intros H. py_inv. all: frame_solve. Qed.

Lemma load_dms_body_frame env ent cocd a w r w' :
  load_dms_body env ent cocd a w = (r, w') → pass_frame ent w w'.
Proof. unfold load_dms_body. intros H. py_inv. all: frame_solve. Qed.

Lemma consolidate_body_frame env ent cocd a w r w' :
  consolidate_body env ent cocd a w = (r, w') → pass_frame ent w w'.
Proof. unfold consolidate_body. intros H. py_inv. all: frame_solve. Qed.

Lemma generate_input_body_frame env ent cocd a w r w' :
  generate_input_body env ent cocd a w = (r, w') → pass_frame ent w w'.
Proof. unfold generate_input_body. intros H. py_inv. all: frame_solve. Qed.

Lemma clear_body_frame env ent cocd a w r w' :
  clear_body env ent cocd a w = (r, w') → pass_frame ent w w'.
Proof. unfold clear_body. intros H. py_inv. all: frame_solve. Qed.

Lemma close_disputes_body_frame env ent cocd a w r w' :
  close_disputes_body env ent cocd a w = (r, w') → pass_frame ent w w'.
Proof. unfold close_disputes_body. intros H. py_inv. all: frame_solve. Qed.

Lemma close_notifications_body_frame env ent cocd a w r w' :
  close_notifications_body env ent cocd a w = (r, w') → pass_frame ent w w'.
Proof. unfold close_notifications_body. intros H. py_inv. all: frame_solve. Qed.

Lemma stage_body_frame env s ent cocd a w r w' :
  stage_body env s ent cocd a w = (r, w') → pass_frame ent w w'.
Proof.
  destruct s; cbn [stage_body];
    eauto using export_fbl5n_body_frame, load_fbl5n_body_frame,
      export_dms_body_frame, load_dms_body_frame, consolidate_body_frame,
      generate_input_body_frame, clear_body_frame, close_disputes_body_frame,
      close_notifications_body_frame.
Qed.

(** ** Completion of a stage *)

(** The work of the stage for the entity was done with success: the
    collaborator that does the work was called and answered without an
    error. The closing stages make no call when there is nothing to
    close; their work is done when the pass gets to it. *)
Definition completed (env : Env) (s : Stage) (ent cocd : string) (w : World)
    (new : list Call) : Prop :=
  match s with
  | LedgerExport =>
      Fbl5nExport ent ∈ new ∧ fbl5n_export env ent = Fbl5nExported
  | LedgerConversion => Fbl5nPreprocess ent ∈ new
  | CaseExport => DmsExport ent ∈ new ∧ dms_export env ent = true
  | CaseConversion => DmsPreprocess ent ∈ new
  | Consolidation =>
      Consolidate ent ∈ new ∧
      ∃ f d rows,
        accum_at w "fbl5n_data" ent = Some (Items f) ∧
        accum_at w "dms_data" ent = Some (Cases d) ∧
        consolidate (case_findall env cocd) (case_findall_ints env cocd) f d
          (customer_data env cocd) (valid_taxes env cocd ent) = Ok (Some rows)
  | Evaluation => EvaluateItems ent ∈ new
  | InputGeneration => CreateClearingInput ent ∈ new
  | ItemClearing =>
      ∃ curr n, F30PostItems ent curr ∈ new ∧
                f30_post_items env ent curr = Posted n
  | DisputeClosing =>
      get_state w ent "fbl5n_data_no_case" = Some false ∧
      get_state w ent "dms_cases_processed" = Some false ∧
      get_state w ent "f30_items_cleared" = Some true
  | NotificationClosing =>
      get_state w ent "fbl5n_data_no_case" = Some false ∧
      get_state w ent "qm_notifications_processed" = Some false ∧
      get_state w ent "f30_items_cleared" = Some true
  end.

(** The checkpoint is true in memory and in the recovery file. *)
Definition checkpoint_saved (s : Stage) (ent : string) (w : World) : Prop :=
  get_state w ent (checkpoint s) = Some true
  ∧ persisted w ent (checkpoint s) = Some true.

Lemma app_inv_nil {A} (l new : list A) : l = l ++ new → new = [].
Proof.
  intros H. apply (app_inv_head l). by rewrite app_nil_r.
Qed.

(** The calls of a run, from the equation on the log. *)
Ltac new_calls H :=
  world_simpl; rewrite <- ?app_assoc in H;
  first [ apply app_inv_nil in H | apply app_inv_head in H ];
  subst.

Ltac not_in_log :=
  match goal with
  | H : _ ∈ [] |- _ => by apply elem_of_nil in H
  | H : _ ∈ _ :: _ |- _ =>
      apply elem_of_cons in H as [H|H]; [try discriminate H|]
  | H : _ ∈ _ ++ _ |- _ => apply elem_of_app in H as [H|H]
  end.

Ltac saved_solve :=
  unfold checkpoint_saved; cbn [checkpoint]; world_simpl; try done.

Lemma export_fbl5n_body_completed env ent cocd a w r w' new :
  export_fbl5n_body env ent cocd a w = (r, w') →
  calls w' = calls w ++ new →
  completed env LedgerExport ent cocd w new →
  checkpoint_saved LedgerExport ent w'.
Proof.
  unfold export_fbl5n_body. intros H Hnew [Hin Hex]. py_inv.
  all: new_calls Hnew; repeat not_in_log.
  all: try congruence; saved_solve.
Qed.

Lemma load_fbl5n_body_completed env ent cocd a w a' w' new :
  load_fbl5n_body env ent cocd a w = (Ok (Next a'), w') →
  calls w' = calls w ++ new →
  completed env LedgerConversion ent cocd w new →
  checkpoint_saved LedgerConversion ent w'.
Proof.
  unfold load_fbl5n_body. intros H Hnew Hin. cbn in Hin. py_inv.
  all: new_calls Hnew; repeat not_in_log.
  all: try congruence; saved_solve.
Qed.

Lemma export_dms_body_completed env ent cocd a w r w' new :
  export_dms_body env ent cocd a w = (r, w') →
  calls w' = calls w ++ new →
  completed env CaseExport ent cocd w new →
  checkpoint_saved CaseExport ent w'.
Proof.
  unfold export_dms_body. intros H Hnew [Hin Hex]. py_inv.
  all: new_calls Hnew; repeat not_in_log.
  all: try congruence; saved_solve.
Qed.

Lemma load_dms_body_completed env ent cocd a w a' w' new :
  load_dms_body env ent cocd a w = (Ok (Next a'), w') →
  calls w' = calls w ++ new →
  completed env CaseConversion ent cocd w new →
  checkpoint_saved CaseConversion ent w'.
Proof.
  unfold load_dms_body. intros H Hnew Hin. cbn in Hin. py_inv.
  all: new_calls Hnew; repeat not_in_log.
  all: try congruence; saved_solve.
Qed.

Lemma consolidate_body_completed env ent cocd a w a' w' new :
  consolidate_body env ent cocd a w = (Ok (Next a'), w') →
  calls w' = calls w ++ new →
  completed env Consolidation ent cocd w new →
  checkpoint_saved Consolidation ent w'.
Proof.
  unfold consolidate_body.
  intros H Hnew (Hin & f & d & rows & Hf & Hd & Hrows). py_inv.
  all: new_calls Hnew; repeat not_in_log.
  all: try congruence; saved_solve.
Qed.

Lemma generate_input_body_evaluated env ent cocd a w a' w' new :
  generate_input_body env ent cocd a w = (Ok (Next a'), w') →
  calls w' = calls w ++ new →
  completed env Evaluation ent cocd w new →
  checkpoint_saved Evaluation ent w'.
Proof.
  unfold generate_input_body. intros H Hnew Hin. cbn in Hin. py_inv.
  all: new_calls Hnew; repeat not_in_log.
  all: try congruence; saved_solve.
Qed.

Lemma generate_input_body_generated env ent cocd a w a' w' new :
  generate_input_body env ent cocd a w = (Ok (Next a'), w') →
  calls w' = calls w ++ new →
  completed env InputGeneration ent cocd w new →
  checkpoint_saved InputGeneration ent w'.
Proof.
  unfold generate_input_body. intros H Hnew Hin. cbn in Hin. py_inv.
  all: new_calls Hnew; repeat not_in_log.
  all: try congruence; saved_solve.
Qed.

Lemma clear_body_completed env ent cocd a w a' w' new :
  clear_body env ent cocd a w = (Ok (Next a'), w') →
  calls w' = calls w ++ new →
  completed env ItemClearing ent cocd w new →
  checkpoint_saved ItemClearing ent w'.
Proof.
  unfold clear_body. intros H Hnew (curr & n & Hin & Hp). py_inv.
  all: new_calls Hnew; repeat not_in_log.
  match goal with
  | Hout : ∀ out, Ok ?o = Ok out → _ |- _ =>
      destruct (Hout o eq_refl) as [_ Hposted];
      rewrite (Hposted curr n Hin Hp)
  end.
  saved_solve.
Qed.

Lemma close_disputes_body_completed env ent cocd a w a' w' new :
  close_disputes_body env ent cocd a w = (Ok (Next a'), w') →
  completed env DisputeClosing ent cocd w new →
  checkpoint_saved DisputeClosing ent w'.
Proof.
  unfold close_disputes_body. intros H (Hn & Hp & Hc). py_inv.
  all: try congruence; saved_solve.
Qed.

Lemma close_notifications_body_completed env ent cocd a w a' w' new :
  close_notifications_body env ent cocd a w = (Ok (Next a'), w') →
  completed env NotificationClosing ent cocd w new →
  checkpoint_saved NotificationClosing ent w'.
Proof.
  unfold close_notifications_body. intros H (Hn & Hp & Hc). py_inv.
  all: try congruence; saved_solve.
Qed.

Lemma stage_body_completed env s ent cocd a w a' w' new :
  stage_body env s ent cocd a w = (Ok (Next a'), w') →
  calls w' = calls w ++ new →
  completed env s ent cocd w new →
  checkpoint_saved s ent w'.
Proof.
  destruct s; cbn [stage_body];
    eauto using export_fbl5n_body_completed, load_fbl5n_body_completed,
      export_dms_body_completed, load_dms_body_completed,
      consolidate_body_completed, generate_input_body_evaluated,
      generate_input_body_generated, clear_body_completed,
      close_disputes_body_completed, close_notifications_body_completed.
Qed.

(** ** Invariants of a run *)

Definition preserves (J : World → Prop) {A} (m : Py World A) : Prop :=
  ∀ w r w', m w = (r, w') → J w → J w'.

Lemma try_except_inv {A} (m : Py World A) (h : exn → Py World A) w r w' :
  try_except m h w = (r, w') →
  (∃ a, m w = (Ok a, w') ∧ r = Ok a)
  ∨ (∃ e w1, m w = (Raise e, w1) ∧ h e w1 = (r, w')).
Proof.
  unfold try_except. destruct (m w) as [[a|e] w1]; intros H.
  - left. exists a. by injection H as <- <-.
  - right. by exists e, w1.
Qed.

Section preserves.
Context (J : World → Prop).

Lemma preserves_ret {A} (a : A) : preserves J (mret a).
Proof. by intros w r w' [= <- <-]. Qed.

Lemma preserves_throw {A} (e : exn) : preserves J (mthrow e : Py World A).
Proof. by intros w r w' [= <- <-]. Qed.

Lemma preserves_of_result {A} (x : result A) : preserves J (of_result x).
Proof. by intros w r w' [= <- <-]. Qed.

Lemma preserves_bind {A B} (m : Py World A) (f : A → Py World B) :
  preserves J m → (∀ a, preserves J (f a)) → preserves J (m ≫= f).
Proof.
  intros Hm Hf w r w' [(a & w1 & H1 & H2)|(e & H1 & ->)]%bind_inv HJ.
  - eapply Hf; [done|]. by eapply Hm.
  - by eapply Hm.
Qed.

Lemma preserves_try_except {A} (m : Py World A) (h : exn → Py World A) :
  preserves J m → (∀ e, preserves J (h e)) → preserves J (try_except m h).
Proof.
  intros Hm Hh w r w' [(a & H1 & ->)|(e & w1 & H1 & H2)]%try_except_inv HJ.
  - by eapply Hm.
  - eapply Hh; [done|]. by eapply Hm.
Qed.

Lemma preserves_mloop {X A R} (body : X → A → Py World (ctl A R))
    (xs : list X) (a : A) :
  (∀ x a, preserves J (body x a)) → preserves J (mloop body xs a).
Proof.
  intros Hf. revert a. induction xs as [|x xs IH]; intros a; cbn [mloop].
  - apply preserves_ret.
  - apply preserves_bind; [apply Hf|].
    intros [a'|r]; [apply IH | apply preserves_ret].
Qed.

End preserves.

Ltac preserves_step :=
  match goal with
  | |- preserves _ (_ ≫= _) => apply preserves_bind; [|intros ?]
  | |- preserves _ (try_except _ _) => apply preserves_try_except; [|intros ?]
  | |- preserves _ (mloop _ _ _) => apply preserves_mloop; intros ? ?
  | |- preserves _ (of_result _) => apply preserves_of_result
  | |- preserves _ (if ?b then _ else _) => destruct b
  | |- preserves _ (match ?x with _ => _ end) => destruct x
  | |- preserves _ (@mret (Py _) _ _ _) => apply preserves_ret
  | |- preserves _ (@mthrow _ (Py _) _ _ _) => apply preserves_throw
  end.

(** An invariant of the passes, of the session calls and of the reset of
    the recovery store is an invariant of the stages and of the run that
    follows the initialisation. *)
Section run_invariant.
Context (env : Env) (J : World → Prop).
Hypothesis J_body : ∀ s ent cocd a, preserves J (stage_body env s ent cocd a).
Hypothesis J_session : ∀ what, preserves J (call (SessionCall what)).
Hypothesis J_reset : preserves J reset.

Lemma export_fbl5n_body_preserves ent cocd a :
  preserves J (export_fbl5n_body env ent cocd a).
Proof. exact (J_body LedgerExport ent cocd a). Qed.

Lemma load_fbl5n_body_preserves ent cocd a :
  preserves J (load_fbl5n_body env ent cocd a).
Proof. exact (J_body LedgerConversion ent cocd a). Qed.

Lemma export_dms_body_preserves ent cocd a :
  preserves J (export_dms_body env ent cocd a).
Proof. exact (J_body CaseExport ent cocd a). Qed.

Lemma load_dms_body_preserves ent cocd a :
  preserves J (load_dms_body env ent cocd a).
Proof. exact (J_body CaseConversion ent cocd a). Qed.

Lemma consolidate_body_preserves ent cocd a :
  preserves J (consolidate_body env ent cocd a).
Proof. exact (J_body Consolidation ent cocd a). Qed.

Lemma generate_input_body_preserves ent cocd a :
  preserves J (generate_input_body env ent cocd a).
Proof. exact (J_body Evaluation ent cocd a). Qed.

Lemma clear_body_preserves ent cocd a :
  preserves J (clear_body env ent cocd a).
Proof. exact (J_body ItemClearing ent cocd a). Qed.

Lemma close_disputes_body_preserves ent cocd a :
  preserves J (close_disputes_body env ent cocd a).
Proof. exact (J_body DisputeClosing ent cocd a). Qed.

Lemma close_notifications_body_preserves ent cocd a :
  preserves J (close_notifications_body env ent cocd a).
Proof. exact (J_body NotificationClosing ent cocd a). Qed.

Ltac stage_step :=
  first
    [ preserves_step
    | apply J_session
    | apply J_reset
    | apply export_fbl5n_body_preserves
    | apply load_fbl5n_body_preserves
    | apply export_dms_body_preserves
    | apply load_dms_body_preserves
    | apply consolidate_body_preserves
    | apply generate_input_body_preserves
    | apply clear_body_preserves
    | apply close_disputes_body_preserves
    | apply close_notifications_body_preserves ].

Lemma export_fbl5n_data_preserves entits :
  preserves J (export_fbl5n_data env entits).
Proof. unfold export_fbl5n_data, loop_result. repeat stage_step. Qed.

Lemma load_fbl5n_data_preserves entits :
  preserves J (load_fbl5n_data env entits).
Proof. unfold load_fbl5n_data, loop_result. repeat stage_step. Qed.

Lemma export_dms_data_preserves entits :
  preserves J (export_dms_data env entits).
Proof. unfold export_dms_data. repeat stage_step. Qed.

Lemma load_dms_data_preserves entits :
  preserves J (load_dms_data env entits).
Proof. unfold load_dms_data, loop_result. repeat stage_step. Qed.

Lemma consolidate_data_preserves entits :
  preserves J (consolidate_data env entits).
Proof. unfold consolidate_data, loop_result. repeat stage_step. Qed.

Lemma generate_clearing_input_preserves entits :
  preserves J (generate_clearing_input env entits).
Proof. unfold generate_clearing_input, loop_result. repeat stage_step. Qed.

Lemma clear_open_items_preserves entits :
  preserves J (clear_open_items env entits).
Proof. unfold clear_open_items, loop_result. repeat stage_step. Qed.

Lemma close_disputes_preserves entits :
  preserves J (close_disputes env entits).
Proof. unfold close_disputes. repeat stage_step. Qed.

Lemma close_notifications_preserves entits :
  preserves J (close_notifications env entits).
Proof. unfold close_notifications. repeat stage_step. Qed.

Lemma report_output_preserves : preserves J (report_output env).
Proof. unfold report_output. repeat stage_step. Qed.

Lemma disconnect_from_sap_preserves : preserves J disconnect_from_sap.
Proof. apply J_session. Qed.

(** The stages after the conversion of the ledger data, as [main] runs
    them. *)
Definition after_conversion (entits : list (string * string)) (ok : bool)
  : Py World Z :=
  if negb ok then disconnect_from_sap;; mret 5
  else
    ok ← export_dms_data env entits;
    if negb (ok : bool) then disconnect_from_sap;; mret 6
    else
      ok ← load_dms_data env entits;
      if negb (ok : bool) then disconnect_from_sap;; mret 7
      else
        ok ← consolidate_data env entits;
        if negb (ok : bool) then disconnect_from_sap;; mret 8
        else
          exist_matches ← generate_clearing_input env entits;
          code ← (if (exist_matches : bool) then
                    ok ← clear_open_items env entits;
                    if negb (ok : bool) then
                      disconnect_from_sap;; mret 9
                    else
                      close_disputes env entits;;
                      ok ← close_notifications env entits;
                      if negb (ok : bool) then
                        disconnect_from_sap;; mret 10
                      else mret 0
                  else mret 0);
          if negb (code =? 0)%Z then mret code
          else
            ok ← report_output env;
            if negb (ok : bool) then disconnect_from_sap;; mret 11
            else
              disconnect_from_sap;;
              reset;;
              mret 0.

Ltac run_step :=
  first
    [ apply export_fbl5n_data_preserves
    | apply load_fbl5n_data_preserves
    | apply export_dms_data_preserves
    | apply load_dms_data_preserves
    | apply consolidate_data_preserves
    | apply generate_clearing_input_preserves
    | apply clear_open_items_preserves
    | apply close_disputes_preserves
    | apply close_notifications_preserves
    | apply report_output_preserves
    | apply disconnect_from_sap_preserves
    | apply J_session
    | apply J_reset
    | preserves_step ].

Lemma after_conversion_preserves entits ok :
  preserves J (after_conversion entits ok).
Proof. unfold after_conversion. repeat run_step. Qed.

(** The run after the initialisation of the recovery store. *)
Definition after_initialize (entits : list (string * string)) : Py World Z :=
  call (SessionCall "sap.login");;
  exported ← try_except (export_fbl5n_data env entits;; mret true)
                (λ _, mret false);
  if negb (exported : bool) then disconnect_from_sap;; mret 4
  else ok ← load_fbl5n_data env entits; after_conversion entits ok.

Lemma after_initialize_preserves entits :
  preserves J (after_initialize entits).
Proof.
  unfold after_initialize.
  repeat first [apply after_conversion_preserves | run_step].
Qed.

Lemma main_unfold entits :
  entits ≠ [] →
  main env entits = (initialize_recovery entits.*1;; after_initialize entits).
Proof.
  intros H. unfold main. by rewrite bool_decide_eq_false_2.
Qed.

End run_invariant.

(** ** Replay of a run from the recovery file *)

(** Since the log was [calls0], the entity's ledger export was not
    called, and its checkpoint is not false. *)
Definition not_exported_again (ent : string) (calls0 : list Call) (w : World)
  : Prop :=
  get_state w ent "fbl5n_data_exported" ≠ Some false
  ∧ ∃ new, calls w = calls0 ++ new ∧ Fbl5nExport ent ∉ new.

(** Since the log was [calls0], the call was made. *)
Definition called_since (c : Call) (calls0 : list Call) (w : World) : Prop :=
  ∃ new, calls w = calls0 ++ new ∧ c ∈ new.

(** The ledger data of the entity are exported and not yet converted. *)
Definition to_convert (ent : string) (w : World) : Prop :=
  get_state w ent "fbl5n_data_exported" = Some true
  ∧ get_state w ent "fbl5n_data_converted" = Some false.

Lemma reset_inv w r w' :
  reset w = (r, w') →
  r = Ok tt ∧ calls w' = calls w ∧ ∀ e k, get_state w' e k = None.
Proof. by intros [= <- <-]. Qed.

Lemma not_exported_again_body env ent calls0 s e c a :
  preserves (not_exported_again ent calls0) (stage_body env s e c a).
Proof.
  intros w r w' ((new & Hcalls & Hgated) & _ & Hkept & _)%stage_body_frame
    (Hne & n0 & Hn0 & Hnotin).
  split; [by apply Hkept|].
  exists (n0 ++ new). rewrite Hcalls, Hn0, app_assoc. split; [done|].
  intros [Hin|Hin]%elem_of_app; [done|].
  by apply Hne, (Hgated _ LedgerExport ent Hin).
Qed.

Lemma not_exported_again_session ent calls0 what :
  preserves (not_exported_again ent calls0) (call (SessionCall what)).
Proof.
  intros w r w' [_ ->]%call_inv (Hne & n0 & Hn0 & Hnotin).
  split; [by world_simpl|].
  exists (n0 ++ [SessionCall what]). world_simpl.
  rewrite Hn0, app_assoc. split; [done|].
  intros [Hin|Hin]%elem_of_app; [done|].
  by apply list_elem_of_singleton in Hin.
Qed.

Lemma not_exported_again_reset ent calls0 :
  preserves (not_exported_again ent calls0) reset.
Proof.
  intros w r w' (_ & Hcalls & Hnone)%reset_inv (Hne & n0 & Hn0 & Hnotin).
  split; [by rewrite Hnone|]. exists n0. by rewrite Hcalls.
Qed.

Lemma called_since_grows c calls0 w w' new :
  calls w' = calls w ++ new → called_since c calls0 w → called_since c calls0 w'.
Proof.
  intros Hcalls (n0 & Hn0 & Hin). exists (n0 ++ new).
  rewrite Hcalls, Hn0, app_assoc. split; [done|].
  apply elem_of_app. by left.
Qed.

Lemma called_since_body env c0 calls0 s e c a :
  preserves (called_since c0 calls0) (stage_body env s e c a).
Proof.
  intros w r w' ((new & Hcalls & _) & _)%stage_body_frame.
  by apply called_since_grows with new.
Qed.

Lemma called_since_session c0 calls0 what :
  preserves (called_since c0 calls0) (call (SessionCall what)).
Proof.
  intros w r w' [_ ->]%call_inv.
  apply called_since_grows with [SessionCall what]. by world_simpl.
Qed.

Lemma called_since_reset c0 calls0 : preserves (called_since c0 calls0) reset.
Proof.
  intros w r w' (_ & Hcalls & _)%reset_inv.
  apply called_since_grows with []. by rewrite app_nil_r.
Qed.

(** A pass of the export over an entity whose data are exported does
    nothing. *)
Lemma export_fbl5n_body_skips env ent cocd a w :
  get_state w ent "fbl5n_data_exported" = Some true →
  export_fbl5n_body env ent cocd a w = (Ok (Next true), w).
Proof.
  intros H. unfold export_fbl5n_body.
  by rewrite (bind_ok _ _ _ _ _ (get_entity_state_ok _ _ _ _ H)).
Qed.

Lemma to_convert_export_body env ent e c a :
  preserves (to_convert ent) (export_fbl5n_body env e c a).
Proof.
  intros w r w' H [Hex Hconv]. destruct (decide (e = ent)) as [->|He].
  - rewrite export_fbl5n_body_skips in H by done. by injection H as <- <-.
  - apply export_fbl5n_body_frame in H as (_ & _ & _ & Hloc).
    unfold to_convert. by rewrite !Hloc.
Qed.

Lemma to_convert_export env ent entits :
  preserves (to_convert ent) (export_fbl5n_data env entits).
Proof.
  unfold export_fbl5n_data, loop_result.
  repeat first [preserves_step | apply to_convert_export_body].
Qed.

(** A pass of the conversion never leaves the function. *)
Lemma load_fbl5n_body_next env ent cocd a w c w' :
  load_fbl5n_body env ent cocd a w = (Ok c, w') → ∃ a', c = Next a'.
Proof. unfold load_fbl5n_body. intros H. py_inv; eauto. Qed.

(** The pass over an entity whose data are exported and not converted
    calls the conversion. *)
Lemma load_fbl5n_body_converts env ent cocd a w r w' :
  to_convert ent w →
  load_fbl5n_body env ent cocd a w = (r, w') →
  ∃ new, calls w' = calls w ++ new ∧ Fbl5nPreprocess ent ∈ new.
Proof.
  intros [Hex Hconv]. unfold load_fbl5n_body. intros H. py_inv.
  all: try congruence.
  all: world_simpl; rewrite <- ?app_assoc; eexists; (split; [reflexivity|]).
  all: set_solver.
Qed.

Lemma load_fbl5n_loop_converts env ent cocd entits a w c w' :
  to_convert ent w → (ent, cocd) ∈ entits →
  mloop (λ p, load_fbl5n_body env p.1 p.2) entits a w = (Ok c, w') →
  called_since (Fbl5nPreprocess ent) (calls w) w'.
Proof.
  revert a w. induction entits as [|[e c'] entits IH]; intros a w Hto Hin.
  { by apply elem_of_nil in Hin. }
  cbn [mloop fst snd].
  intros [(c1 & w1 & H1 & H2)|(? & _ & [=])]%bind_inv.
  destruct (load_fbl5n_body_next _ _ _ _ _ _ _ H1) as [a' ->].
  destruct (decide (e = ent)) as [->|He].
  - apply load_fbl5n_body_converts in H1 as (new & Hcalls & Hnew); [|done].
    eapply (preserves_mloop (called_since (Fbl5nPreprocess ent) (calls w)));
      [|exact H2|by exists new].
    intros x a0. exact (called_since_body env _ _ LedgerConversion x.1 x.2 a0).
  - apply elem_of_cons in Hin as [[= ? ?]|Hin]; [done|].
    pose proof H1 as ((new & Hcalls & _) & _ & _ & Hloc)%load_fbl5n_body_frame.
    assert (to_convert ent w1) as Hto1.
    { destruct Hto. unfold to_convert. by rewrite !Hloc. }
    destruct (IH _ _ Hto1 Hin H2) as (n2 & Hn2 & Hin2).
    exists (new ++ n2). rewrite Hn2, Hcalls, app_assoc. split; [done|].
    apply elem_of_app. by right.
Qed.

Lemma load_fbl5n_data_converts env ent cocd entits w ok w' :
  to_convert ent w → (ent, cocd) ∈ entits →
  load_fbl5n_data env entits w = (Ok ok, w') →
  called_since (Fbl5nPreprocess ent) (calls w) w'.
Proof.
  intros Hto Hin. unfold load_fbl5n_data, loop_result.
  intros [(c & w1 & H1 & H2)|(? & _ & [=])]%bind_inv.
  apply (load_fbl5n_loop_converts _ _ _ _ _ _ _ _ Hto Hin) in H1.
  destruct c; by injection H2 as <- <-.
Qed.

(** The initialisation of a run whose recovery file holds states: the
    table in memory is the table of the file. *)
Lemma initialize_recovery_replay entits w ent key b :
  persisted w ent key = Some b →
  ∃ w1, initialize_recovery entits w = (Ok tt, w1)
        ∧ calls w1 = calls w
        ∧ ∀ e k, get_state w1 e k = persisted w e k.
Proof.
  unfold persisted.
  destruct (rec_file w) as [saved|] eqn:Hfile; cbn; [|done].
  destruct (saved !! ent) as [st|] eqn:Hent; cbn; [|done]. intros _.
  assert (saved ≠ ∅) as Hne.
  { intros ->. by rewrite lookup_empty in Hent. }
  unfold initialize_recovery, initialize, mbind, Py_bind.
  rewrite Hfile. rewrite (bool_decide_eq_false_2 (Some saved = None)) by done.
  cbn. rewrite !Hfile. cbn. rewrite bool_decide_eq_true_2 by done.
  eexists. split; [reflexivity|]. split; [done|].
  intros e k. by unfold get_state.
Qed.

Lemma to_convert_session ent what :
  preserves (to_convert ent) (call (SessionCall what)).
Proof. intros w r w' [_ ->]%call_inv. unfold to_convert. by world_simpl. Qed.

Lemma called_since_weaken c calls0 n w :
  called_since c (calls0 ++ n) w → called_since c calls0 w.
Proof.
  intros (new & Hcalls & Hin). exists (n ++ new).
  rewrite Hcalls, app_assoc. split; [done|]. apply elem_of_app. by right.
Qed.

(** A run that starts from a recovery file in which the ledger data of
    an entity are exported and not converted: the export is not called
    for the entity, and when the run gets past the conversion stage the
    conversion was called for it. *)
Lemma main_replay env entits ent cocd w r w' :
  persisted w ent "fbl5n_data_exported" = Some true →
  persisted w ent "fbl5n_data_converted" = Some false →
  main env entits w = (r, w') →
  ∃ new, calls w' = calls w ++ new
    ∧ (Fbl5nExport ent ∉ new)
    ∧ ((ent, cocd) ∈ entits → ∀ code, r = Ok code → code ≠ 4 →
         Fbl5nPreprocess ent ∈ new).
Proof.
  intros Hex Hconv Hmain.
  destruct (decide (entits = [])) as [->|Hne].
  { unfold main in Hmain. rewrite bool_decide_eq_true_2 in Hmain by done.
    injection Hmain as <- <-. exists []. rewrite app_nil_r.
    split; [done|]. split; [by intros ?%elem_of_nil|].
    by intros ?%elem_of_nil. }
  rewrite main_unfold in Hmain by done.
  destruct (initialize_recovery_replay entits.*1 _ _ _ _ Hex)
    as (w1 & Hinit & Hcalls1 & Hstates).
  rewrite (bind_ok _ _ _ _ _ Hinit) in Hmain.
  assert (not_exported_again ent (calls w) w1) as HJ1.
  { split; [by rewrite Hstates, Hex|]. exists []. rewrite app_nil_r.
    split; [done|]. by intros ?%elem_of_nil. }
  assert (to_convert ent w1) as Hto1.
  { split; by rewrite Hstates. }
  pose proof (after_initialize_preserves env _
                (not_exported_again_body env ent (calls w))
                (not_exported_again_session ent (calls w))
                (not_exported_again_reset ent (calls w))
                entits _ _ _ Hmain HJ1) as (_ & new & Hnew & Hnotin).
  exists new. split; [done|]. split; [done|].
  intros Hin code -> Hcode.
  unfold after_initialize in Hmain.
  apply bind_inv in Hmain as [(? & w2 & Hlogin & Hmain)|(? & _ & [=])].
  apply bind_inv in Hmain as [(exported & w3 & Hexport & Hmain)|(? & _ & [=])].
  destruct exported; cbn [negb] in Hmain.
  2:{ apply bind_inv in Hmain as [(? & w4 & _ & Hmain)|(? & _ & [=])].
      by apply ret_inv in Hmain as [[= ->] _]. }
  apply try_except_inv in Hexport as [(? & Hexport & _)|(? & ? & _ & [=])].
  apply bind_inv in Hexport as [(b & w3' & Hexport & [_ ->]%ret_inv)|(? & _ & [=])].
  apply bind_inv in Hmain as [(ok & w4 & Hload & Hmain)|(? & _ & [=])].
  pose proof (to_convert_session ent _ _ _ _ Hlogin Hto1) as Hto2.
  pose proof (to_convert_export env ent entits _ _ _ Hexport Hto2) as Hto3.
  pose proof (load_fbl5n_data_converts _ _ _ _ _ _ _ Hto3 Hin Hload) as Hc4.
  pose proof (not_exported_again_session ent (calls w) _ _ _ _ Hlogin HJ1)
    as HJ2.
  pose proof (export_fbl5n_data_preserves env _
                (not_exported_again_body env ent (calls w))
                entits _ _ _ Hexport HJ2) as (_ & n3 & Hn3 & _).
  rewrite Hn3 in Hc4. apply called_since_weaken in Hc4.
  pose proof (after_conversion_preserves env _
                (called_since_body env (Fbl5nPreprocess ent) (calls w))
                (called_since_session (Fbl5nPreprocess ent) (calls w))
                (called_since_reset (Fbl5nPreprocess ent) (calls w))
                entits ok _ _ _ Hmain Hc4) as (new' & Hnew' & Hin').
  rewrite Hnew in Hnew'. by apply app_inv_head in Hnew' as ->.
Qed.

(** ** Stages that find no work *)

(** The clearing of a currency whose records are all excluded makes no
    call and posts nothing. *)
Lemma clear_currency_skipped env ent cocd acc cp w :
  clr_records_of (records cp.2) = [] →
  clear_currency env ent cocd acc cp w
  = (Ok (acc.1 ++ [(cp.1, set_records (mark_skipped (records cp.2)) cp.2)],
         acc.2), w).
Proof.
  intros H. unfold clear_currency. by rewrite bool_decide_eq_true_2.
Qed.

Lemma clear_loop_all_skipped env ent cocd input acc w :
  Forall (λ cp, clr_records_of (records cp.2) = []) input →
  mfoldl (clear_currency env ent cocd) acc input w
  = (Ok (acc.1 ++ map (λ cp, (cp.1, set_records (mark_skipped (records cp.2))
                                      cp.2)) input, acc.2), w).
Proof.
  intros Hall. revert acc. induction Hall as [|cp input Hcp _ IH]; intros acc.
  - cbn. rewrite app_nil_r. by destruct acc.
  - cbn [mfoldl map].
    rewrite (bind_ok _ _ _ _ _ (clear_currency_skipped _ _ _ _ _ _ Hcp)).
    rewrite IH. cbn [fst snd]. by rewrite <- app_assoc.
Qed.

(** C9 (as the code has it). The two stages that the claim names do not
    set their checkpoint when they find no work. The pass of the ledger
    export over an entity for which no open items are found makes the
    export call, changes nothing else and is no error, so
    [fbl5n_data_exported] stays false; the conversion that follows
    records [None] for the entity in the accumulator and changes nothing
    else. The pass of the clearing over an entity whose clearing input
    is [None] records [None] as its output in the accumulator, counts as
    a success and changes nothing else, so [f30_items_cleared] stays as
    it was. The pass of the clearing over an entity in whose clearing
    input every record is excluded makes no call, saves
    [f30_items_cleared] as false, in memory and in the recovery file, and
    stores the input with the warnings of the excluded records as the
    output, in the accumulator and in the dump file; it leaves the
    result of the stage as it was. *)
Theorem no_work_leaves_checkpoint (env : Env) (ent cocd : string)
    (success : bool) (w : World) :
  (get_state w ent "fbl5n_data_exported" = Some false →
   entity_type env cocd ent = "worklist"
   ∨ entity_type env cocd ent = "company_code" →
   fbl5n_export env ent = Fbl5nNoDataFound →
   export_fbl5n_body env ent cocd success w
   = (Ok (Next success), add_calls [Fbl5nExport ent] w))
  ∧ (get_state w ent "fbl5n_data_exported" = Some false →
     is_Some (accum w !! "fbl5n_data") →
     accum_at w "fbl5n_data" ent = None →
     load_fbl5n_body env ent cocd success w
     = (Ok (Next success), put_accum ent "fbl5n_data" PyNone w))
  ∧ (accum_at w "clearing_input" ent = Some PyNone →
     is_Some (accum w !! "clearing_output") →
     accum_at w "clearing_output" ent = None →
     clear_body env ent cocd success w
     = (Ok (Next true), put_accum ent "clearing_output" PyNone w))
  ∧ (∀ input,
       accum_at w "clearing_input" ent = Some (Clearing input) →
       get_state w ent "f30_items_cleared" = Some false →
       Forall (λ cp, clr_records_of (records cp.2) = []) input →
       is_Some (accum w !! "clearing_output") →
       accum_at w "clearing_output" ent = None →
       let output :=
         map (λ cp, (cp.1, set_records (mark_skipped (records cp.2)) cp.2))
           input in
       ∃ w', clear_body env ent cocd success w = (Ok (Next success), w')
         ∧ calls w' = calls w
         ∧ get_state w' ent "f30_items_cleared" = Some false
         ∧ persisted w' ent "f30_items_cleared" = Some false
         ∧ (∀ e k, (e, k) ≠ (ent, "f30_items_cleared") →
              get_state w' e k = get_state w e k)
         ∧ accum_at w' "clearing_output" ent = Some (Clearing output)
         ∧ dump w' !! ("clearing_output", ent) = Some (Clearing output)).
Proof.
  repeat split.
  - intros Hstate Htype Hexp. unfold export_fbl5n_body.
    rewrite (bind_ok _ _ _ _ _ (get_entity_state_ok _ _ _ _ Hstate)).
    assert (bool_decide (entity_type env cocd ent = "worklist")
            || bool_decide (entity_type env cocd ent = "company_code") = true)
      as ->.
    { apply orb_true_iff.
      destruct Htype; [left|right]; by apply bool_decide_eq_true_2. }
    unfold mbind, Py_bind, mret, Py_ret, call. by rewrite Hexp.
  - intros Hstate Hkind Hfresh. unfold load_fbl5n_body.
    rewrite (bind_ok _ _ _ _ _ (get_entity_state_ok _ _ _ _ Hstate)).
    cbn [negb].
    by rewrite (bind_ok _ _ _ _ _ (store_to_accum_fresh _ _ _ _ _ Hkind Hfresh)).
  - intros Hinput Hkind Hfresh. unfold clear_body.
    rewrite (bind_ok _ _ _ _ _ (get_from_accum_ok _ _ _ _ Hinput)).
    cbn [is_None].
    by rewrite (bind_ok _ _ _ _ _ (store_to_accum_fresh _ _ _ _ _ Hkind Hfresh)).
  - intros input Hinput Hstate Hall Hkind Hfresh. cbv zeta.
    set (output := map (λ cp, (cp.1, set_records (mark_skipped (records cp.2))
                                       cp.2)) input).
    exists (put_file "clearing_output" ent (Clearing output)
              (put_accum ent "clearing_output" (Clearing output)
                 (put_state ent "f30_items_cleared" false w))).
    split.
    { unfold clear_body.
      rewrite (bind_ok _ _ _ _ _ (get_from_accum_ok _ _ _ _ Hinput)).
      cbn [is_None].
      rewrite (bind_ok _ _ _ _ _ (get_entity_state_ok _ _ _ _ Hstate)).
      rewrite (bind_ok _ _ _ _ _ (clear_loop_all_skipped _ _ _ _ _ _ Hall)).
      cbn [fst snd app].
      rewrite (bind_ok _ _ _ _ _ (save_entity_state_ok _ _ _ _
                                    (mk_is_Some _ _ Hstate))).
      rewrite (bind_ok _ _ _ _ _
                 (store_to_accum_fresh ent "clearing_output" _ false
                    (put_state ent "f30_items_cleared" false w) Hkind Hfresh)).
      unfold mbind, Py_bind, store_to_file, mret, Py_ret.
      by rewrite orb_false_r. }
    split; [done|].
    split; [by rewrite get_state_put_file, get_state_put_accum,
              get_state_put_state|].
    split; [by rewrite persisted_put_file, persisted_put_accum,
              persisted_put_state, get_state_put_state|].
    split.
    { intros e k Hne. rewrite get_state_put_file, get_state_put_accum.
      destruct (decide (e = ent)) as [->|He].
      - apply get_state_put_state_key. congruence.
      - by apply get_state_put_state_ent. }
    split.
    { unfold accum_at, put_file, put_accum. cbn. destruct Hkind as [m Hm].
      rewrite lookup_insert_eq. cbn. by rewrite lookup_insert_eq. }
    unfold put_file. cbn. by rewrite lookup_insert_eq.
Qed.

(** *** A sample pipeline *)

Definition ledger_item (doc : Z) (amt : float) (id : option Z) : Item :=
  mkItem doc "" "DZ" "" "" amt "EUR" "A1" "" 1 (HO_num 1) false false false
    "" None id.

Definition dispute (id : Z) : Case :=
  mkCase 1 id 300 "" "" 1 "" "" "" "" "L01" "" "" "001".

Definition clearing_record (skipped : bool) : ClearingRecord :=
  mkClearingRecord skipped "" [7] "EUR" "7" 1 "A1" "L01" "NA" "NA" "NA" 0 4001
    "" "" None.

Definition currency_input (skipped : bool) : list (string * CurrencyParams) :=
  [("EUR", mkCurrencyParams [(7, clearing_record skipped)] "" [] [7] None
             false 2)].

(** Entities of one company code with two open items on one case each;
    the export of the ledger data and the customer data are given. *)
Definition sample_env (export : string → Fbl5nOutcome)
    (customers : option (list Customer)) : Env :=
  mkEnv (λ _ _, "company_code") (λ _ _, []) (λ _ _, []) (λ _ _, ["A1"])
    (λ _, 1%float) (λ _, ∅) sequential_sum (λ _, customers) export
    (λ _, Ok [ledger_item 1 100 (Some 7); ledger_item 2 (-100) (Some 7)])
    (λ _ _, DmsFound) (λ _, true) (λ _, Ok [dispute 7])
    (λ _ _ _, Ok (currency_input false))
    (λ _ _, true) (λ _ _, Ok true) (λ _ _, Posted 555)
    (λ _ _, Ok tt) (λ _ _, CaseClosed) (λ _ _, QmTasks) (λ _ _, true)
    (Ok true) true.

(** The export of [E2] finds no open items. *)
Definition no_items_E2 (ent : string) : Fbl5nOutcome :=
  if decide (ent = "E2") then Fbl5nNoDataFound else Fbl5nExported.

Definition sample_entities : list (string * string) :=
  [("E1", "C1"); ("E2", "C1")].

(** The state at the start of the first stage of a first run. *)
Definition fresh_world : World :=
  mkWorld (default_states ["E1"; "E2"]) (Some (default_states ["E1"; "E2"]))
    empty_accum ∅ [].

(** A first run: every stage works for [E1]; the export finds nothing
    for [E2] and no later stage works for it. *)
Example first_run :
  (main (sample_env no_items_E2 None) sample_entities
     (mkWorld ∅ None empty_accum ∅ [])).1 = Ok 0
  ∧ calls (main (sample_env no_items_E2 None) sample_entities
             (mkWorld ∅ None empty_accum ∅ [])).2
    = [SessionCall "sap.login"; Fbl5nExport "E1"; Fbl5nExport "E2";
       Fbl5nPreprocess "E1"; SessionCall "dms.start";
       DmsSearchDisputes "E1"; DmsExport "E1"; SessionCall "dms.close";
       DmsPreprocess "E1"; Consolidate "E1"; EvaluateItems "E1";
       CreateClearingInput "E1"; SessionCall "f30.start";
       F30LoadItems "E1" "EUR"; F30SelectAndTransfer "E1" "EUR";
       F30PostItems "E1" "EUR"; SessionCall "f30.close";
       SessionCall "dms.start"; DmsModifyCase "E1" 7;
       SessionCall "dms.close"; SessionCall "qm02.start";
       QmSearchNotification "E1" 4001; QmCompleteNotification "E1" 4001;
       SessionCall "qm02.close"; SessionCall "report";
       SessionCall "sap.logout"].
Proof. split; by vm_compute. Qed.

(** The accumulator after the generation stage has recorded that [E2]
    has nothing to clear. *)
Definition nothing_to_clear_world : World :=
  put_accum "E2" "clearing_input" PyNone fresh_world.

(** The accumulator holds a clearing input for [E1] in which the only
    record is excluded. *)
Definition all_skipped_world : World :=
  put_accum "E1" "clearing_input" (Clearing (currency_input true)) fresh_world.

Lemma no_work_leaves_checkpoint_witness :
  export_fbl5n_body (sample_env no_items_E2 None) "E2" "C1" false fresh_world
  = (Ok (Next false), add_calls [Fbl5nExport "E2"] fresh_world)
  ∧ load_fbl5n_body (sample_env no_items_E2 None) "E2" "C1" false fresh_world
    = (Ok (Next false), put_accum "E2" "fbl5n_data" PyNone fresh_world)
  ∧ clear_body (sample_env no_items_E2 None) "E2" "C1" false
      nothing_to_clear_world
    = (Ok (Next true),
       put_accum "E2" "clearing_output" PyNone nothing_to_clear_world)
  ∧ ∃ w',
      clear_body (sample_env no_items_E2 None) "E1" "C1" false
        all_skipped_world = (Ok (Next false), w')
      ∧ calls w' = calls all_skipped_world
      ∧ get_state w' "E1" "f30_items_cleared" = Some false
      ∧ persisted w' "E1" "f30_items_cleared" = Some false
      ∧ (∀ e k, (e, k) ≠ ("E1", "f30_items_cleared") →
           get_state w' e k = get_state all_skipped_world e k)
      ∧ accum_at w' "clearing_output" "E1"
        = Some (Clearing
                  (map (λ cp, (cp.1, set_records (mark_skipped (records cp.2))
                                       cp.2)) (currency_input true)))
      ∧ dump w' !! ("clearing_output", "E1")
        = Some (Clearing
                  (map (λ cp, (cp.1, set_records (mark_skipped (records cp.2))
                                       cp.2)) (currency_input true))).
Proof.
  split; [|split; [|split]].
  - apply (no_work_leaves_checkpoint (sample_env no_items_E2 None) "E2" "C1"
             false fresh_world);
      [by vm_compute | by right | reflexivity].
  - apply (no_work_leaves_checkpoint (sample_env no_items_E2 None) "E2" "C1"
             false fresh_world);
      [by vm_compute | by eexists | by vm_compute].
  - apply (no_work_leaves_checkpoint (sample_env no_items_E2 None) "E2" "C1"
             false nothing_to_clear_world);
      [by vm_compute | by eexists | by vm_compute].
  - apply (no_work_leaves_checkpoint (sample_env no_items_E2 None)
             "E1" "C1" false all_skipped_world);
      [by vm_compute | by vm_compute | by repeat constructor | by eexists
      | by vm_compute].
Defined.

(** C9 (counterexample to the claim as stated). The export stage runs
    for [E2] and finds no open items: the checkpoint of the stage is
    false after the pass, in memory and in the recovery file. The
    clearing stage runs for [E2] and finds nothing to clear: its
    checkpoint is false after the pass. *)
Lemma no_work_checkpoint_stays_false :
  fbl5n_export (sample_env no_items_E2 None) "E2" = Fbl5nNoDataFound
  ∧ calls (export_fbl5n_body (sample_env no_items_E2 None) "E2" "C1" false
             fresh_world).2 = [Fbl5nExport "E2"]
  ∧ get_state (export_fbl5n_body (sample_env no_items_E2 None) "E2" "C1" false
                 fresh_world).2 "E2" "fbl5n_data_exported" = Some false
  ∧ persisted (export_fbl5n_body (sample_env no_items_E2 None) "E2" "C1" false
                 fresh_world).2 "E2" "fbl5n_data_exported" = Some false
  ∧ (clear_body (sample_env no_items_E2 None) "E2" "C1" false
       nothing_to_clear_world).1 = Ok (Next true)
  ∧ get_state (clear_body (sample_env no_items_E2 None) "E2" "C1" false
                 nothing_to_clear_world).2 "E2" "f30_items_cleared"
    = Some false
  ∧ persisted (clear_body (sample_env no_items_E2 None) "E2" "C1" false
                 nothing_to_clear_world).2 "E2" "f30_items_cleared"
    = Some false.
Proof. repeat split; by vm_compute. Qed.

(** ** Failures of the consolidation *)

Definition unmerged : exn :=
  AssertionError "Data unmerged! Check the correctness of the megring key!".

(** The pass of the consolidation over an entity whose data are in the
    accumulator calls [consolidate]. *)
Lemma consolidate_body_run env ent cocd success w f d :
  get_state w ent "dms_data_exported" = Some true →
  get_state w ent "data_consolidated" = Some false →
  accum_at w "fbl5n_data" ent = Some (Items f) →
  accum_at w "dms_data" ent = Some (Cases d) →
  consolidate_body env ent cocd success w
  = (match consolidate (case_findall env cocd) (case_findall_ints env cocd)
             f d (customer_data env cocd) (valid_taxes env cocd ent) with
     | Ok None => mret (Next success)
     | Ok (Some rows) =>
         store_to_file "consolidated_data" ent (Rows rows);;
         store_to_accum ent "consolidated_data" (Rows rows) true;;
         save_entity_state ent "data_consolidated" true;;
         mret (Next true)
     | Raise e => mthrow e
     end) (add_calls [Consolidate ent] w).
Proof.
  intros Hexp Hcons Hf Hd. unfold consolidate_body.
  rewrite (bind_ok _ _ _ _ _ (get_entity_state_ok _ _ _ _ Hexp)). cbn [negb].
  rewrite (bind_ok _ _ _ _ _ (get_entity_state_ok _ _ _ _ Hcons)).
  rewrite (bind_ok _ _ _ _ _ (get_from_accum_ok _ _ _ _ Hf)).
  rewrite (bind_ok _ _ _ _ _ (get_from_accum_ok _ _ _ _ Hd)).
  unfold mbind at 1, Py_bind at 1, call. unfold mbind at 1, Py_bind at 1.
  unfold of_result.
  by destruct (consolidate _ _ _ _ _ _) as [[rows|]|e].
Qed.

Lemma accum_at_put_accum_ne ent key d w key' e :
  key' ≠ key → accum_at (put_accum ent key d w) key' e = accum_at w key' e.
Proof.
  intros H. unfold accum_at, put_accum. cbn. by rewrite lookup_insert_ne.
Qed.

Lemma is_Some_put_accum_ne ent key d w key' :
  key' ≠ key →
  is_Some (accum (put_accum ent key d w) !! key') ↔ is_Some (accum w !! key').
Proof.
  intros H. unfold put_accum. cbn. by rewrite lookup_insert_ne.
Qed.

(** A pass of the generation stage over an entity whose data are not
    consolidated records that there is nothing to evaluate or clear. *)
Lemma generate_input_body_skips env ent cocd exist_matches w :
  get_state w ent "data_consolidated" = Some false →
  is_Some (accum w !! "clearing_input") →
  is_Some (accum w !! "analyzed_data") →
  is_Some (accum w !! "matched_data") →
  accum_at w "clearing_input" ent = None →
  accum_at w "analyzed_data" ent = None →
  accum_at w "matched_data" ent = None →
  generate_input_body env ent cocd exist_matches w
  = (Ok (Next exist_matches),
     put_accum ent "matched_data" PyNone
       (put_accum ent "analyzed_data" PyNone
          (put_accum ent "clearing_input" PyNone w))).
Proof.
  intros Hcons Hk1 Hk2 Hk3 Hf1 Hf2 Hf3. unfold generate_input_body.
  rewrite (bind_ok _ _ _ _ _ (get_entity_state_ok _ _ _ _ Hcons)). cbn [negb].
  rewrite (bind_ok _ _ _ _ _ (store_to_accum_fresh _ _ _ _ _ Hk1 Hf1)).
  set (w1 := put_accum ent "clearing_input" PyNone w).
  assert (is_Some (accum w1 !! "analyzed_data")) as Hk2'.
  { by apply is_Some_put_accum_ne. }
  assert (accum_at w1 "analyzed_data" ent = None) as Hf2'.
  { unfold w1. by rewrite accum_at_put_accum_ne. }
  rewrite (bind_ok _ _ _ _ _ (store_to_accum_fresh _ _ _ _ _ Hk2' Hf2')).
  set (w2 := put_accum ent "analyzed_data" PyNone w1).
  assert (is_Some (accum w2 !! "matched_data")) as Hk3'.
  { apply is_Some_put_accum_ne; [done|]. by apply is_Some_put_accum_ne. }
  assert (accum_at w2 "matched_data" ent = None) as Hf3'.
  { unfold w2, w1. by rewrite !accum_at_put_accum_ne. }
  by rewrite (bind_ok _ _ _ _ _ (store_to_accum_fresh _ _ _ _ _ Hk3' Hf3')).
Qed.

(** The run from the consolidation on: what [main] does with the result
    of [consolidate_data]. *)
Definition after_consolidation (env : Env) (entits : list (string * string))
    (ok : bool) : Py World Z :=
  if negb ok then disconnect_from_sap;; mret 8
  else
    exist_matches ← generate_clearing_input env entits;
    code ← (if (exist_matches : bool) then
              ok ← clear_open_items env entits;
              if negb (ok : bool) then
                disconnect_from_sap;; mret 9
              else
                close_disputes env entits;;
                ok ← close_notifications env entits;
                if negb (ok : bool) then
                  disconnect_from_sap;; mret 10
                else mret 0
            else mret 0);
    if negb (code =? 0)%Z then mret code
    else
      ok ← report_output env;
      if negb (ok : bool) then disconnect_from_sap;; mret 11
      else
        disconnect_from_sap;;
        reset;;
        mret 0.

(** [main] calls [consolidate_data] outside of any [try]. *)
Lemma main_consolidation env entits :
  entits ≠ [] →
  main env entits
  = (initialize_recovery entits.*1;;
     call (SessionCall "sap.login");;
     exported ← try_except (export_fbl5n_data env entits;; mret true)
                   (λ _, mret false);
     if negb (exported : bool) then disconnect_from_sap;; mret 4
     else
       ok ← load_fbl5n_data env entits;
       if negb (ok : bool) then disconnect_from_sap;; mret 5
       else
         ok ← export_dms_data env entits;
         if negb (ok : bool) then disconnect_from_sap;; mret 6
         else
           ok ← load_dms_data env entits;
           if negb (ok : bool) then disconnect_from_sap;; mret 7
           else consolidate_data env entits
                  ≫= after_consolidation env entits).
Proof. intros H. unfold main. by rewrite bool_decide_eq_false_2. Qed.

(** C6 (as the code has it). The consolidation stage entered with an
    entity whose data are exported and not yet consolidated. When the
    merge of the ledger items with the cases has no rows, [consolidate]
    raises the assertion error; neither [consolidate_data] nor [main]
    catches it, so the loop over the entities ends with the error, the
    entities after this one are not processed, and the run ends with the
    error. Every other error of [consolidate], as the one of the merge
    with the customer data, ends the run in the same way. When
    [consolidate] returns [None] (customer data are given and a merged
    row has no customer name), the pass stores nothing, sets no
    checkpoint and leaves the result of the stage as it was, and the loop
    goes on with the next entity; the result of the stage is that of the
    passes over the other entities, so for this entity alone the stage
    returns false and [main] logs out and returns 8. *)
Theorem consolidate_failures_scope (env : Env) (ent cocd : string)
    (rest : list (string * string)) (success : bool) (w : World)
    (f : list Item) (d : list Case) :
  get_state w ent "dms_data_exported" = Some true →
  get_state w ent "data_consolidated" = Some false →
  accum_at w "fbl5n_data" ent = Some (Items f) →
  accum_at w "dms_data" ent = Some (Cases d) →
  let loop := mloop (λ p, consolidate_body env p.1 p.2) in
  let w1 := add_calls [Consolidate ent] w in
  (merge_cases f d = [] →
     loop ((ent, cocd) :: rest) success w = (Raise unmerged, w1)
     ∧ consolidate_data env ((ent, cocd) :: rest) w = (Raise unmerged, w1)
     ∧ (consolidate_data env ((ent, cocd) :: rest)
          ≫= after_consolidation env ((ent, cocd) :: rest)) w
       = (Raise unmerged, w1))
  ∧ (∀ e, consolidate (case_findall env cocd) (case_findall_ints env cocd)
            f d (customer_data env cocd) (valid_taxes env cocd ent)
          = Raise e →
     loop ((ent, cocd) :: rest) success w = (Raise e, w1)
     ∧ consolidate_data env ((ent, cocd) :: rest) w = (Raise e, w1)
     ∧ (consolidate_data env ((ent, cocd) :: rest)
          ≫= after_consolidation env ((ent, cocd) :: rest)) w
       = (Raise e, w1))
  ∧ (consolidate (case_findall env cocd) (case_findall_ints env cocd) f d
       (customer_data env cocd) (valid_taxes env cocd ent) = Ok None →
     consolidate_body env ent cocd success w = (Ok (Next success), w1)
     ∧ loop ((ent, cocd) :: rest) success w = loop rest success w1
     ∧ consolidate_data env ((ent, cocd) :: rest) w
       = loop_result (loop rest false) w1
     ∧ consolidate_data env [(ent, cocd)] w = (Ok false, w1)
     ∧ (consolidate_data env [(ent, cocd)]
          ≫= after_consolidation env [(ent, cocd)]) w
       = (Ok 8, add_calls [SessionCall "sap.logout"] w1)).
Proof.
  intros Hexp Hcons Hf Hd loop w1.
  assert (∀ a, consolidate_body env ent cocd a w
            = (match consolidate (case_findall env cocd)
                       (case_findall_ints env cocd) f d (customer_data env cocd)
                       (valid_taxes env cocd ent) with
               | Ok None => mret (Next a)
               | Ok (Some rows) =>
                   store_to_file "consolidated_data" ent (Rows rows);;
                   store_to_accum ent "consolidated_data" (Rows rows) true;;
                   save_entity_state ent "data_consolidated" true;;
                   mret (Next true)
               | Raise e => mthrow e
               end) w1) as Hrun.
  { intros a. by apply consolidate_body_run. }
  assert (∀ e, consolidate (case_findall env cocd) (case_findall_ints env cocd)
                 f d (customer_data env cocd) (valid_taxes env cocd ent)
               = Raise e →
          loop ((ent, cocd) :: rest) success w = (Raise e, w1)
          ∧ consolidate_data env ((ent, cocd) :: rest) w = (Raise e, w1)
          ∧ (consolidate_data env ((ent, cocd) :: rest)
               ≫= after_consolidation env ((ent, cocd) :: rest)) w
            = (Raise e, w1)) as Herror.
  { intros e He.
    assert (∀ a, consolidate_body env ent cocd a w = (Raise e, w1))
      as Hraise.
    { intros a. by rewrite Hrun, He. }
    assert (consolidate_data env ((ent, cocd) :: rest) w = (Raise e, w1))
      as Hdata.
    { unfold consolidate_data, loop_result. cbn [mloop fst snd].
      erewrite bind_raise; [done|].
      by rewrite (bind_raise _ _ _ _ _ (Hraise false)). }
    split; [|split; [done|]].
    - unfold loop. cbn [mloop fst snd].
      by rewrite (bind_raise _ _ _ _ _ (Hraise success)).
    - by rewrite (bind_raise _ _ _ _ _ Hdata). }
  split; [|split; [done|]].
  - intros Hempty. apply Herror. unfold consolidate. rewrite Hempty.
    by rewrite bool_decide_eq_false_2 by (cbn; lia).
  - intros Hnone.
    assert (∀ a, consolidate_body env ent cocd a w = (Ok (Next a), w1))
      as Hskip.
    { intros a. by rewrite Hrun, Hnone. }
    assert (∀ rest', consolidate_data env ((ent, cocd) :: rest') w
                     = loop_result (loop rest' false) w1) as Hdata.
    { intros rest'. unfold consolidate_data, loop_result, loop.
      cbn [mloop fst snd]. unfold mbind at 1 3, Py_bind at 1 3.
      by rewrite (bind_ok _ _ _ _ _ (Hskip false)). }
    split; [done|]. split; [|split; [done|split; [apply Hdata|]]].
    + unfold loop. cbn [mloop fst snd].
      by rewrite (bind_ok _ _ _ _ _ (Hskip success)).
    + by rewrite (bind_ok _ _ _ _ _ (Hdata [])).
Qed.

(** The data of [E1] are exported and in the accumulator. *)
Definition consolidation_world (items : list Item) : World :=
  put_accum "E1" "dms_data" (Cases [dispute 7])
    (put_accum "E1" "fbl5n_data" (Items items)
       (put_state "E1" "dms_data_exported" true fresh_world)).

Definition two_items : list Item :=
  [ledger_item 1 100 (Some 7); ledger_item 2 (-100) (Some 7)].

(** A customer table in which the head office of the sample items, 1,
    is no account. *)
Definition other_customers : list Customer :=
  [mkCustomer 2 (Some "Other Ltd") "retail"].

Lemma consolidate_failures_scope_witness :
  (consolidate_data (sample_env no_items_E2 None) sample_entities
     (consolidation_world [])
   = (Raise unmerged, add_calls [Consolidate "E1"] (consolidation_world [])))
  ∧ (mloop (λ p, consolidate_body
                   (sample_env no_items_E2 (Some other_customers)) p.1 p.2)
       sample_entities false (consolidation_world two_items)
     = mloop (λ p, consolidate_body
                     (sample_env no_items_E2 (Some other_customers)) p.1 p.2)
         [("E2", "C1")] false
         (add_calls [Consolidate "E1"] (consolidation_world two_items)))
  ∧ ((consolidate_data (sample_env no_items_E2 (Some other_customers))
        [("E1", "C1")]
        ≫= after_consolidation (sample_env no_items_E2 (Some other_customers))
             [("E1", "C1")]) (consolidation_world two_items)
     = (Ok 8, add_calls [SessionCall "sap.logout"]
                (add_calls [Consolidate "E1"]
                   (consolidation_world two_items)))).
Proof.
  split; [|split].
  - apply (consolidate_failures_scope (sample_env no_items_E2 None) "E1" "C1"
             [("E2", "C1")] false (consolidation_world []) [] [dispute 7]);
      by vm_compute.
  - apply (consolidate_failures_scope
             (sample_env no_items_E2 (Some other_customers))
             "E1" "C1" [("E2", "C1")] false (consolidation_world two_items)
             two_items [dispute 7]); by vm_compute.
  - apply (consolidate_failures_scope
             (sample_env no_items_E2 (Some other_customers))
             "E1" "C1" [] false (consolidation_world two_items)
             two_items [dispute 7]); by vm_compute.
Defined.

(** All exports succeed. *)
Definition all_exported (ent : string) : Fbl5nOutcome := Fbl5nExported.

(** A recovery file and dump files with which the ledger data of [E1]
    are converted and have no rows, while its case data are exported;
    [E2] has not been processed. *)
Definition recovered_states : gmap string (gmap string bool) :=
  <["E1" := <["dms_data_converted" := true]>
              (<["dms_data_exported" := true]>
                 (<["fbl5n_data_converted" := true]>
                    (<["fbl5n_data_exported" := true]>
                       (list_to_map
                          (map (λ k, (k, false)) checkpoint_keys)))))]>
    (default_states ["E1"; "E2"]).

Definition recovered_world : World :=
  mkWorld ∅ (Some recovered_states) empty_accum
    (<[("dms_data_binary", "E1") := Cases [dispute 7] ]>
       {[ ("fbl5n_data_binary", "E1") := Items [] ]})
    [].

(** C6 (counterexample to the claim as stated). Two runs that a failure
    of the consolidation of [E1] ends. In the first the merge for [E1]
    has no rows: the run ends with the assertion error at the
    consolidation of [E1]; [E2], whose data were exported and converted
    in this run, is neither consolidated nor cleared. In the second [E1]
    is the only entity and its head office is no account of the customer
    table: [consolidate] returns [None], no checkpoint is set, and the
    run logs out and returns 8. *)
Lemma consolidation_failures_end_run :
  ((main (sample_env all_exported None) sample_entities recovered_world).1
   = Raise unmerged
   ∧ calls (main (sample_env all_exported None) sample_entities
              recovered_world).2
     = [SessionCall "sap.login"; Fbl5nExport "E2"; Fbl5nPreprocess "E2";
        SessionCall "dms.start"; DmsSearchDisputes "E2"; DmsExport "E2";
        SessionCall "dms.close"; DmsPreprocess "E2"; Consolidate "E1"])
  ∧ (consolidate (λ _, []) (λ _, []) two_items [dispute 7]
       (Some other_customers) ["A1"] = Ok None
     ∧ (main (sample_env all_exported (Some other_customers)) [("E1", "C1")]
          (mkWorld ∅ None empty_accum ∅ [])).1 = Ok 8
     ∧ calls (main (sample_env all_exported (Some other_customers))
                [("E1", "C1")] (mkWorld ∅ None empty_accum ∅ [])).2
       = [SessionCall "sap.login"; Fbl5nExport "E1"; Fbl5nPreprocess "E1";
          SessionCall "dms.start"; DmsSearchDisputes "E1"; DmsExport "E1";
          SessionCall "dms.close"; DmsPreprocess "E1"; Consolidate "E1";
          SessionCall "sap.logout"]
     ∧ persisted (main (sample_env all_exported (Some other_customers))
                    [("E1", "C1")] (mkWorld ∅ None empty_accum ∅ [])).2
         "E1" "data_consolidated" = Some false).
Proof. repeat split; by vm_compute. Qed.

(** With the same data and no recovery file, the run of [E2] alone ends
    with success. *)
Example sibling_alone_succeeds :
  (main (sample_env all_exported None) [("E2", "C1")]
     (mkWorld ∅ None empty_accum ∅ [])).1 = Ok 0.
Proof. by vm_compute. Qed.

(** Two entities of two company codes; only the first code has a
    customer table, in which the head office of the items is no
    account. *)
Definition two_codes_env : Env :=
  mkEnv (λ _ _, "company_code") (λ _ _, []) (λ _ _, []) (λ _ _, ["A1"])
    (λ _, 1%float) (λ _, ∅) sequential_sum
    (λ cocd, if decide (cocd = "C1") then Some other_customers else None)
    all_exported
    (λ _, Ok two_items)
    (λ _ _, DmsFound) (λ _, true) (λ _, Ok [dispute 7])
    (λ _ _ _, Ok (currency_input false))
    (λ _ _, true) (λ _ _, Ok true) (λ _ _, Posted 555)
    (λ _ _, Ok tt) (λ _ _, CaseClosed) (λ _ _, QmTasks) (λ _ _, true)
    (Ok true) true.

(** [consolidate] returns [None] for [E1] and a frame for [E2]: the run
    goes on, no later stage makes a call for [E1], the items of [E2] are
    cleared and the run returns 0. *)
Example unnamed_customer_sibling_cleared :
  (main two_codes_env [("E1", "C1"); ("E2", "C2")]
     (mkWorld ∅ None empty_accum ∅ [])).1 = Ok 0
  ∧ calls (main two_codes_env [("E1", "C1"); ("E2", "C2")]
             (mkWorld ∅ None empty_accum ∅ [])).2
    = [SessionCall "sap.login"; Fbl5nExport "E1"; Fbl5nExport "E2";
       Fbl5nPreprocess "E1"; Fbl5nPreprocess "E2"; SessionCall "dms.start";
       DmsSearchDisputes "E1"; DmsExport "E1"; DmsSearchDisputes "E2";
       DmsExport "E2"; SessionCall "dms.close"; DmsPreprocess "E1";
       DmsPreprocess "E2"; Consolidate "E1"; Consolidate "E2";
       EvaluateItems "E2"; CreateClearingInput "E2";
       SessionCall "f30.start"; F30LoadItems "E2" "EUR";
       F30SelectAndTransfer "E2" "EUR"; F30PostItems "E2" "EUR";
       SessionCall "f30.close"; SessionCall "dms.start";
       DmsModifyCase "E2" 7; SessionCall "dms.close";
       SessionCall "qm02.start"; QmSearchNotification "E2" 4001;
       QmCompleteNotification "E2" 4001; SessionCall "qm02.close";
       SessionCall "report"; SessionCall "sap.logout"].
Proof. split; by vm_compute. Qed.

(** ** Checkpoints and the work of the stages *)

(** C2. For every stage and entity, the pass of the stage over the
    entity calls a collaborator for a stage and an entity only when the
    checkpoint of that stage and entity is false at the start of the
    pass; the recovery file stays the image of the checkpoints in memory;
    and when the work of the stage is done with success and the pass ends
    normally, the checkpoint of the stage is true in memory and in the
    recovery file at the end of the pass, before any later pass reads it.
    A run that starts from a recovery file in which the ledger data of an
    entity are exported and not converted does not call the export for the
    entity, and calls the conversion for it whenever the run gets past the
    conversion stage (it returns a code other than 4). *)
Theorem checkpoints_gate_stages (env : Env) :
  (∀ s ent cocd a w r w',
     stage_body env s ent cocd a w = (r, w') →
     ∃ new, calls w' = calls w ++ new
       ∧ gated w new
       ∧ (in_sync w → in_sync w')
       ∧ (∀ a', r = Ok (Next a') → completed env s ent cocd w new →
            checkpoint_saved s ent w'))
  ∧ (∀ entits ent cocd w r w',
       persisted w ent "fbl5n_data_exported" = Some true →
       persisted w ent "fbl5n_data_converted" = Some false →
       main env entits w = (r, w') →
       ∃ new, calls w' = calls w ++ new
         ∧ (Fbl5nExport ent ∉ new)
         ∧ ((ent, cocd) ∈ entits → ∀ code, r = Ok code → code ≠ 4 →
              Fbl5nPreprocess ent ∈ new)).
Proof.
  split.
  - intros s ent cocd a w r w' Hrun.
    pose proof Hrun as ((new & Hcalls & Hgated) & Hsync & _)%stage_body_frame.
    exists new. repeat (split; [done|]).
    intros a' -> Hdone. by eapply stage_body_completed.
  - intros entits ent cocd w r w'. apply main_replay.
Qed.

(** The recovery file of a run that failed after the export of the
    ledger data of [E1]. *)
Definition replay_world : World :=
  mkWorld ∅
    (Some (<["E1" := <["fbl5n_data_exported" := true]>
                       (list_to_map (map (λ k, (k, false)) checkpoint_keys))]>
             (default_states ["E1"; "E2"])))
    empty_accum ∅ [].

Lemma checkpoints_gate_stages_witness :
  checkpoint_saved LedgerExport "E1"
    (export_fbl5n_body (sample_env no_items_E2 None) "E1" "C1" false
       fresh_world).2
  ∧ ∃ new,
      calls (main (sample_env no_items_E2 None) sample_entities
               replay_world).2
      = calls replay_world ++ new
      ∧ (Fbl5nExport "E1" ∉ new) ∧ Fbl5nPreprocess "E1" ∈ new.
Proof.
  split.
  - destruct (proj1 (checkpoints_gate_stages (sample_env no_items_E2 None))
                LedgerExport "E1" "C1" false fresh_world _ _ eq_refl)
      as (new & Hcalls & _ & _ & Hsaved).
    apply (Hsaved true); [by vm_compute|].
    assert (new = [Fbl5nExport "E1"]) as ->.
    { revert Hcalls. by vm_compute. }
    split; [by left | by vm_compute].
  - destruct (proj2 (checkpoints_gate_stages (sample_env no_items_E2 None))
                sample_entities "E1" "C1" replay_world _ _
                ltac:(by vm_compute) ltac:(by vm_compute)
                (surjective_pairing _))
      as (new & Hcalls & Hnot & Hconv).
    exists new. split; [done|]. split; [done|].
    apply (Hconv ltac:(by left) 0); by vm_compute.
Defined.

(** The replayed run: the export is called for [E2] only, the
    conversion for [E1] first. *)
Example replayed_run :
  calls (main (sample_env no_items_E2 None) sample_entities replay_world).2
  = [SessionCall "sap.login"; Fbl5nExport "E2"; Fbl5nPreprocess "E1";
     SessionCall "dms.start"; DmsSearchDisputes "E1"; DmsExport "E1";
     SessionCall "dms.close"; DmsPreprocess "E1"; Consolidate "E1";
     EvaluateItems "E1"; CreateClearingInput "E1"; SessionCall "f30.start";
     F30LoadItems "E1" "EUR"; F30SelectAndTransfer "E1" "EUR";
     F30PostItems "E1" "EUR"; SessionCall "f30.close";
     SessionCall "dms.start"; DmsModifyCase "E1" 7; SessionCall "dms.close";
     SessionCall "qm02.start"; QmSearchNotification "E1" 4001;
     QmCompleteNotification "E1" 4001; SessionCall "qm02.close";
     SessionCall "report"; SessionCall "sap.logout"].
Proof. by vm_compute. Qed.

(** * Further properties of the code *)

(** ** The recovery store ([biaRecovery]) *)

(** X1. Saving a checkpoint of an entity of the table and reading it
    back gives the saved value; the recovery file holds the table with
    the new value, and no other checkpoint of any entity changes. *)
Theorem save_entity_state_round_trip (ent key : string) (v : bool) (w : World) :
  has_entity w ent →
  ∃ w', save_entity_state ent key v w = (Ok tt, w')
    ∧ get_entity_state ent key w' = (Ok v, w')
    ∧ rec_file w' = Some (ent_states w')
    ∧ persisted w' ent key = Some v
    ∧ ∀ e k, (e, k) ≠ (ent, key) → get_state w' e k = get_state w e k.
Proof.
  intros Hent. exists (put_state ent key v w).
  assert (get_state (put_state ent key v w) ent key = Some v) as Hget
    by apply get_state_put_state.
  split.
  { unfold save_entity_state, put_state. destruct Hent as [st ->]. done. }
  split; [by apply get_entity_state_ok|].
  split; [done|]. split; [by rewrite persisted_put_state|].
  intros e k Hne. destruct (decide (e = ent)) as [->|He].
  - apply get_state_put_state_key. congruence.
  - by apply get_state_put_state_ent.
Qed.

Lemma save_entity_state_round_trip_witness :
  ∃ w', save_entity_state "E1" "data_analyzed" true fresh_world = (Ok tt, w')
    ∧ get_entity_state "E1" "data_analyzed" w' = (Ok true, w')
    ∧ rec_file w' = Some (ent_states w')
    ∧ persisted w' "E1" "data_analyzed" = Some true
    ∧ ∀ e k, (e, k) ≠ ("E1", "data_analyzed") →
        get_state w' e k = get_state fresh_world e k.
Proof.
  apply (save_entity_state_round_trip "E1" "data_analyzed" true fresh_world).
  apply (get_state_has_entity _ _ "data_analyzed" false). by vm_compute.
Defined.

(** X2. Errors of the recovery store. For an entity that is not in the
    table, saving and reading raise [KeyError] for the entity and change
    nothing. For an entity of the table and a checkpoint name it does not
    hold, reading raises [KeyError] for the name, while saving adds the
    name. *)
Theorem recovery_store_key_errors (ent key : string) (v : bool) (w : World) :
  (¬ has_entity w ent →
     save_entity_state ent key v w = (Raise (KeyError ent), w)
     ∧ get_entity_state ent key w = (Raise (KeyError ent), w))
  ∧ (has_entity w ent → get_state w ent key = None →
     get_entity_state ent key w = (Raise (KeyError key), w)
     ∧ ∃ w', save_entity_state ent key v w = (Ok tt, w')
             ∧ get_entity_state ent key w' = (Ok v, w')).
Proof.
  unfold has_entity, get_state, save_entity_state, get_entity_state. split.
  - intros Hno. destruct (ent_states w !! ent) as [st|] eqn:E; [|done].
    destruct Hno. by eexists.
  - intros [st Hst]. rewrite Hst. cbn. intros ->. split; [done|].
    eexists. split; [done|]. cbn. rewrite lookup_insert_eq.
    by rewrite lookup_insert_eq.
Qed.

Lemma recovery_store_key_errors_witness :
  (save_entity_state "E3" "data_analyzed" true fresh_world
   = (Raise (KeyError "E3"), fresh_world)
   ∧ get_entity_state "E3" "data_analyzed" fresh_world
     = (Raise (KeyError "E3"), fresh_world))
  ∧ get_entity_state "E1" "data_reported" fresh_world
    = (Raise (KeyError "data_reported"), fresh_world).
Proof.
  split.
  - apply (recovery_store_key_errors "E3" "data_analyzed" true fresh_world).
    intros [st Hst]. revert Hst. by vm_compute.
  - apply (recovery_store_key_errors "E1" "data_reported" true fresh_world);
      [|by vm_compute].
    apply (get_state_has_entity _ _ "data_analyzed" false). by vm_compute.
Defined.

Lemma constant_map_lookup {B} (f : string → B) (keys : list string)
    (key : string) :
  (list_to_map (map (λ k, (k, f k)) keys) : gmap string B) !! key
  = if bool_decide (key ∈ keys) then Some (f key) else None.
Proof.
  case_bool_decide as Hin.
  - apply elem_of_list_to_map_1'.
    + by intros y (k & [= <- <-] & _)%list_elem_of_fmap.
    + apply list_elem_of_fmap. by exists key.
  - apply not_elem_of_list_to_map_1. rewrite <- list_fmap_compose.
    by rewrite list_fmap_id.
Qed.

Lemma initialize_fresh (entits : list string) (w : World) :
  rec_file w = None ∨ rec_file w = Some ∅ →
  ∃ w', initialize entits w = (Ok false, w')
    ∧ rec_file w' = Some (ent_states w')
    ∧ ∀ ent key,
        get_state w' ent key
        = if bool_decide (ent ∈ entits) && bool_decide (key ∈ checkpoint_keys)
          then Some false else None.
Proof.
  intros Hfile.
  exists (set_states (default_states entits) (Some (default_states entits)) w).
  split.
  { unfold initialize. destruct Hfile as [H | H]; rewrite !H.
    - rewrite (bool_decide_eq_true_2 (None = None)) by done. cbn.
      by rewrite bool_decide_eq_false_2 by (by intros []).
    - rewrite (bool_decide_eq_false_2 (Some _ = None)) by done. cbn.
      rewrite H. cbn.
      by rewrite bool_decide_eq_false_2 by (by intros []). }
  split; [done|]. intros ent key. unfold get_state. cbn.
  unfold default_states. rewrite constant_map_lookup.
  case_bool_decide; [|done].
  exact (constant_map_lookup (λ _, false) checkpoint_keys key).
Qed.

Lemma initialize_resumed (entits : list string) (w : World)
    (saved : gmap string (gmap string bool)) :
  rec_file w = Some saved → saved ≠ ∅ →
  initialize entits w = (Ok true, set_states saved (Some saved) w).
Proof.
  intros Hfile Hne. unfold initialize. rewrite !Hfile.
  rewrite (bool_decide_eq_false_2 (Some _ = None)) by done. cbn.
  rewrite Hfile. cbn. by rewrite bool_decide_eq_true_2.
Qed.

(** X3. Initialisation of the recovery store. When there is no recovery
    file, or the file holds no states, [initialize] reports no previous
    failure and every given entity gets the eleven checkpoints, all
    false, and nothing else; the file is written. When the file holds
    states, [initialize] reports a previous failure and takes the states
    of the file as they are, whatever the entities given. *)
Theorem initialize_states (entits : list string) (w : World) :
  (rec_file w = None ∨ rec_file w = Some ∅ →
     ∃ w', initialize entits w = (Ok false, w')
       ∧ rec_file w' = Some (ent_states w')
       ∧ ∀ ent key,
           get_state w' ent key
           = if bool_decide (ent ∈ entits) && bool_decide (key ∈ checkpoint_keys)
             then Some false else None)
  ∧ (∀ saved, rec_file w = Some saved → saved ≠ ∅ →
       initialize entits w = (Ok true, set_states saved (Some saved) w)).
Proof.
  split; [apply initialize_fresh|]. intros saved. apply initialize_resumed.
Qed.

Lemma initialize_states_witness :
  (∃ w', initialize ["E1"; "E2"] (mkWorld ∅ None empty_accum ∅ [])
         = (Ok false, w')
     ∧ rec_file w' = Some (ent_states w')
     ∧ ∀ ent key,
         get_state w' ent key
         = if bool_decide (ent ∈ ["E1"; "E2"])
              && bool_decide (key ∈ checkpoint_keys)
           then Some false else None)
  ∧ initialize ["E3"] replay_world
    = (Ok true, set_states (default ∅ (rec_file replay_world))
                  (rec_file replay_world) replay_world).
Proof.
  split.
  - apply (initialize_states ["E1"; "E2"] (mkWorld ∅ None empty_accum ∅ [])).
    by left.
  - apply (initialize_states ["E3"] replay_world); [done|].
    intros H. apply (f_equal (λ m : gmap string (gmap string bool),
                                bool_decide (is_Some (m !! "E1")))) in H.
    revert H. by vm_compute.
Defined.

(** ** The accumulator ([store_to_accum], [get_from_accum]) *)

(** X4. Storing a datum for an entity under a kind of the accumulator,
    forced or for the first time, and reading it back gives the datum
    ([None] included); the data of the other entities and kinds and the
    checkpoints do not change. *)
Theorem accum_round_trip (ent key : string) (d : Data) (force : bool)
    (w : World) :
  is_Some (accum w !! key) →
  force = true ∨ accum_at w key ent = None →
  ∃ w', store_to_accum ent key d force w = (Ok tt, w')
    ∧ get_from_accum ent key w' = (Ok d, w')
    ∧ (∀ k e, (k, e) ≠ (key, ent) → accum_at w' k e = accum_at w k e)
    ∧ ent_states w' = ent_states w ∧ rec_file w' = rec_file w.
Proof.
  intros [m Hm] Hfree.
  exists (set_accum (<[key := <[ent := d]> m]> (accum w)) w).
  split.
  { unfold store_to_accum. rewrite Hm.
    destruct Hfree as [-> | Hnone].
    - by rewrite andb_false_r.
    - unfold accum_at in Hnone. rewrite Hm in Hnone. cbn in Hnone.
      rewrite bool_decide_eq_false_2; [done|]. rewrite Hnone. by intros [? [=]]. }
  split.
  { unfold get_from_accum. cbn. rewrite lookup_insert_eq.
    by rewrite lookup_insert_eq. }
  split; [|done].
  intros k e Hne. unfold accum_at. cbn.
  destruct (decide (k = key)) as [->|Hk].
  - rewrite lookup_insert_eq, Hm. cbn. apply lookup_insert_ne. congruence.
  - by rewrite lookup_insert_ne.
Qed.

Lemma accum_round_trip_witness :
  ∃ w', store_to_accum "E1" "dms_data" PyNone false fresh_world = (Ok tt, w')
    ∧ get_from_accum "E1" "dms_data" w' = (Ok PyNone, w')
    ∧ (∀ k e, (k, e) ≠ ("dms_data", "E1") →
         accum_at w' k e = accum_at fresh_world k e)
    ∧ ent_states w' = ent_states fresh_world
    ∧ rec_file w' = rec_file fresh_world.
Proof.
  apply (accum_round_trip "E1" "dms_data" PyNone false fresh_world).
  - exists ∅. by vm_compute.
  - right. by vm_compute.
Defined.

(** X5. Errors of the accumulator. A datum stored for an entity is not
    replaced by an unforced store: the store raises [AssertionError] and
    the accumulator keeps the datum, also when the datum is [None]. A
    kind the accumulator does not have raises [KeyError] for the kind in
    both functions, and reading an entity that has no datum raises
    [KeyError] for the entity. *)
Theorem accum_errors (ent key : string) (d : Data) (w : World) :
  (∀ d0, accum_at w key ent = Some d0 →
     store_to_accum ent key d false w
     = (Raise (AssertionError
                 "Cannot modify data already stored in the accumulator!"), w))
  ∧ (accum w !! key = None →
     ∀ force, store_to_accum ent key d force w = (Raise (KeyError key), w)
              ∧ get_from_accum ent key w = (Raise (KeyError key), w))
  ∧ (is_Some (accum w !! key) → accum_at w key ent = None →
     get_from_accum ent key w = (Raise (KeyError ent), w)).
Proof.
  unfold accum_at, store_to_accum, get_from_accum. repeat split.
  - intros d0. destruct (accum w !! key) as [m|]; cbn; [|done]. intros Hd.
    rewrite bool_decide_eq_true_2; [done|]. by rewrite Hd.
  - by rewrite H.
  - by rewrite H.
  - intros [m ->]. cbn. by intros ->.
Qed.

Lemma accum_errors_witness :
  store_to_accum "E2" "clearing_input" (Clearing []) false
    nothing_to_clear_world
  = (Raise (AssertionError
              "Cannot modify data already stored in the accumulator!"),
     nothing_to_clear_world)
  ∧ get_from_accum "E1" "report_data" fresh_world
    = (Raise (KeyError "report_data"), fresh_world)
  ∧ get_from_accum "E1" "dms_data" fresh_world
    = (Raise (KeyError "E1"), fresh_world).
Proof.
  split; [|split].
  - apply (accum_errors "E2" "clearing_input" (Clearing [])
             nothing_to_clear_world) with PyNone. by vm_compute.
  - apply (accum_errors "E1" "report_data" PyNone fresh_world);
      [by vm_compute | exact false].
  - apply (accum_errors "E1" "dms_data" PyNone fresh_world);
      [exists ∅; by vm_compute | by vm_compute].
Defined.

(** ** Properties kept by every write *)

Lemma only_calls_preserves (J : World → Prop) (P : Call → Prop) {A}
    (m : Py World A) :
  (∀ new w, J w → J (add_calls new w)) → only_calls P m → preserves J m.
Proof.
  intros HJ Hm w r w' (new & -> & _)%Hm. apply HJ.
Qed.

(** A property of the state that the four writes keep (a call, a datum of
    the accumulator, a dump file, a checkpoint of an entity of the table)
    is kept by every pass of every stage. *)
Section writes.
Context (env : Env) (J : World → Prop).
Hypothesis J_calls : ∀ new w, J w → J (add_calls new w).
Hypothesis J_accum : ∀ ent key d w, J w → J (put_accum ent key d w).
Hypothesis J_file : ∀ kind ent d w, J w → J (put_file kind ent d w).
Hypothesis J_state :
  ∀ ent key v w, has_entity w ent → J w → J (put_state ent key v w).

Lemma preserves_call c : preserves J (call c).
Proof. intros w r w' [_ ->]%call_inv. apply J_calls. Qed.

Lemma preserves_get_entity_state ent key :
  preserves J (get_entity_state ent key).
Proof. by intros w r w' [-> _]%get_entity_state_inv. Qed.

Lemma preserves_save_entity_state ent key v :
  preserves J (save_entity_state ent key v).
Proof.
  intros w [[]|e] w' H%save_entity_state_inv.
  - destruct H as [Hent ->]. by apply J_state.
  - by destruct H as [-> _].
Qed.

Lemma preserves_store_to_accum ent key d force :
  preserves J (store_to_accum ent key d force).
Proof.
  intros w [[]|e] w' H%store_to_accum_inv.
  - destruct H as [_ ->]. apply J_accum.
  - by subst.
Qed.

Lemma preserves_get_from_accum ent key : preserves J (get_from_accum ent key).
Proof. by intros w r w' [-> _]%get_from_accum_inv. Qed.

Lemma preserves_store_to_file kind ent d :
  preserves J (store_to_file kind ent d).
Proof. intros w r w' [_ ->]%store_to_file_inv. apply J_file. Qed.

Lemma preserves_read_binary kind ent : preserves J (read_binary kind ent).
Proof. by intros w r w' ->%read_binary_inv. Qed.

Lemma preserves_read_serial kind ent : preserves J (read_serial kind ent).
Proof. by intros w r w' ->%read_serial_inv. Qed.

Ltac writes_step :=
  first
    [ apply preserves_call
    | apply preserves_get_entity_state
    | apply preserves_save_entity_state
    | apply preserves_store_to_accum
    | apply preserves_get_from_accum
    | apply preserves_store_to_file
    | apply preserves_read_binary
    | apply preserves_read_serial
    | eapply only_calls_preserves;
        [exact J_calls | apply only_calls_mfoldl; intros ? ?;
                         apply clear_currency_calls]
    | eapply only_calls_preserves;
        [exact J_calls | apply only_calls_mfoldl; intros ? ?;
                         apply close_currency_calls]
    | eapply only_calls_preserves;
        [exact J_calls | apply only_calls_mloop; intros ? ?;
                         apply close_notification_currency_calls]
    | preserves_step ].

Lemma stage_body_preserves_writes s ent cocd a :
  preserves J (stage_body env s ent cocd a).
Proof.
  destruct s; cbn [stage_body];
    unfold export_fbl5n_body, load_fbl5n_body, export_dms_body, load_dms_body,
      consolidate_body, generate_input_body, clear_body, close_disputes_body,
      close_notifications_body;
    repeat writes_step.
Qed.

End writes.

(** ** The paths of a run *)

(** One step of a run: a session call or a whole stage. *)
Inductive run_step (env : Env) (entits : list (string * string))
  : World → World → Prop :=
| step_call c w :
    stage_of c = None → run_step env entits w (add_calls [c] w)
| step_export_fbl5n w r w' :
    export_fbl5n_data env entits w = (r, w') → run_step env entits w w'
| step_load_fbl5n w r w' :
    load_fbl5n_data env entits w = (r, w') → run_step env entits w w'
| step_export_dms w r w' :
    export_dms_data env entits w = (r, w') → run_step env entits w w'
| step_load_dms w r w' :
    load_dms_data env entits w = (r, w') → run_step env entits w w'
| step_consolidate w r w' :
    consolidate_data env entits w = (r, w') → run_step env entits w w'
| step_generate w r w' :
    generate_clearing_input env entits w = (r, w') → run_step env entits w w'
| step_clear w r w' :
    clear_open_items env entits w = (r, w') → run_step env entits w w'
| step_close_disputes w r w' :
    close_disputes env entits w = (r, w') → run_step env entits w w'
| step_close_notifications w r w' :
    close_notifications env entits w = (r, w') → run_step env entits w w'
| step_report w r w' :
    report_output env w = (r, w') → run_step env entits w w'.

Ltac run_chain :=
  repeat match goal with
  | |- rtc _ ?w ?w => apply rtc_refl
  | |- rtc _ _ (add_calls [_] _) =>
      eapply rtc_r; [|apply step_call; reflexivity]
  | H : export_fbl5n_data _ _ _ = (_, ?w') |- rtc _ _ ?w' =>
      eapply rtc_r; [|eapply step_export_fbl5n; exact H]
  | H : load_fbl5n_data _ _ _ = (_, ?w') |- rtc _ _ ?w' =>
      eapply rtc_r; [|eapply step_load_fbl5n; exact H]
  | H : export_dms_data _ _ _ = (_, ?w') |- rtc _ _ ?w' =>
      eapply rtc_r; [|eapply step_export_dms; exact H]
  | H : load_dms_data _ _ _ = (_, ?w') |- rtc _ _ ?w' =>
      eapply rtc_r; [|eapply step_load_dms; exact H]
  | H : consolidate_data _ _ _ = (_, ?w') |- rtc _ _ ?w' =>
      eapply rtc_r; [|eapply step_consolidate; exact H]
  | H : generate_clearing_input _ _ _ = (_, ?w') |- rtc _ _ ?w' =>
      eapply rtc_r; [|eapply step_generate; exact H]
  | H : clear_open_items _ _ _ = (_, ?w') |- rtc _ _ ?w' =>
      eapply rtc_r; [|eapply step_clear; exact H]
  | H : close_disputes _ _ _ = (_, ?w') |- rtc _ _ ?w' =>
      eapply rtc_r; [|eapply step_close_disputes; exact H]
  | H : close_notifications _ _ _ = (_, ?w') |- rtc _ _ ?w' =>
      eapply rtc_r; [|eapply step_close_notifications; exact H]
  | H : report_output _ _ = (_, ?w') |- rtc _ _ ?w' =>
      eapply rtc_r; [|eapply step_report; exact H]
  end.

Ltac run_inv :=
  repeat (first
    [ match goal with
      | H : try_except _ _ _ = (_, _) |- _ =>
          apply try_except_inv in H as [(? & H & ?)|(? & ? & ? & H)]
      end
    | py_inv_step ]; simplify_eq).

(** The run after the initialisation: either it goes through steps to
    the reset of the recovery store and returns 0, or it goes through
    steps and ends with an exception or one of the codes 4 to 11. *)
Lemma after_initialize_paths env entits w r w' :
  after_initialize env entits w = (r, w') →
  (r = Ok 0 ∧ ∃ w2, rtc (run_step env entits) w w2 ∧ reset w2 = (Ok tt, w'))
  ∨ (rtc (run_step env entits) w w' ∧
     match r with
     | Ok code => code ∈ [4; 5; 6; 7; 8; 9; 10; 11]
     | Raise _ => True
     end).
Proof.
  unfold after_initialize, after_conversion, disconnect_from_sap.
  intros H. run_inv.
  all: try match goal with
       | H : reset _ = (Ok ?u, _) |- _ =>
           destruct u; left; split; [done|]; eexists; split; [|exact H]
       end.
  all: try (right; split; [|first [done | set_solver]]).
  all: run_chain.
Qed.

Lemma run_step_preserves env (J : World → Prop) entits w w' :
  (∀ s ent cocd a, preserves J (stage_body env s ent cocd a)) →
  (∀ what, preserves J (call (SessionCall what))) →
  run_step env entits w w' → J w → J w'.
Proof.
  intros Hbody Hsession Hstep HJ. destruct Hstep as [c w Hc| | | | | | | | | |].
  - destruct c; try discriminate Hc. by eapply (Hsession what).
  - by eapply export_fbl5n_data_preserves.
  - by eapply load_fbl5n_data_preserves.
  - by eapply export_dms_data_preserves.
  - by eapply load_dms_data_preserves.
  - by eapply consolidate_data_preserves.
  - by eapply generate_clearing_input_preserves.
  - by eapply clear_open_items_preserves.
  - by eapply close_disputes_preserves.
  - by eapply close_notifications_preserves.
  - by eapply report_output_preserves.
Qed.

Lemma run_steps_preserves env (J : World → Prop) entits w w' :
  (∀ s ent cocd a, preserves J (stage_body env s ent cocd a)) →
  (∀ what, preserves J (call (SessionCall what))) →
  rtc (run_step env entits) w w' → J w → J w'.
Proof.
  intros Hbody Hsession. induction 1 as [|w1 w2 w3 Hstep _ IH]; [done|].
  intros HJ. apply IH. by eapply run_step_preserves.
Qed.

(** The recovery file holds the table in memory, and the entity is in
    the table. *)
Definition recoverable (e : string) (w : World) : Prop :=
  in_sync w ∧ has_entity w e.

Lemma has_entity_put_state_mono ent key v w e :
  has_entity w e → has_entity (put_state ent key v w) e.
Proof.
  unfold has_entity, put_state. cbn. intros H.
  destruct (decide (e = ent)) as [->|He].
  - by rewrite lookup_insert_eq.
  - by rewrite lookup_insert_ne.
Qed.

Lemma recoverable_body env e s ent cocd a :
  preserves (recoverable e) (stage_body env s ent cocd a).
Proof.
  apply stage_body_preserves_writes; unfold recoverable.
  - intros new w. by rewrite in_sync_add_calls, has_entity_add_calls.
  - intros ent' key d w. by rewrite in_sync_put_accum, has_entity_put_accum.
  - intros kind ent' d w. by rewrite in_sync_put_file, has_entity_put_file.
  - intros ent' key v w _ [_ He]. split; [apply in_sync_put_state|].
    by apply has_entity_put_state_mono.
Qed.

Lemma recoverable_session e what :
  preserves (recoverable e) (call (SessionCall what)).
Proof.
  intros w r w' [_ ->]%call_inv. unfold recoverable.
  by rewrite in_sync_add_calls, has_entity_add_calls.
Qed.

(** After the initialisation for at least one entity, the table is not
    empty and the file holds it. *)
Lemma initialize_recovery_recoverable (entits : list string) (w : World) :
  entits ≠ [] →
  ∃ w1 e, initialize_recovery entits w = (Ok tt, w1) ∧ recoverable e w1.
Proof.
  intros Hne. unfold initialize_recovery, recoverable.
  destruct (decide (rec_file w = None ∨ rec_file w = Some ∅)) as [Hfile|Hfile].
  - destruct (initialize_fresh entits w Hfile)
      as (w1 & Hinit & Hsync & Hstates).
    rewrite (bind_ok _ _ _ _ _ Hinit).
    destruct entits as [|e entits]; [done|].
    exists (set_dump ∅ w1), e. split; [done|]. split; [done|].
    apply (get_state_has_entity _ _ "data_analyzed" false).
    change (get_state w1 e "data_analyzed" = Some false).
    rewrite Hstates. rewrite bool_decide_eq_true_2 by by left. done.
  - destruct (rec_file w) as [saved|] eqn:Hsaved; [|by destruct Hfile; left].
    assert (saved ≠ ∅) as Hsne by (intros ->; destruct Hfile; by right).
    rewrite (bind_ok _ _ _ _ _
               (initialize_resumed entits w saved Hsaved Hsne)).
    destruct (map_choose saved Hsne) as (e & st & He).
    exists (set_states saved (Some saved) w), e. split; [done|].
    split; [done|]. by exists st.
Qed.

(** X6. The outcomes of [main] from the point where the rules are loaded
    and the entities are known, with a connection to SAP that is made
    (the codes 1 and 2 of a failed start are before that point). When
    [main] returns, the code is 0 or one of 4 to 11. A run over at least
    one entity that returns 0 has reset
    the recovery store: the table and the recovery file are empty. A
    run that ends with another code or with an exception leaves a table
    that is not empty and is held by the recovery file, so the
    initialisation of the next run reports a previous failure and
    resumes from it. *)
Theorem main_outcomes (env : Env) (entits : list (string * string))
    (w : World) (r : result Z) (w' : World) :
  main env entits w = (r, w') →
  (∀ code, r = Ok code → code ∈ [0; 4; 5; 6; 7; 8; 9; 10; 11])
  ∧ (entits ≠ [] → r = Ok 0 → ent_states w' = ∅ ∧ rec_file w' = Some ∅)
  ∧ (entits ≠ [] → r ≠ Ok 0 →
     rec_file w' = Some (ent_states w') ∧ ent_states w' ≠ ∅
     ∧ ∀ next, ∃ w2, initialize next w' = (Ok true, w2)
                     ∧ ent_states w2 = ent_states w').
Proof.
  intros Hmain. destruct (decide (entits = [])) as [->|Hne].
  { unfold main in Hmain. rewrite bool_decide_eq_true_2 in Hmain by done.
    injection Hmain as <- <-. split; [|done]. intros code [= <-]. set_solver. }
  rewrite main_unfold in Hmain by done.
  assert (entits.*1 ≠ []) as Hne1 by by destruct entits.
  destruct (initialize_recovery_recoverable entits.*1 w Hne1)
    as (w1 & e & Hinit & Hrec).
  rewrite (bind_ok _ _ _ _ _ Hinit) in Hmain.
  apply after_initialize_paths in Hmain
    as [(-> & w2 & Hsteps & Hreset)|(Hsteps & Hcode)].
  - split; [intros code [= <-]; set_solver|].
    split; [|done]. intros _ _. by injection Hreset as <-.
  - split; [intros code ->; set_solver|].
    split.
    { intros _ ->. set_solver. }
    intros _ _.
    destruct (run_steps_preserves env (recoverable e) entits _ _
                (recoverable_body env e) (recoverable_session e) Hsteps Hrec)
      as [Hsync [st Hst]].
    assert (ent_states w' ≠ ∅) as Hnempty.
    { intros Hempty. rewrite Hempty in Hst. by rewrite lookup_empty in Hst. }
    split; [done|]. split; [done|].
    intros next. eexists. split.
    + by apply (initialize_resumed next w' (ent_states w')).
    + done.
Qed.

Lemma main_outcomes_witness :
  (ent_states (main (sample_env no_items_E2 None) sample_entities
                 (mkWorld ∅ None empty_accum ∅ [])).2 = ∅
   ∧ rec_file (main (sample_env no_items_E2 None) sample_entities
                 (mkWorld ∅ None empty_accum ∅ [])).2 = Some ∅)
  ∧ ∃ w2,
      initialize ["E3"]
        (main (sample_env all_exported None) sample_entities
           recovered_world).2
      = (Ok true, w2)
      ∧ ent_states w2
        = ent_states (main (sample_env all_exported None) sample_entities
                        recovered_world).2.
Proof.
  split.
  - apply (main_outcomes (sample_env no_items_E2 None) sample_entities
             (mkWorld ∅ None empty_accum ∅ []) _ _ (surjective_pairing _));
      [done | by vm_compute].
  - apply (main_outcomes (sample_env all_exported None) sample_entities
             recovered_world _ _ (surjective_pairing _)); [done|].
    by vm_compute.
Defined.

(** ** A run resumed with an entity the recovery file does not know *)

Lemma get_entity_state_unknown (ent key : string) (w : World) :
  ¬ has_entity w ent → get_entity_state ent key w = (Raise (KeyError ent), w).
Proof.
  unfold has_entity, get_entity_state. intros Hno.
  destruct (ent_states w !! ent) as [st|] eqn:E; [|done].
  destruct Hno. by eexists.
Qed.

Lemma export_fbl5n_body_next env ent cocd a w c w' :
  export_fbl5n_body env ent cocd a w = (Ok c, w') → ∃ a', c = Next a'.
Proof. unfold export_fbl5n_body. intros H. py_inv; eauto. Qed.

Lemma export_fbl5n_body_unknown env ent cocd a w :
  ¬ has_entity w ent →
  export_fbl5n_body env ent cocd a w = (Raise (KeyError ent), w).
Proof.
  intros Hno. unfold export_fbl5n_body.
  by rewrite (bind_raise _ _ _ _ _ (get_entity_state_unknown ent _ w Hno)).
Qed.

Lemma unknown_entity_body env e s ent cocd a :
  preserves (λ w, ¬ has_entity w e) (stage_body env s ent cocd a).
Proof.
  apply stage_body_preserves_writes.
  - intros new w. by rewrite has_entity_add_calls.
  - intros ent' key d w. by rewrite has_entity_put_accum.
  - intros kind ent' d w. by rewrite has_entity_put_file.
  - intros ent' key v w Hent Hno. unfold has_entity, put_state. cbn.
    destruct (decide (e = ent')) as [->|He]; [done|].
    by rewrite lookup_insert_ne.
Qed.

Lemma export_fbl5n_loop_unknown env ent cocd entits a w :
  ¬ has_entity w ent → (ent, cocd) ∈ entits →
  ∃ e w', mloop (λ p, export_fbl5n_body env p.1 p.2) entits a w
          = (Raise e, w').
Proof.
  revert a w. induction entits as [|[e' c'] entits IH]; intros a w Hno Hin.
  { by apply elem_of_nil in Hin. }
  cbn [mloop fst snd].
  destruct (decide (e' = ent)) as [->|He].
  { eexists _, _. apply bind_raise. by apply export_fbl5n_body_unknown. }
  apply elem_of_cons in Hin as [[= ? ?]|Hin]; [done|].
  destruct (export_fbl5n_body env e' c' a w) as [[c|e] w1] eqn:Hbody.
  - destruct (export_fbl5n_body_next _ _ _ _ _ _ _ Hbody) as [a' ->].
    rewrite (bind_ok _ _ _ _ _ Hbody).
    apply IH; [|done].
    exact (unknown_entity_body env ent LedgerExport e' c' a _ _ _ Hbody Hno).
  - eexists _, _. by apply bind_raise.
Qed.

(** X7. A run resumed from a recovery file that holds states, for
    entities of which one is not in the file: the file is taken as it is,
    the first read of a checkpoint of that entity raises [KeyError]
    during the export of the ledger data, the error is caught, and the
    run logs out and returns 4. *)
Theorem resume_with_unknown_entity (env : Env)
    (entits : list (string * string)) (ent cocd : string)
    (saved : gmap string (gmap string bool)) (w : World) :
  rec_file w = Some saved → saved ≠ ∅ → saved !! ent = None →
  (ent, cocd) ∈ entits →
  ∃ w3, main env entits w = (Ok 4, add_calls [SessionCall "sap.logout"] w3).
Proof.
  intros Hfile Hne Hent Hin.
  assert (entits ≠ []) as Hnil by (intros ->; by apply elem_of_nil in Hin).
  rewrite main_unfold by done. unfold initialize_recovery.
  rewrite (bind_ok _ _ _ _ _
             (bind_ok _ _ _ _ _
                (initialize_resumed entits.*1 w saved Hfile Hne))).
  cbn [negb]. unfold after_initialize.
  set (w1 := set_states saved (Some saved) w).
  destruct (export_fbl5n_loop_unknown env ent cocd entits false
              (add_calls [SessionCall "sap.login"] w1)) as (e & w2 & Hloop);
    [|done|].
  { rewrite has_entity_add_calls. unfold has_entity, w1. cbn.
    rewrite Hent. by intros [? [=]]. }
  assert (export_fbl5n_data env entits
            (add_calls [SessionCall "sap.login"] w1) = (Raise e, w2)) as Hexp.
  { unfold export_fbl5n_data, loop_result. by apply bind_raise. }
  exists w2. unfold mbind at 1, Py_bind at 1, call. cbn.
  change (set_calls (calls w1 ++ [SessionCall "sap.login"]) w1)
    with (add_calls [SessionCall "sap.login"] w1).
  unfold mbind at 1, Py_bind at 1, try_except.
  rewrite (bind_raise _ _ _ _ _ Hexp). done.
Qed.

Lemma resume_with_unknown_entity_witness :
  ∃ w3, main (sample_env all_exported None) [("E1", "C1"); ("E3", "C1")]
          replay_world
        = (Ok 4, add_calls [SessionCall "sap.logout"] w3).
Proof.
  apply (resume_with_unknown_entity (sample_env all_exported None)
           [("E1", "C1"); ("E3", "C1")] "E3" "C1" _ replay_world eq_refl).
  - intros H. apply (f_equal (λ m : gmap string (gmap string bool),
                                bool_decide (is_Some (m !! "E1")))) in H.
    revert H. by vm_compute.
  - by vm_compute.
  - set_solver.
Defined.

(** ** What a pass leaves alone *)

Lemma is_Some_get_state_put_state ent key v w e k :
  is_Some (get_state w e k) → is_Some (get_state (put_state ent key v w) e k).
Proof.
  intros H. destruct (decide (e = ent)) as [->|He].
  - destruct (decide (k = key)) as [->|Hk].
    + by rewrite get_state_put_state.
    + by rewrite get_state_put_state_key.
  - by rewrite get_state_put_state_ent.
Qed.

(** X8. The pass of any stage over an entity does not change a
    checkpoint of another entity, removes no checkpoint, and leaves every
    checkpoint of the entity that is true as it is, [f30_items_cleared]
    excepted. *)
Theorem pass_keeps_checkpoints (env : Env) (s : Stage) (ent cocd : string)
    (a : bool) (w : World) (r : result (ctl bool bool)) (w' : World) :
  stage_body env s ent cocd a w = (r, w') →
  (∀ e k, e ≠ ent → get_state w' e k = get_state w e k)
  ∧ (∀ e k, is_Some (get_state w e k) → is_Some (get_state w' e k))
  ∧ (∀ k, k ≠ "f30_items_cleared" →
       get_state w ent k = Some true → get_state w' ent k = Some true).
Proof.
  intros Hrun.
  assert (∀ e k, is_Some (get_state w e k) → is_Some (get_state w' e k))
    as Hsome.
  { intros e k.
    apply (stage_body_preserves_writes env
             (λ w, is_Some (get_state w e k))) with s ent cocd a r; [..|done].
    - intros new w0. by rewrite get_state_add_calls.
    - intros ent' key d w0. by rewrite get_state_put_accum.
    - intros kind ent' d w0. by rewrite get_state_put_file.
    - intros ent' key v w0 _. apply is_Some_get_state_put_state. }
  destruct (stage_body_frame _ _ _ _ _ _ _ _ Hrun) as (_ & _ & Hkept & Hloc).
  split; [done|]. split; [done|].
  intros k Hk Htrue.
  destruct (Hsome ent k) as [[|] Hb]; [by rewrite Htrue|done|].
  destruct (Hkept ent k Hk); [by rewrite Htrue|done].
Qed.

Lemma pass_keeps_checkpoints_witness :
  (∀ e k, e ≠ "E1" →
     get_state (generate_input_body (sample_env all_exported None) "E1" "C1"
                  false (consolidation_world two_items)).2 e k
     = get_state (consolidation_world two_items) e k)
  ∧ (∀ e k, is_Some (get_state (consolidation_world two_items) e k) →
       is_Some (get_state
                  (generate_input_body (sample_env all_exported None) "E1"
                     "C1" false (consolidation_world two_items)).2 e k))
  ∧ (∀ k, k ≠ "f30_items_cleared" →
       get_state (consolidation_world two_items) "E1" k = Some true →
       get_state (generate_input_body (sample_env all_exported None) "E1" "C1"
                    false (consolidation_world two_items)).2 "E1" k
       = Some true).
Proof.
  exact (pass_keeps_checkpoints (sample_env all_exported None) Evaluation
           "E1" "C1" false (consolidation_world two_items) _ _
           (surjective_pairing _)).
Defined.

(** ** The output of the clearing *)

(** An entry of the clearing output that is marked cleared carries the
    number of the posting of its currency. *)
Definition posted_entry (env : Env) (ent : string)
    (cp : string * CurrencyParams) : Prop :=
  Cleared cp.2 = true →
  ∃ n, f30_post_items env ent cp.1 = Posted n
       ∧ Posting_Number cp.2 = Some n
       ∧ F30_Clearing_Status cp.2 = "Item cleared.".

Lemma clear_currency_entry env ent cocd acc cp w out w' :
  Cleared cp.2 = false →
  clear_currency env ent cocd acc cp w = (Ok out, w') →
  ∃ cp', out.1 = acc.1 ++ [cp'] ∧ cp'.1 = cp.1
    ∧ posted_entry env ent cp'
    ∧ out.2 = acc.2 || Cleared cp'.2
    ∧ records cp'.2 = mark_skipped (records cp.2)
    ∧ Matched_Count cp'.2 = Matched_Count cp.2.
Proof.
  intros Hcl. unfold clear_currency. intros H. py_inv.
  all: eexists; (split; [reflexivity|]); cbn [fst snd].
  all: split; [done|]; (split; [|split; [|done]]).
  all: unfold posted_entry; cbn [fst snd Cleared set_cleared set_records
                                  set_posting_number Posting_Number
                                  F30_Clearing_Status].
  all: try (intros ?; congruence).
  all: try by rewrite ?Hcl, ?orb_false_r, ?orb_true_r.
  all: intros _; eexists; split; [eassumption|done].
Qed.

(** X9. The loop of [clear_open_items] over the currencies of an entity,
    for a clearing input in which no currency is marked cleared (as
    [create_clearing_input] builds it). When the loop ends without an
    exception, the output has the currencies of the input in their order
    and keeps the number of matched items of each; a currency is marked
    cleared only when its posting succeeded, and then carries the
    posting number; and [posted], the value saved as [f30_items_cleared],
    is true exactly when some currency is marked cleared. *)
Theorem clearing_output_entries (env : Env) (ent cocd : string)
    (input : list (string * CurrencyParams)) (w : World)
    (out : list (string * CurrencyParams) * bool) (w' : World) :
  Forall (λ cp, Cleared cp.2 = false) input →
  mfoldl (clear_currency env ent cocd) ([], false) input w = (Ok out, w') →
  Forall2 (λ cp cp', cp'.1 = cp.1
                     ∧ records cp'.2 = mark_skipped (records cp.2)
                     ∧ Matched_Count cp'.2 = Matched_Count cp.2)
    input out.1
  ∧ Forall (posted_entry env ent) out.1
  ∧ (out.2 = true ↔ ∃ cp', cp' ∈ out.1 ∧ Cleared cp'.2 = true).
Proof.
  intros Hall.
  enough (∀ acc,
            Forall (posted_entry env ent) acc.1 →
            (acc.2 = true ↔ ∃ cp', cp' ∈ acc.1 ∧ Cleared cp'.2 = true) →
            mfoldl (clear_currency env ent cocd) acc input w = (Ok out, w') →
            (∃ new, out.1 = acc.1 ++ new
               ∧ Forall2 (λ cp cp', cp'.1 = cp.1
                            ∧ records cp'.2 = mark_skipped (records cp.2)
                            ∧ Matched_Count cp'.2 = Matched_Count cp.2)
                   input new)
            ∧ Forall (posted_entry env ent) out.1
            ∧ (out.2 = true ↔ ∃ cp', cp' ∈ out.1 ∧ Cleared cp'.2 = true))
    as Hgen.
  { intros Hrun.
    destruct (Hgen ([], false)) as ((new & Hnew & Hf2) & Hposted & Hiff);
      [by constructor| |done|].
    - cbn. split; [done|]. by intros (? & ?%elem_of_nil & _).
    - cbn in Hnew. by rewrite <- Hnew in Hf2. }
  revert w.
  induction Hall as [|cp input Hcp _ IH]; intros w acc Hacc Hiff.
  - cbn. intros [= <- <-]. split; [|done]. exists []. by rewrite app_nil_r.
  - cbn [mfoldl].
    intros [(out1 & w1 & H1 & H2)|(? & _ & [=])]%bind_inv.
    apply (clear_currency_entry _ _ _ _ _ _ _ _ Hcp) in H1
      as (cp' & Hout1 & Hkey & Hpost & Hflag & Hrec & Hcount).
    apply IH in H2 as ((new & Hnew & Hf2) & Hposted & Hiff').
    + split; [|done]. exists (cp' :: new).
      rewrite Hnew, Hout1, <- app_assoc. split; [done|]. by constructor.
    + rewrite Hout1. apply Forall_app. split; [done|]. by constructor.
    + rewrite Hflag, Hout1, orb_true_iff, Hiff. split.
      * intros [(c & Hin & Hc)|Hc].
        -- exists c. split; [|done]. apply elem_of_app. by left.
        -- exists cp'. split; [|done]. apply elem_of_app. right. by left.
      * intros (c & [Hin|Hin]%elem_of_app & Hc); [left; by exists c|].
        right. apply list_elem_of_singleton in Hin. by subst.
Qed.

(** A state with no checkpoints, data or calls. *)
Definition bare_world : World := mkWorld ∅ None ∅ ∅ [].

Lemma clearing_output_entries_witness :
  Forall2 (λ cp cp', cp'.1 = cp.1
                     ∧ records cp'.2 = mark_skipped (records cp.2)
                     ∧ Matched_Count cp'.2 = Matched_Count cp.2)
    (currency_input false)
    [("EUR", mkCurrencyParams [(7, clearing_record false)] "Item cleared."
               [] [7] (Some 555) true 2)]
  ∧ Forall (posted_entry (sample_env all_exported None) "E1")
      [("EUR", mkCurrencyParams [(7, clearing_record false)] "Item cleared."
                 [] [7] (Some 555) true 2)]
  ∧ (true = true ↔
     ∃ cp', cp' ∈ [("EUR", mkCurrencyParams [(7, clearing_record false)]
                             "Item cleared." [] [7] (Some 555) true 2)]
            ∧ Cleared cp'.2 = true).
Proof.
  apply (clearing_output_entries (sample_env all_exported None) "E1" "C1"
           (currency_input false) bare_world
           ([("EUR", mkCurrencyParams [(7, clearing_record false)]
                       "Item cleared." [] [7] (Some 555) true 2)], true)
           (add_calls [F30LoadItems "E1" "EUR"; F30SelectAndTransfer "E1" "EUR";
                       F30PostItems "E1" "EUR"] bare_world)).
  - by repeat constructor.
  - vm_compute. reflexivity.
Defined.

(** ** The calls of the closing stages *)

Lemma only_calls_weaken (P Q : Call → Prop) {A} (m : Py World A) :
  (∀ c, P c → Q c) → only_calls P m → only_calls Q m.
Proof.
  intros HPQ Hm w r w' (new & -> & Hall)%Hm. exists new. split; [done|].
  by eapply Forall_impl.
Qed.

Lemma only_calls_mfoldl_elem (P : Call → Prop) {A B}
    (f : B → A → Py World B) (xs : list A) (b : B) :
  (∀ b x, x ∈ xs → only_calls P (f b x)) → only_calls P (mfoldl f b xs).
Proof.
  revert b. induction xs as [|x xs IH]; intros b Hf; cbn [mfoldl].
  - apply only_calls_ret.
  - apply only_calls_bind; [apply Hf; by left|].
    intros b'. apply IH. intros b0 y Hy. apply Hf. by right.
Qed.

Lemma only_calls_mloop_elem (P : Call → Prop) {X A R}
    (body : X → A → Py World (ctl A R)) (xs : list X) (a : A) :
  (∀ x a, x ∈ xs → only_calls P (body x a)) → only_calls P (mloop body xs a).
Proof.
  revert a. induction xs as [|x xs IH]; intros a Hf; cbn [mloop].
  - apply only_calls_ret.
  - apply only_calls_bind; [apply Hf; by left|].
    intros [a'|r]; [|apply only_calls_ret].
    apply IH. intros y a0 Hy. apply Hf. by right.
Qed.

(** A call that closes a case of a record that is not excluded, in a
    currency that was cleared; or a session call. *)
Definition closes_cleared_case (ent : string)
    (co : list (string * CurrencyParams)) (c : Call) : Prop :=
  stage_of c = None
  ∨ ∃ cp p case,
      cp ∈ co ∧ Cleared cp.2 = true ∧ p ∈ records cp.2
      ∧ Skipped p.2 = false ∧ case ∈ rec_Case_IDs p.2
      ∧ c = DmsModifyCase ent case.

(** X10. The calls of the loop of [close_disputes] over the clearing
    output of an entity: every call to modify a case is for a case of a
    record that is not excluded, in a currency that was cleared.
    Currencies that were not cleared and excluded records cause no call.
    The loop saves no checkpoint and writes no file. *)
Theorem close_disputes_calls (env : Env) (ent : string)
    (co : list (string * CurrencyParams)) (w : World)
    (r : result (list (string * CurrencyParams))) (w' : World) :
  mfoldl (close_currency env ent) [] co w = (r, w') →
  ∃ new, calls w' = calls w ++ new
         ∧ Forall (closes_cleared_case ent co) new
         ∧ ent_states w' = ent_states w ∧ rec_file w' = rec_file w
         ∧ dump w' = dump w.
Proof.
  intros Hrun.
  assert (only_calls (closes_cleared_case ent co)
            (mfoldl (close_currency env ent) [] co)) as Hcalls;
    [|by destruct (Hcalls _ _ _ Hrun) as (new & -> & Hall); exists new].
  apply only_calls_mfoldl_elem. intros acc cp Hcp. unfold close_currency.
  destruct (Cleared cp.2) eqn:Hcl; cbn [negb]; [|apply only_calls_ret].
  apply only_calls_bind; [apply only_calls_get_from_accum|]. intros _.
  apply only_calls_bind; [|intros ?; apply only_calls_ret].
  apply only_calls_mfoldl_elem. intros recs p Hp. unfold close_record.
  destruct (Skipped p.2) eqn:Hsk; [apply only_calls_ret|].
  apply only_calls_bind; [|intros ?; apply only_calls_ret].
  apply only_calls_mfoldl_elem. intros record case Hcase. unfold close_case.
  apply only_calls_bind; [apply only_calls_of_result|]. intros _.
  apply only_calls_bind.
  { apply only_calls_call. right. by exists cp, p, case. }
  intros _. apply only_calls_bind; [|intros ?; apply only_calls_ret].
  case_bool_decide; [|apply only_calls_ret].
  apply only_calls_call. by left.
Qed.

Definition uncleared_output : list (string * CurrencyParams) :=
  [("EUR", mkCurrencyParams [(7, clearing_record false)] "ERROR: x." [] [7]
             None false 2);
   ("USD", mkCurrencyParams [(8, clearing_record true)] "Item cleared." []
             [8] (Some 556) true 1)].

Lemma close_disputes_calls_witness :
  ∃ new,
    calls (mfoldl (close_currency (sample_env all_exported None) "E1") []
             uncleared_output fresh_world).2 = calls fresh_world ++ new
    ∧ Forall (closes_cleared_case "E1" uncleared_output) new
    ∧ ent_states (mfoldl (close_currency (sample_env all_exported None) "E1")
                    [] uncleared_output fresh_world).2
      = ent_states fresh_world
    ∧ rec_file (mfoldl (close_currency (sample_env all_exported None) "E1")
                  [] uncleared_output fresh_world).2
      = rec_file fresh_world
    ∧ dump (mfoldl (close_currency (sample_env all_exported None) "E1")
              [] uncleared_output fresh_world).2
      = dump fresh_world.
Proof.
  exact (close_disputes_calls (sample_env all_exported None) "E1"
           uncleared_output fresh_world _ _ (surjective_pairing _)).
Defined.

(** The currencies of [uncleared_output] cause no call: one was not
    cleared, the only record of the other is excluded. *)
Example close_disputes_no_call :
  calls (mfoldl (close_currency (sample_env all_exported None) "E1") []
           uncleared_output
           (put_accum "E1" "matched_data" (Rows []) fresh_world)).2 = [].
Proof. by vm_compute. Qed.

(** A call of QM02 for the notification of a record that is not
    excluded, whose number does not start with 301 and whose root cause
    is not L06, in a currency that was cleared; the notification is
    completed only when the search found its tasks. *)
Definition closes_cleared_notification (env : Env) (ent : string)
    (dco : list (string * CurrencyParams)) (c : Call) : Prop :=
  stage_of c = None
  ∨ ∃ cp p,
      cp ∈ dco ∧ Cleared cp.2 = true ∧ p ∈ records cp.2
      ∧ Skipped p.2 = false
      ∧ startswith_301 (rec_Notification p.2) = false
      ∧ rec_Root_Cause p.2 ≠ "L06"
      ∧ (c = QmSearchNotification ent (rec_Notification p.2)
         ∨ (c = QmCompleteNotification ent (rec_Notification p.2)
            ∧ qm_search_notification env ent (rec_Notification p.2) = QmTasks)).

(** X11. The calls of the loop of [close_notifications] over the output
    of the dispute closing of an entity. Every call of QM02 is for the
    notification of a record that is not excluded, has a number that does
    not start with 301 and a root cause other than L06, in a currency
    that was cleared; and a notification is completed only after the
    search found its tasks. The loop saves no checkpoint and writes no
    file. *)
Theorem close_notifications_calls (env : Env) (ent : string)
    (dco : list (string * CurrencyParams)) (w : World)
    (r : result (ctl (list (string * CurrencyParams)) bool)) (w' : World) :
  mloop (close_notification_currency env ent) dco [] w = (r, w') →
  ∃ new, calls w' = calls w ++ new
         ∧ Forall (closes_cleared_notification env ent dco) new
         ∧ ent_states w' = ent_states w ∧ rec_file w' = rec_file w
         ∧ dump w' = dump w.
Proof.
  intros Hrun.
  assert (only_calls (closes_cleared_notification env ent dco)
            (mloop (close_notification_currency env ent) dco [])) as Hcalls;
    [|by destruct (Hcalls _ _ _ Hrun) as (new & -> & Hall); exists new].
  apply only_calls_mloop_elem. intros cp acc Hcp.
  unfold close_notification_currency.
  destruct (Cleared cp.2) eqn:Hcl; cbn [negb]; [|apply only_calls_ret].
  apply only_calls_bind.
  2:{ intros [?|?]; apply only_calls_ret. }
  apply only_calls_mloop_elem. intros p recs Hp.
  unfold close_notification_record.
  destruct (Skipped p.2) eqn:Hsk; [apply only_calls_ret|].
  destruct (startswith_301 _) eqn:H301; [apply only_calls_ret|].
  case_bool_decide as Hl06; [apply only_calls_ret|].
  apply only_calls_bind.
  { apply only_calls_call. right. exists cp, p. by eauto 10. }
  intros _.
  destruct (qm_search_notification _ _ _) eqn:Hsearch;
    try apply only_calls_ret; try apply only_calls_throw.
  apply only_calls_bind.
  { apply only_calls_call. right. exists cp, p. by eauto 10. }
  intros _. destruct (qm_complete_notification _ _ _); [apply only_calls_ret|].
  apply only_calls_bind; [|intros ?; apply only_calls_ret].
  apply only_calls_call. by left.
Qed.

Lemma close_notifications_calls_witness :
  ∃ new,
    calls (mloop (close_notification_currency (sample_env all_exported None)
                    "E1") uncleared_output [] fresh_world).2
    = calls fresh_world ++ new
    ∧ Forall (closes_cleared_notification (sample_env all_exported None) "E1"
                uncleared_output) new
    ∧ ent_states (mloop (close_notification_currency
                           (sample_env all_exported None) "E1")
                    uncleared_output [] fresh_world).2
      = ent_states fresh_world
    ∧ rec_file (mloop (close_notification_currency
                         (sample_env all_exported None) "E1")
                  uncleared_output [] fresh_world).2
      = rec_file fresh_world
    ∧ dump (mloop (close_notification_currency
                     (sample_env all_exported None) "E1")
              uncleared_output [] fresh_world).2
      = dump fresh_world.
Proof.
  exact (close_notifications_calls (sample_env all_exported None) "E1"
           uncleared_output fresh_world _ _ (surjective_pairing _)).
Defined.

(** ** The assertion of [evaluate_items] *)

(** X12. [evaluate_items] on a frame either returns a new frame or raises
    the assertion on the threshold, and it raises exactly when some
    identifier that occurs more than once has a group whose threshold
    (the threshold of the group's tax code, or else the base threshold,
    0.01 for 0) is -1. Whatever the outcome, the input frame is not
    changed. In particular a frame without a repeated identifier is
    evaluated whatever the thresholds. *)
Theorem evaluate_items_assertion (sum : list float → float)
    (consolid : positive) (b : float) (t : gmap string float)
    (h : gmap positive (list Row)) (rows : list Row) :
  h !! consolid = Some rows →
  ((evaluate_items sum consolid b t h).1
     = Raise (AssertionError "Invalid threshold value!")
   ∨ ∃ data, (evaluate_items sum consolid b t h).1 = Ok data)
  ∧ ((evaluate_items sum consolid b t h).1
       = Raise (AssertionError "Invalid threshold value!")
     ↔ ∃ i, is_dup_id rows i = true
            ∧ (group_threshold (effective_base b) t (id_recs_of i rows)
               =? -1)%float = true)
  ∧ (evaluate_items sum consolid b t h).2 !! consolid = Some rows.
Proof.
  intros Hd.
  destruct (evaluate_items_run sum consolid b t h rows Hd) as (cur & -> & _).
  cbn [fst snd].
  assert (all_valid b t rows = false
          ↔ ∃ i, is_dup_id rows i = true
                 ∧ (group_threshold (effective_base b) t (id_recs_of i rows)
                    =? -1)%float = true) as Hiff.
  { unfold all_valid, groups_valid.
    rewrite <- not_true_iff_false, forallb_forall. split.
    - intros Hnot.
      destruct (existsb (λ i, negb (group_valid (effective_base b) t
                                      (id_recs_of i rows))) (dup_ids rows))
        eqn:Hex.
      + apply existsb_exists in Hex as (i & Hi & Hv).
        exists i. split.
        * apply elem_of_dup_ids. by apply list_elem_of_In.
        * unfold group_valid in Hv. by rewrite negb_involutive in Hv.
      + destruct Hnot. intros i Hi.
        destruct (group_valid _ _ _) eqn:Hv; [done|].
        assert (existsb (λ i, negb (group_valid (effective_base b) t
                                      (id_recs_of i rows))) (dup_ids rows)
                = true) as Habs; [|congruence].
        apply existsb_exists. exists i. by rewrite Hv.
    - intros (i & Hi & Heq) Hall.
      apply elem_of_dup_ids, list_elem_of_In in Hi.
      specialize (Hall i Hi). unfold group_valid in Hall.
      apply negb_true_iff in Hall.
      unfold INVALID_THRESHOLD in Hall. congruence. }
  split; [|split].
  - destruct (all_valid b t rows); [right; by eexists | by left].
  - rewrite <- Hiff. destruct (all_valid b t rows); split; done.
  - rewrite lookup_insert_ne; [done|].
    intros Heq. apply (is_fresh (dom h)). rewrite Heq. by apply elem_of_dom.
Qed.

Lemma evaluate_items_assertion_witness :
  ((evaluate_items sequential_sum 1%positive 1 {[ "A1" := (-1)%float ]} sample_heap).1
     = Raise (AssertionError "Invalid threshold value!")
   ∨ ∃ data,
       (evaluate_items sequential_sum 1%positive 1 {[ "A1" := (-1)%float ]} sample_heap).1
       = Ok data)
  ∧ ((evaluate_items sequential_sum 1%positive 1 {[ "A1" := (-1)%float ]} sample_heap).1
       = Raise (AssertionError "Invalid threshold value!")
     ↔ ∃ i, is_dup_id sample_rows i = true
            ∧ (group_threshold (effective_base 1) {[ "A1" := (-1)%float ]}
                 (id_recs_of i sample_rows) =? -1)%float = true)
  ∧ (evaluate_items sequential_sum 1%positive 1 {[ "A1" := (-1)%float ]} sample_heap).2
      !! 1%positive = Some sample_rows.
Proof.
  apply (evaluate_items_assertion sequential_sum 1%positive 1 {[ "A1" := (-1)%float ]}
           sample_heap sample_rows).
  by vm_compute.
Defined.

(** ** The merges of [consolidate] *)

Lemma elem_of_imap_row {A} (g : nat → A → Row) (l : list A) (r : Row) :
  r ∈ imap g l ↔ ∃ k x, l !! k = Some x ∧ r = g k x.
Proof.
  rewrite list_elem_of_lookup. split.
  - intros (k & Hk). rewrite list_lookup_imap in Hk.
    destruct (l !! k) as [x|] eqn:Hx; [|done]. injection Hk as <-.
    by exists k, x.
  - intros (k & x & Hx & ->). exists k. by rewrite list_lookup_imap, Hx.
Qed.

Lemma elem_of_join_cases (d : list Case) (i : Item) (p : Item * option Case) :
  p ∈ join_cases d i ↔
  p.1 = i ∧ match p.2 with
            | Some c => c ∈ d ∧ ID i = Some (Case_ID c)
            | None => ∀ c, c ∈ d → ID i ≠ Some (Case_ID c)
            end.
Proof.
  unfold join_cases.
  destruct (filter (λ c, ID i = Some (Case_ID c)) d) as [|c0 cs] eqn:Hf.
  - rewrite list_elem_of_singleton. split.
    + intros ->. split; [done|]. cbn. intros c Hc Hid.
      assert (c ∈ filter (λ c, ID i = Some (Case_ID c)) d) as Hin
        by by apply list_elem_of_filter.
      rewrite Hf in Hin. by apply elem_of_nil in Hin.
    + destruct p as [i' [c|]]; cbn.
      * intros [-> [Hc Hid]].
        assert (c ∈ filter (λ c, ID i = Some (Case_ID c)) d) as Hin
          by by apply list_elem_of_filter.
        rewrite Hf in Hin. by apply elem_of_nil in Hin.
      * by intros [-> _].
  - rewrite <- Hf. rewrite list_elem_of_fmap. split.
    + intros (c & -> & [Hid Hc]%list_elem_of_filter). by cbn.
    + destruct p as [i' [c|]]; cbn.
      * intros [-> [Hc Hid]]. exists c. split; [done|].
        by apply list_elem_of_filter.
      * intros [-> Hno]. exfalso.
        assert (c0 ∈ filter (λ c, ID i = Some (Case_ID c)) d) as Hin
          by (rewrite Hf; by left).
        apply list_elem_of_filter in Hin as [Hid Hc]. by apply (Hno c0).
Qed.

Lemma join_cases_not_nil (d : list Case) (i : Item) : join_cases d i ≠ [].
Proof.
  unfold join_cases. by destruct (filter _ d).
Qed.

Lemma elem_of_concat {A} (x : A) (ls : list (list A)) :
  x ∈ concat ls ↔ ∃ l, l ∈ ls ∧ x ∈ l.
Proof.
  rewrite list_elem_of_In, in_concat. split.
  - intros (l & Hl & Hx). exists l. by rewrite !list_elem_of_In.
  - intros (l & Hl & Hx). exists l. by rewrite <- !list_elem_of_In.
Qed.

Lemma elem_of_merge_cases (f : list Item) (d : list Case) (r : Row) :
  r ∈ merge_cases f d →
  ∃ i, i ∈ f ∧ (item r, dms r) ∈ join_cases d i ∧ cust r = None.
Proof.
  unfold merge_cases. intros (k & p & Hk & ->)%elem_of_imap_row.
  apply list_elem_of_lookup_2, elem_of_concat in Hk as (ps & Hps & Hp).
  apply list_elem_of_fmap in Hps as (i & -> & Hi).
  exists i. cbn. by destruct p.
Qed.

Lemma merge_cases_item (f : list Item) (d : list Case) (i : Item) :
  i ∈ f → ∃ r, r ∈ merge_cases f d ∧ item r = i.
Proof.
  intros Hi. destruct (join_cases d i) as [|p ps] eqn:Hj.
  { by destruct (join_cases_not_nil d i). }
  assert (p ∈ join_cases d i) as Hp by (rewrite Hj; by left).
  assert (p ∈ concat (map (join_cases d) f)) as Hin.
  { apply elem_of_concat. exists (join_cases d i). split; [|done].
    apply list_elem_of_fmap. by exists i. }
  apply list_elem_of_lookup in Hin as (k & Hk).
  exists (mkRow k p.1 p.2 None). split.
  - unfold merge_cases. apply elem_of_imap_row. by exists k, p.
  - cbn. by apply elem_of_join_cases in Hp as [-> _].
Qed.

Lemma merge_cases_nil (f : list Item) (d : list Case) :
  merge_cases f d = [] ↔ f = [].
Proof.
  split.
  - intros Hm. destruct f as [|i f]; [done|].
    destruct (merge_cases_item (i :: f) d i) as (r & Hr & _); [by left|].
    rewrite Hm in Hr. by apply elem_of_nil in Hr.
  - by intros ->.
Qed.

Lemma forallb_false_elem {A} (p : A → bool) (l : list A) :
  forallb p l = false ↔ ∃ x, x ∈ l ∧ p x = false.
Proof.
  induction l as [|y l IH]; cbn.
  - split; [done|]. by intros (x & Hx%elem_of_nil & _).
  - rewrite andb_false_iff, IH. split.
    + intros [Hy|(x & Hx & Hp)]; [exists y|exists x]; split; try done;
        [left|by right].
    + intros (x & [->|Hx]%elem_of_cons & Hp); [by left|right; by exists x].
Qed.

(** The head office of a row of the merge is that of a ledger item. *)
Lemma merge_cases_head_offices (f : list Item) (d : list Case)
    (p : head_office → bool) :
  (∃ r, r ∈ merge_cases f d ∧ p (Head_Office (item r)) = false)
  ↔ ∃ i, i ∈ f ∧ p (Head_Office i) = false.
Proof.
  split.
  - intros (r & (i & Hi & Hj & _)%elem_of_merge_cases & Hp).
    apply elem_of_join_cases in Hj as [Heq _]. cbn in Heq.
    exists i. split; [done|]. by rewrite <- Heq.
  - intros (i & Hi & Hp).
    destruct (merge_cases_item f d i Hi) as (r & Hr & Heq).
    exists r. by rewrite Heq.
Qed.

(** pandas refuses the merge with the customer table when the table has
    lines and no ledger item has a numeric head office. *)
Lemma keys_incompatible_merge_cases (f : list Item) (d : list Case)
    (c : list Customer) :
  f ≠ [] →
  keys_incompatible (merge_cases f d) c = false
  ↔ c = [] ∨ ∃ i, i ∈ f ∧ HO_is_text (Head_Office i) = false.
Proof.
  intros Hf. rewrite <- (merge_cases_head_offices f d HO_is_text).
  rewrite <- (forallb_false_elem (λ r, HO_is_text (Head_Office (item r)))).
  unfold keys_incompatible.
  destruct (merge_cases f d) as [|r m] eqn:Hm.
  { by apply merge_cases_nil in Hm. }
  destruct c as [|k c]; [by split; [left|]|].
  split; [by right|]. by intros [?|?].
Qed.

(** X13. The left merge of the ledger items with the cases. The rows are
    numbered from 0; every ledger item is in at least one row and every
    row is a ledger item; the case of a row is a case with the item's
    identifier, and a row has no case only when no case has the item's
    identifier; no row has a customer yet. So the merge has no rows
    exactly when there are no ledger items. [consolidate] raises in two
    cases only: the assertion error when there are no ledger items, and
    the error of the merge with the customer data when there are ledger
    items, the customer table has lines and no ledger item has a numeric
    head office. *)
Theorem merge_cases_left_join (str_findall : string → list string)
    (re_findall_ints : string → list Z) (f : list Item) (d : list Case)
    (customers : option (list Customer)) (valid_taxes : list string) :
  label <$> merge_cases f d = seq 0 (length (merge_cases f d))
  ∧ (∀ i, i ∈ f ↔ ∃ r, r ∈ merge_cases f d ∧ item r = i)
  ∧ (∀ r, r ∈ merge_cases f d →
       cust r = None
       ∧ match dms r with
         | Some c => c ∈ d ∧ ID (item r) = Some (Case_ID c)
         | None => ∀ c, c ∈ d → ID (item r) ≠ Some (Case_ID c)
         end)
  ∧ (merge_cases f d = [] ↔ f = [])
  ∧ (∀ e, consolidate str_findall re_findall_ints f d customers valid_taxes
          = Raise e
          ↔ (f = [] ∧ e = unmerged)
            ∨ (f ≠ [] ∧ e = merge_key_error
               ∧ ∃ c, customers = Some c ∧ c ≠ []
                      ∧ ∀ i, i ∈ f → HO_is_text (Head_Office i) = true)).
Proof.
  pose proof (merge_cases_nil f d) as Hnil.
  split; [|split; [|split; [|split; [done|]]]].
  - unfold merge_cases. rewrite fmap_imap, length_imap.
    rewrite (imap_seq_0 _ (λ k, k)). by rewrite list_fmap_id.
  - intros i. split; [apply merge_cases_item|].
    intros (r & (i' & Hi' & Hj & _)%elem_of_merge_cases & <-).
    apply elem_of_join_cases in Hj as [Heq _]. cbn in Heq. by rewrite Heq.
  - intros r (i & Hi & Hj & Hc)%elem_of_merge_cases. split; [done|].
    apply elem_of_join_cases in Hj as [Heq Hcase]. cbn in Heq, Hcase.
    by rewrite Heq.
  - intros e. unfold consolidate. case_bool_decide as Hlen.
    + assert (f ≠ []) as Hf.
      { intros ->. cbn in Hlen. lia. }
      pose proof (keys_incompatible_merge_cases f d) as Hkeys.
      unfold enrich, merge_customers. split.
      * destruct customers as [c|]; [|done].
        destruct (keys_incompatible _ c) eqn:Hk.
        2:{ by destruct (existsb _ _). }
        intros [= <-]. right. split; [done|]. split; [done|].
        exists c. split; [done|]. split.
        { intros ->. by destruct (merge_cases f d). }
        intros i Hi. apply not_false_iff_true. intros Hnum.
        assert (keys_incompatible (merge_cases f d) c = false) as Hk';
          [|congruence].
        apply Hkeys; [done|]. right. by exists i.
      * intros [[-> _]|(_ & -> & c & -> & Hc & Htext)]; [by destruct Hf|].
        destruct (keys_incompatible _ c) eqn:Hk; [done|].
        apply (proj1 (Hkeys c Hf)) in Hk as [->|(i & Hi & Hnum)];
          [by destruct Hc|].
        by rewrite (Htext i Hi) in Hnum.
    + assert (merge_cases f d = []) as Hm.
      { destruct (merge_cases f d); [done|]. cbn in Hlen. lia. }
      apply Hnil in Hm. split; [intros [= <-]; by left|].
      by intros [[_ ->]|[? _]].
Qed.

(** Two ledger items whose head offices are text, with a customer table:
    the merge with the table is refused. *)
Example text_head_offices_not_merged :
  consolidate sample_findall sample_findall_ints
    [mkItem 1 "" "DZ" "" "" 100 "EUR" "A1" "" 1 (HO_text "X1") false false
       false "" None (Some 7);
     mkItem 2 "" "DZ" "" "" (-100) "EUR" "A1" "" 1 (HO_text "X2") false false
       false "" None (Some 7)]
    [dispute 7] (Some other_customers) ["A1"]
  = Raise merge_key_error.
Proof. by vm_compute. Qed.

From Stdlib Require Import Sorted.

(** ** The order of the consolidated data *)

(** The row comes before or beside the other: its identifier is not
    smaller, and a row without identifier comes after the rows that have
    one. *)
Definition ID_ordered (a b : Row) : Prop :=
  ID_before (row_ID a) (row_ID b) = true.

Lemma ID_before_total (a b : option Z) :
  ID_before a b = false → ID_before b a = true.
Proof. destruct a, b; cbn; try done. intros H. lia. Qed.

Lemma ID_before_trans (a b c : option Z) :
  ID_before a b = true → ID_before b c = true → ID_before a c = true.
Proof. destruct a, b, c; cbn; try done. lia. Qed.

Lemma insert_row_elem (r x : Row) (l : list Row) :
  x ∈ insert_row r l → x = r ∨ x ∈ l.
Proof.
  intros Hx. apply (elem_of_Permutation_proper _ _ _ (insert_row_perm r l))
    in Hx. by apply elem_of_cons in Hx.
Qed.

Lemma insert_row_sorted (r : Row) (l : list Row) :
  StronglySorted ID_ordered l → StronglySorted ID_ordered (insert_row r l).
Proof.
  induction 1 as [|r' l Hl IH Hall]; cbn.
  - by repeat constructor.
  - destruct (ID_before (row_ID r) (row_ID r')) eqn:Hb.
    + constructor; [by constructor|]. constructor; [done|].
      eapply Forall_impl; [exact Hall|]. intros x Hx.
      by eapply ID_before_trans.
    + constructor; [done|]. apply Forall_forall.
      intros x [->|Hx]%insert_row_elem.
      * by apply ID_before_total.
      * by apply (proj1 (Forall_forall _ _) Hall).
Qed.

(** X14. [_order_data] returns the rows of its input, each as often as it
    occurs there, ordered by identifier from the largest to the smallest,
    the rows without identifier last. *)
Theorem order_data_sorted (data : list Row) :
  _order_data data ≡ₚ data ∧ StronglySorted ID_ordered (_order_data data).
Proof.
  split; [apply order_data_perm|].
  induction data as [|r data IH]; [constructor|].
  unfold _order_data in *. cbn [foldr]. by apply insert_row_sorted.
Qed.

(** ** The customer names of [consolidate] *)

Lemma elem_of_join_customers (c : list Customer) (r : Row)
    (p : Item * option Case * option Customer) :
  p ∈ join_customers c r ↔
  p.1 = (item r, dms r)
  ∧ match p.2 with
    | Some k => k ∈ c ∧ Head_Office (item r) = HO_num (Account k)
    | None => ∀ k, k ∈ c → Head_Office (item r) ≠ HO_num (Account k)
    end.
Proof.
  unfold join_customers.
  destruct (filter (λ k, Head_Office (item r) = HO_num (Account k)) c)
    as [|k0 ks] eqn:Hf.
  - rewrite list_elem_of_singleton. split.
    + intros ->. split; [done|]. cbn. intros k Hk Hho.
      assert (k ∈ filter (λ k, Head_Office (item r) = HO_num (Account k)) c)
        as Hin by by apply list_elem_of_filter.
      rewrite Hf in Hin. by apply elem_of_nil in Hin.
    + destruct p as [p1 [k|]]; cbn.
      * intros [-> [Hk Hho]].
        assert (k ∈ filter (λ k, Head_Office (item r) = HO_num (Account k)) c)
          as Hin by by apply list_elem_of_filter.
        rewrite Hf in Hin. by apply elem_of_nil in Hin.
      * by intros [-> _].
  - rewrite <- Hf. rewrite list_elem_of_fmap. split.
    + intros (k & -> & [Hho Hk]%list_elem_of_filter). by cbn.
    + destruct p as [p1 [k|]]; cbn.
      * intros [-> [Hk Hho]]. exists k. split; [done|].
        by apply list_elem_of_filter.
      * intros [-> Hno]. exfalso.
        assert (k0 ∈ filter (λ k, Head_Office (item r) = HO_num (Account k)) c)
          as Hin by (rewrite Hf; by left).
        apply list_elem_of_filter in Hin as [Hho Hk]. by apply (Hno k0).
Qed.

Lemma elem_of_left_join_customers (m : list Row) (c : list Customer)
    (r : Row) :
  r ∈ left_join_customers m c ↔
  ∃ k r0 p, r0 ∈ m ∧ p ∈ join_customers c r0
            ∧ concat (map (join_customers c) m) !! k = Some p
            ∧ r = mkRow k p.1.1 p.1.2 p.2.
Proof.
  unfold left_join_customers. rewrite elem_of_imap_row. split.
  - intros (k & p & Hk & ->).
    pose proof Hk as Hin.
    apply list_elem_of_lookup_2, elem_of_concat in Hin as (ps & Hps & Hp).
    apply list_elem_of_fmap in Hps as (r0 & -> & Hr0).
    by exists k, r0, p.
  - intros (k & r0 & p & _ & _ & Hk & ->). by exists k, p.
Qed.

(** The ledger item has no named customer in the table: no line of the
    table has its head office as account, or a line that has it carries no
    name. *)
Definition unnamed (c : list Customer) (i : Item) : Prop :=
  (∀ k, k ∈ c → Head_Office i ≠ HO_num (Account k))
  ∨ ∃ k, k ∈ c ∧ Head_Office i = HO_num (Account k) ∧ Customer_Name k = None.

(** X15. [consolidate] returns [None] exactly when a customer table is
    given, the merge with it is made (the table has no lines, or some
    ledger item has a numeric head office), and some ledger item has no
    named customer in the table: its head office is no account of the
    table, or an account whose line has no name. Without a customer table
    [None] is never returned, whatever the data. *)
Theorem consolidate_none (str_findall : string → list string)
    (re_findall_ints : string → list Z) (f : list Item) (d : list Case)
    (customers : option (list Customer)) (valid_taxes : list string) :
  consolidate str_findall re_findall_ints f d customers valid_taxes = Ok None
  ↔ ∃ c i, customers = Some c ∧ i ∈ f ∧ unnamed c i
           ∧ (c = [] ∨ ∃ j, j ∈ f ∧ HO_is_text (Head_Office j) = false).
Proof.
  unfold consolidate. split.
  - case_bool_decide as Hlen; [|done].
    destruct customers as [c|]; cbn [enrich]; [|done].
    unfold merge_customers.
    destruct (keys_incompatible _ c) eqn:Hkeys; [done|].
    destruct (existsb Customer_Name_isna _) eqn:Hex; [|done]. intros _.
    apply existsb_exists in Hex as (r & Hr & Hna).
    apply list_elem_of_In, elem_of_left_join_customers in Hr
      as (k & r0 & p & Hr0 & Hp & _ & ->).
    apply elem_of_merge_cases in Hr0 as (i & Hi & Hj & _).
    apply elem_of_join_cases in Hj as [Hitem _]. cbn in Hitem.
    apply elem_of_join_customers in Hp as [_ Hp].
    exists c, i. split; [done|]. split; [done|].
    split.
    2:{ apply (keys_incompatible_merge_cases f d c); [|done].
        intros ->. by apply elem_of_nil in Hi. }
    rewrite <- Hitem.
    unfold Customer_Name_isna in Hna. cbn in Hna.
    destruct (p.2) as [k'|].
    + right. exists k'. destruct Hp as [Hk' Hho].
      by apply bool_decide_eq_true_1 in Hna.
    + by left.
  - intros (c & i & -> & Hi & Hun & Hmerge).
    destruct (merge_cases_item f d i Hi) as (r0 & Hr0 & Hitem).
    rewrite bool_decide_eq_true_2.
    2:{ destruct (merge_cases f d); [by apply elem_of_nil in Hr0|cbn; lia]. }
    cbn [enrich]. unfold merge_customers.
    assert (keys_incompatible (merge_cases f d) c = false) as ->.
    { apply keys_incompatible_merge_cases; [|done].
      intros ->. by apply elem_of_nil in Hi. }
    assert (∃ p, p ∈ join_customers c r0
                 ∧ match p.2 with
                   | Some k => Customer_Name k = None
                   | None => True
                   end) as (p & Hp & Hname).
    { destruct Hun as [Hno|(k & Hk & Hho & Hname)].
      - exists (item r0, dms r0, None). split; [|done].
        apply elem_of_join_customers. split; [done|]. cbn. by rewrite Hitem.
      - exists (item r0, dms r0, Some k). split; [|done].
        apply elem_of_join_customers. split; [done|]. cbn. by rewrite Hitem. }
    assert (p ∈ concat (map (join_customers c) (merge_cases f d))) as Hin.
    { apply elem_of_concat. exists (join_customers c r0). split; [|done].
      apply list_elem_of_fmap. by exists r0. }
    apply list_elem_of_lookup in Hin as (k & Hk).
    assert (existsb Customer_Name_isna
              (left_join_customers (merge_cases f d) c) = true) as ->; [|done].
    apply existsb_exists. exists (mkRow k p.1.1 p.1.2 p.2). split.
    + apply list_elem_of_In, elem_of_left_join_customers. by exists k, r0, p.
    + unfold Customer_Name_isna. cbn. destruct (p.2); [|done].
      by apply bool_decide_eq_true_2.
Qed.

(** ** The result of the conversion of the ledger data *)

Lemma load_fbl5n_body_result env ent cocd a w c w' :
  load_fbl5n_body env ent cocd a w = (Ok c, w') →
  ∃ b, c = Next b
    ∧ (b = true ↔
       a = true ∨ get_state w ent "fbl5n_data_exported" = Some true)
    ∧ ∀ e, get_state w' e "fbl5n_data_exported"
           = get_state w e "fbl5n_data_exported".
Proof.
  unfold load_fbl5n_body. intros H. py_inv.
  all: eexists; (split; [reflexivity|]).
  all: world_simpl.
  all: split; [|intros e0; by rewrite ?get_state_put_accum, ?get_state_put_state_key, ?get_state_put_file, ?get_state_add_calls by done].
  all: try (split; [by right|done]).
  all: split; [by left|intros [?|?]; congruence].
Qed.

Lemma load_fbl5n_loop_result env entits a w c w' :
  mloop (λ p, load_fbl5n_body env p.1 p.2) entits a w = (Ok c, w') →
  ∃ b, c = Next b
    ∧ (b = true ↔
       a = true ∨ ∃ ent cocd, (ent, cocd) ∈ entits
                   ∧ get_state w ent "fbl5n_data_exported" = Some true)
    ∧ ∀ e, get_state w' e "fbl5n_data_exported"
           = get_state w e "fbl5n_data_exported".
Proof.
  revert a w. induction entits as [|[e c'] entits IH]; intros a w.
  { cbn. intros [= <- <-]. exists a. split; [done|]. split; [|done].
    split; [by left|]. by intros [?|(? & ? & ?%elem_of_nil & _)]. }
  cbn [mloop fst snd].
  intros [(c1 & w1 & H1 & H2)|(? & _ & [=])]%bind_inv.
  apply load_fbl5n_body_result in H1 as (b1 & -> & Hb1 & Hst1).
  apply IH in H2 as (b & -> & Hb & Hst).
  exists b. split; [done|]. split.
  - rewrite Hb, Hb1. split.
    + intros [[?|He]|(ent & cocd & Hin & Hent)]; [by left|right..].
      * exists e, c'. split; [by left|done].
      * exists ent, cocd. split; [by right|]. by rewrite <- Hst1.
    + intros [?|(ent & cocd & [[= -> ->]|Hin]%elem_of_cons & Hent)].
      * by left; left.
      * by left; right.
      * right. exists ent, cocd. split; [done|]. by rewrite Hst1.
  - intros e0. by rewrite Hst, Hst1.
Qed.

(** X16. [load_fbl5n_data] returns [True] exactly when the ledger data of
    at least one of the entities are exported, and [False] when there is
    no such entity (for an empty list of entities too). The conversion
    changes no export checkpoint. *)
Theorem load_fbl5n_data_result (env : Env) (entits : list (string * string))
    (w : World) (b : bool) (w' : World) :
  load_fbl5n_data env entits w = (Ok b, w') →
  (b = true ↔ ∃ ent cocd, (ent, cocd) ∈ entits
                ∧ get_state w ent "fbl5n_data_exported" = Some true)
  ∧ ∀ e, get_state w' e "fbl5n_data_exported"
         = get_state w e "fbl5n_data_exported".
Proof.
  unfold load_fbl5n_data, loop_result.
  intros [(c & w1 & H1 & H2)|(? & _ & [=])]%bind_inv.
  apply load_fbl5n_loop_result in H1 as (b1 & -> & Hb1 & Hst).
  injection H2 as <- <-. split; [|done]. rewrite Hb1.
  split; [by intros [?|?]|by right].
Qed.

Lemma load_fbl5n_data_result_witness :
  (true = true ↔
   ∃ ent cocd, (ent, cocd) ∈ sample_entities
     ∧ get_state (put_state "E1" "fbl5n_data_exported" true fresh_world) ent
         "fbl5n_data_exported" = Some true)
  ∧ ∀ e,
      get_state
        (load_fbl5n_data (sample_env all_exported None) sample_entities
           (put_state "E1" "fbl5n_data_exported" true fresh_world)).2 e
        "fbl5n_data_exported"
      = get_state (put_state "E1" "fbl5n_data_exported" true fresh_world) e
          "fbl5n_data_exported".
Proof.
  apply (load_fbl5n_data_result (sample_env all_exported None) sample_entities
           (put_state "E1" "fbl5n_data_exported" true fresh_world) true).
  vm_compute. reflexivity.
Defined.

(** ** Ledger data without case identifiers *)

Lemma exist_cases_spec (d : list Item) :
  _exist_cases d = true ↔ ∃ i, i ∈ d ∧ is_Some (ID i).
Proof.
  unfold _exist_cases. rewrite negb_true_iff, bool_decide_eq_false. split.
  - intros Hne. destruct (omap ID d) as [|x l] eqn:E; [done|].
    assert (x ∈ omap ID d) as Hx by (rewrite E; by left).
    apply list_elem_of_omap in Hx as (i & Hi & Hid). exists i. by rewrite Hid.
  - intros (i & Hi & [x Hx]).
    assert (x ∈ omap ID d) as Hin by (apply list_elem_of_omap; by exists i).
    destruct (omap ID d); [by apply elem_of_nil in Hin|done].
Qed.

Lemma save_entity_state_run (ent key : string) (v : bool) (w : World) :
  has_entity w ent →
  save_entity_state ent key v w = (Ok tt, put_state ent key v w).
Proof.
  unfold save_entity_state, put_state, has_entity. by intros [st ->].
Qed.

Lemma store_to_accum_forced (ent key : string) (d : Data) (w : World) :
  is_Some (accum w !! key) →
  store_to_accum ent key d true w = (Ok tt, put_accum ent key d w).
Proof.
  unfold store_to_accum, put_accum. intros [m ->]. by rewrite andb_false_r.
Qed.

(** X17. The conversion pass over an entity whose ledger data are
    exported and not yet converted, when no item of the converted data
    carries a case identifier: the pass returns, the data are in the
    accumulator, and the checkpoint [fbl5n_data_no_case] is saved as true.
    With it the export of the cases, the closing of the disputes and the
    closing of the notifications pass over the entity without any call
    and without changing anything. *)
Theorem no_case_entity_skipped (env : Env) (ent cocd : string) (a : bool)
    (w : World) (d : list Item) :
  get_state w ent "fbl5n_data_exported" = Some true →
  get_state w ent "fbl5n_data_converted" = Some false →
  is_Some (accum w !! "fbl5n_data") →
  fbl5n_exported_items env ent = Ok d →
  (∀ i, i ∈ d → ID i = None) →
  ∃ w', load_fbl5n_body env ent cocd a w = (Ok (Next true), w')
    ∧ accum_at w' "fbl5n_data" ent = Some (Items d)
    ∧ persisted w' ent "fbl5n_data_no_case" = Some true
    ∧ ∀ s cocd' u,
        s ∈ [CaseExport; DisputeClosing; NotificationClosing] →
        stage_body env s ent cocd' u w' = (Ok (Next u), w').
Proof.
  intros Hexp Hconv Hacc Hitems Hnone.
  assert (_exist_cases d = false) as Hcases.
  { destruct (_exist_cases d) eqn:E; [|done].
    apply exist_cases_spec in E as (i & Hi & [x Hx]).
    by rewrite (Hnone i Hi) in Hx. }
  set (w1 := add_calls [Fbl5nPreprocess ent] w).
  set (w2 := put_file "fbl5n_data_binary" ent (Items d) w1).
  set (w3 := put_state ent "fbl5n_data_converted" true w2).
  set (w4 := put_state ent "fbl5n_data_no_case" true w3).
  exists (put_accum ent "fbl5n_data" (Items d) w4).
  assert (has_entity w2 ent) as He2.
  { unfold w2, w1. world_simpl. by eapply get_state_has_entity. }
  assert (has_entity w3 ent) as He3 by (unfold w3; by world_simpl).
  assert (is_Some (accum w4 !! "fbl5n_data")) as Hacc4 by done.
  split.
  { unfold load_fbl5n_body.
    rewrite (bind_ok _ _ _ _ _ (get_entity_state_ok _ _ _ _ Hexp)). cbn [negb].
    rewrite (bind_ok _ _ _ _ _ (get_entity_state_ok _ _ _ _ Hconv)).
    assert ((call (Fbl5nPreprocess ent);;
             d ← of_result (fbl5n_exported_items env ent);
             mret (Items d)) w = (Ok (Items d), w1)) as Hpre.
    { rewrite Hitems. reflexivity. }
    rewrite (bind_ok _ _ _ _ _ Hpre). cbn [is_None negb].
    assert ((store_to_file "fbl5n_data_binary" ent (Items d);;
             save_entity_state ent "fbl5n_data_converted" true;;
             (if negb (_exist_cases d)
              then save_entity_state ent "fbl5n_data_no_case" true
              else mret tt)) w1 = (Ok tt, w4)) as Hsave.
    { unfold mbind at 1, Py_bind at 1, store_to_file.
      change (set_dump _ w1) with w2.
      rewrite (bind_ok _ _ _ _ _ (save_entity_state_run _ _ _ _ He2)).
      rewrite Hcases. cbn [negb]. by apply save_entity_state_run. }
    rewrite (bind_ok _ _ _ _ _ Hsave).
    by rewrite (bind_ok _ _ _ _ _ (store_to_accum_forced _ _ _ _ Hacc4)). }
  split.
  { unfold accum_at, put_accum. cbn. rewrite lookup_insert_eq. cbn.
    by rewrite lookup_insert_eq. }
  assert (get_state (put_accum ent "fbl5n_data" (Items d) w4) ent
            "fbl5n_data_no_case" = Some true) as Hflag.
  { unfold w4. by world_simpl. }
  split.
  { unfold w4. by world_simpl. }
  intros s cocd' u Hs.
  assert (s = CaseExport ∨ s = DisputeClosing ∨ s = NotificationClosing)
    as Hcases3 by set_solver.
  destruct Hcases3 as [-> | [-> | ->]].
  all: cbn [stage_body].
  all: unfold export_dms_body, close_disputes_body, close_notifications_body.
  all: by rewrite (bind_ok _ _ _ _ _ (get_entity_state_ok _ _ _ _ Hflag)).
Qed.

(** The rules and answers of [sample_env], with ledger items that carry
    no case identifier. *)
Definition no_case_env : Env :=
  mkEnv (λ _ _, "company_code") (λ _ _, []) (λ _ _, []) (λ _ _, ["A1"])
    (λ _, 1%float) (λ _, ∅) sequential_sum (λ _, None) all_exported
    (λ _, Ok [ledger_item 1 100 None])
    (λ _ _, DmsFound) (λ _, true) (λ _, Ok [dispute 7])
    (λ _ _ _, Ok (currency_input false))
    (λ _ _, true) (λ _ _, Ok true) (λ _ _, Posted 555)
    (λ _ _, Ok tt) (λ _ _, CaseClosed) (λ _ _, QmTasks) (λ _ _, true)
    (Ok true) true.

Lemma no_case_entity_skipped_witness :
  ∃ w', load_fbl5n_body no_case_env "E1" "C1" false
          (put_state "E1" "fbl5n_data_exported" true fresh_world)
        = (Ok (Next true), w')
    ∧ accum_at w' "fbl5n_data" "E1" = Some (Items [ledger_item 1 100 None])
    ∧ persisted w' "E1" "fbl5n_data_no_case" = Some true
    ∧ ∀ s cocd' u,
        s ∈ [CaseExport; DisputeClosing; NotificationClosing] →
        stage_body no_case_env s "E1" cocd' u w' = (Ok (Next u), w').
Proof.
  apply (no_case_entity_skipped no_case_env "E1" "C1" false
           (put_state "E1" "fbl5n_data_exported" true fresh_world)
           [ledger_item 1 100 None]).
  - vm_compute. reflexivity.
  - vm_compute. reflexivity.
  - exists ∅. vm_compute. reflexivity.
  - reflexivity.
  - intros i Hi. by apply list_elem_of_singleton in Hi as ->.
Defined.

(** ** The session of the export of the cases *)

(** A call of the export of the cases for one of the entities. *)
Definition case_export_call (entits : list (string * string)) (c : Call)
  : Prop :=
  ∃ ent cocd, (ent, cocd) ∈ entits
    ∧ (c = DmsSearchDisputes ent ∨ c = DmsExport ent).

(** The export this call made, if it is one, succeeded. *)
Definition export_succeeded (env : Env) (c : Call) : Prop :=
  ∀ ent, c = DmsExport ent → dms_export env ent = true.

Lemma export_dms_body_calls env ent cocd u w c w' :
  export_dms_body env ent cocd u w = (Ok c, w') →
  ∃ mid, calls w' = calls w ++ mid
    ∧ match c with
      | Next _ =>
          Forall (case_export_call [(ent, cocd)]) mid
          ∧ Forall (export_succeeded env) mid
      | Return r =>
          r = false
          ∧ mid = [DmsSearchDisputes ent; DmsExport ent; SessionCall "dms.close"]
          ∧ dms_export env ent = false
      end.
Proof.
  unfold export_dms_body. intros H. py_inv.
  all: world_simpl; rewrite <- ?app_assoc.
  all: try (exists []; rewrite app_nil_r; by repeat constructor).
  all: eexists; (split; [reflexivity|]).
  all: try done.
  all: split; repeat constructor.
  all: try (exists ent, cocd; split; [by left|auto]).
  all: by intros e0 [= <-].
Qed.

Lemma case_export_call_mono (l1 l2 : list (string * string)) (c : Call) :
  l1 ⊆ l2 → case_export_call l1 c → case_export_call l2 c.
Proof. intros Hsub (ent & cocd & Hin & Hc). exists ent, cocd. auto. Qed.

Lemma export_dms_loop_calls env entits u w c w' :
  mloop (λ p, export_dms_body env p.1 p.2) entits u w = (Ok c, w') →
  ∃ mid, calls w' = calls w ++ mid
    ∧ match c with
      | Next _ =>
          Forall (case_export_call entits) mid
          ∧ Forall (export_succeeded env) mid
      | Return r =>
          r = false
          ∧ ∃ mid' ent,
              mid = mid' ++ [DmsSearchDisputes ent; DmsExport ent;
                             SessionCall "dms.close"]
              ∧ Forall (case_export_call entits) (mid' ++ [DmsExport ent])
              ∧ dms_export env ent = false
      end.
Proof.
  revert u w. induction entits as [|[e c'] entits IH]; intros u w.
  { cbn. intros [= <- <-]. exists []. by rewrite app_nil_r. }
  cbn [mloop fst snd].
  intros [(c1 & w1 & H1 & H2)|(? & _ & [=])]%bind_inv.
  apply export_dms_body_calls in H1 as (mid1 & Hcalls1 & Hc1).
  destruct c1 as [u1|r1].
  - destruct Hc1 as [Hall1 Hok1].
    apply IH in H2 as (mid2 & Hcalls2 & Hc2).
    exists (mid1 ++ mid2). rewrite Hcalls2, Hcalls1, app_assoc.
    split; [done|].
    assert (Forall (case_export_call ((e, c') :: entits)) mid1) as Hall1'.
    { eapply Forall_impl; [exact Hall1|]. intros c0.
      apply case_export_call_mono. set_solver. }
    destruct c as [u2|r2].
    + destruct Hc2 as [Hall2 Hok2]. split; [|by apply Forall_app].
      apply Forall_app. split; [done|].
      eapply Forall_impl; [exact Hall2|]. intros c0.
      apply case_export_call_mono. set_solver.
    + destruct Hc2 as (-> & mid' & ent & -> & Hall2 & Hfail).
      split; [done|]. exists (mid1 ++ mid'), ent.
      rewrite <- !app_assoc. split; [done|]. split; [|done].
      apply Forall_app. split; [done|].
      eapply Forall_impl; [exact Hall2|]. intros c0.
      apply case_export_call_mono. set_solver.
  - destruct Hc1 as (-> & -> & Hfail). injection H2 as <- <-.
    exists [DmsSearchDisputes e; DmsExport e; SessionCall "dms.close"].
    split; [done|]. split; [done|]. exists [], e. split; [done|].
    split; [|done]. repeat constructor. exists e, c'. split; [by left|auto].
Qed.

(** X18. [export_dms_data] opens DMS first, and whenever it returns it
    has closed DMS last; between the two it only searches and exports the
    cases of the given entities. It returns [False] exactly when the last
    of these calls is an export that failed: the entities after that one
    are not worked on. *)
Theorem export_dms_data_session (env : Env) (entits : list (string * string))
    (w : World) (b : bool) (w' : World) :
  export_dms_data env entits w = (Ok b, w') →
  ∃ mid,
    calls w' = calls w ++ [SessionCall "dms.start"] ++ mid
                 ++ [SessionCall "dms.close"]
    ∧ Forall (case_export_call entits) mid
    ∧ (b = false ↔
       ∃ ent, last mid = Some (DmsExport ent) ∧ dms_export env ent = false).
Proof.
  unfold export_dms_data.
  intros [(? & w0 & [_ ->]%call_inv & H)|(? & _ & [=])]%bind_inv.
  apply bind_inv in H as [(c & w1 & H1 & H2)|(? & _ & [=])].
  apply export_dms_loop_calls in H1 as (mid & Hcalls & Hc).
  rewrite calls_add_calls in Hcalls.
  destruct c as [u|r].
  - destruct Hc as [Hall Hok].
    apply bind_inv in H2 as [(? & w2 & [_ ->]%call_inv & H2)|(? & _ & [=])].
    injection H2 as <- <-. exists mid.
    rewrite calls_add_calls, Hcalls, <- !app_assoc. split; [done|].
    split; [done|]. split; [done|]. intros (ent & Hlast & Hfail).
    assert (DmsExport ent ∈ mid) as Hin.
    { apply list_elem_of_lookup. exists (pred (length mid)).
      by rewrite <- last_lookup. }
    pose proof (proj1 (Forall_forall _ _) Hok _ Hin ent eq_refl). congruence.
  - destruct Hc as (-> & mid' & ent & -> & Hall & Hfail).
    injection H2 as <- <-. exists (mid' ++ [DmsSearchDisputes ent; DmsExport ent]).
    rewrite Hcalls, <- !app_assoc. split; [done|]. split.
    + apply Forall_app in Hall as [Hall Hent]. apply Forall_app.
      split; [done|]. apply Forall_inv in Hent.
      pose proof Hent as (e & c0 & Hin & Hc).
      assert (e = ent) as -> by (destruct Hc as [Hc|Hc]; congruence).
      constructor; [exists ent, c0; auto|]. by constructor.
    + split; [|done]. intros _. exists ent. split; [|done].
      change [DmsSearchDisputes ent; DmsExport ent]
        with ([DmsSearchDisputes ent] ++ [DmsExport ent]).
      by rewrite app_assoc, last_snoc.
Qed.

(** The rules and answers of [sample_env], with an export of the cases
    that fails. *)
Definition failing_export_env : Env :=
  mkEnv (λ _ _, "company_code") (λ _ _, []) (λ _ _, []) (λ _ _, ["A1"])
    (λ _, 1%float) (λ _, ∅) sequential_sum (λ _, None) all_exported
    (λ _, Ok two_items)
    (λ _ _, DmsFound) (λ _, false) (λ _, Ok [dispute 7])
    (λ _ _ _, Ok (currency_input false))
    (λ _ _, true) (λ _ _, Ok true) (λ _ _, Posted 555)
    (λ _ _, Ok tt) (λ _ _, CaseClosed) (λ _ _, QmTasks) (λ _ _, true)
    (Ok true) true.

(** The ledger data of [E1] are exported and in the accumulator. *)
Definition ledger_world : World :=
  put_accum "E1" "fbl5n_data" (Items two_items)
    (put_state "E1" "fbl5n_data_exported" true fresh_world).

Lemma export_dms_data_session_witness :
  ∃ mid,
    calls (export_dms_data failing_export_env sample_entities ledger_world).2
    = calls ledger_world ++ [SessionCall "dms.start"] ++ mid
        ++ [SessionCall "dms.close"]
    ∧ Forall (case_export_call sample_entities) mid
    ∧ (false = false ↔
       ∃ ent, last mid = Some (DmsExport ent)
              ∧ dms_export failing_export_env ent = false).
Proof.
  apply (export_dms_data_session failing_export_env sample_entities
           ledger_world false).
  vm_compute. reflexivity.
Defined.

(** ** The result of the closing of the notifications *)

(** The search of a notification of the entity was the last call, and
    QM02 answered that the transaction is not started. *)
Definition search_not_started (env : Env) (ent : string) (w : World) : Prop :=
  ∃ n, last (calls w) = Some (QmSearchNotification ent n)
       ∧ qm_search_notification env ent n = QmTransactionNotStarted.

(** What the loops of the closing return: they go on, or leave the
    function with [False] after a search that found the transaction not
    started. *)
Definition goes_on_or_not_started (env : Env) (ent : string) {A}
    (c : ctl A bool) (w : World) : Prop :=
  match c with
  | Next _ => True
  | Return r => r = false ∧ search_not_started env ent w
  end.

Lemma close_notification_record_result env ent p acc w c w' :
  close_notification_record env ent p acc w = (Ok c, w') →
  (∀ e k, get_state w' e k = get_state w e k)
  ∧ goes_on_or_not_started env ent c w'.
Proof.
  unfold close_notification_record. intros H. py_inv.
  all: split; [intros; by world_simpl|]; cbn; try done.
  split; [done|]. exists (rec_Notification p.2). world_simpl.
  by rewrite last_snoc.
Qed.

Lemma close_notification_records_result env ent recs acc w c w' :
  mloop (close_notification_record env ent) recs acc w = (Ok c, w') →
  (∀ e k, get_state w' e k = get_state w e k)
  ∧ goes_on_or_not_started env ent c w'.
Proof.
  revert acc w. induction recs as [|p recs IH]; intros acc w; cbn [mloop].
  { by intros [= <- <-]. }
  intros [(c1 & w1 & H1 & H2)|(? & _ & [=])]%bind_inv.
  apply close_notification_record_result in H1 as [Hst1 Hc1].
  destruct c1 as [acc1|r1].
  - apply IH in H2 as [Hst2 Hc2]. split; [|done].
    intros e k. by rewrite Hst2, Hst1.
  - by injection H2 as <- <-.
Qed.

Lemma close_notification_currency_result env ent cp acc w c w' :
  close_notification_currency env ent cp acc w = (Ok c, w') →
  (∀ e k, get_state w' e k = get_state w e k)
  ∧ goes_on_or_not_started env ent c w'.
Proof.
  unfold close_notification_currency.
  destruct (Cleared cp.2); cbn [negb]; [|by intros [= <- <-]].
  intros [(c1 & w1 & H1 & H2)|(? & _ & [=])]%bind_inv.
  apply close_notification_records_result in H1 as [Hst1 Hc1].
  destruct c1; by injection H2 as <- <-.
Qed.

Lemma close_notification_currencies_result env ent dco acc w c w' :
  mloop (close_notification_currency env ent) dco acc w = (Ok c, w') →
  (∀ e k, get_state w' e k = get_state w e k)
  ∧ goes_on_or_not_started env ent c w'.
Proof.
  revert acc w. induction dco as [|cp dco IH]; intros acc w; cbn [mloop].
  { by intros [= <- <-]. }
  intros [(c1 & w1 & H1 & H2)|(? & _ & [=])]%bind_inv.
  apply close_notification_currency_result in H1 as [Hst1 Hc1].
  destruct c1 as [acc1|r1].
  - apply IH in H2 as [Hst2 Hc2]. split; [|done].
    intros e k. by rewrite Hst2, Hst1.
  - by injection H2 as <- <-.
Qed.

Lemma close_notifications_body_result env ent cocd s w c w' :
  close_notifications_body env ent cocd s w = (Ok c, w') →
  match c with
  | Next s' => s = true → s' = true
  | Return r =>
      r = false ∧ search_not_started env ent w'
      ∧ get_state w' ent "qm_notifications_processed" = Some false
  end.
Proof.
  unfold close_notifications_body.
  intros [(no_case & ? & [-> _]%get_entity_state_inv & H)|(? & _ & [=])]%bind_inv.
  destruct no_case; [by injection H as <- <-|].
  apply bind_inv in H
    as [(cleared & ? & [-> _]%get_entity_state_inv & H)|(? & _ & [=])].
  destruct cleared; cbn [negb] in H; [|by injection H as <- <-].
  apply bind_inv in H
    as [(processed & ? & [-> Hproc]%get_entity_state_inv & H)|(? & _ & [=])].
  destruct processed.
  { apply bind_inv in H as [(? & ? & _ & H)|(? & _ & [=])].
    apply bind_inv in H as [(? & ? & _ & H)|(? & _ & [=])].
    by injection H as <- <-. }
  apply bind_inv in H
    as [(out & ? & [-> _]%get_from_accum_inv & H)|(? & _ & [=])].
  destruct out as [| | | |dco]; try by discriminate H.
  apply bind_inv in H as [(c1 & w1 & H1 & H)|(? & _ & [=])].
  apply close_notification_currencies_result in H1 as [Hst1 Hc1].
  destruct c1 as [out|r].
  - apply bind_inv in H as [(? & ? & _ & H)|(? & _ & [=])].
    apply bind_inv in H as [(? & ? & _ & H)|(? & _ & [=])].
    apply bind_inv in H as [(? & ? & _ & H)|(? & _ & [=])].
    by injection H as <- <-.
  - injection H as <- <-. destruct Hc1 as [-> Hsearch].
    split; [done|]. split; [done|]. by rewrite Hst1.
Qed.

Lemma close_notifications_loop_result env entits s w c w' :
  mloop (λ p, close_notifications_body env p.1 p.2) entits s w = (Ok c, w') →
  match c with
  | Next s' => s = true → s' = true
  | Return r =>
      r = false
      ∧ ∃ ent cocd, (ent, cocd) ∈ entits ∧ search_not_started env ent w'
          ∧ get_state w' ent "qm_notifications_processed" = Some false
  end.
Proof.
  revert s w. induction entits as [|[e c'] entits IH]; intros s w;
    cbn [mloop fst snd].
  { by intros [= <- <-]. }
  intros [(c1 & w1 & H1 & H2)|(? & _ & [=])]%bind_inv.
  apply close_notifications_body_result in H1.
  destruct c1 as [s1|r1].
  - apply IH in H2. destruct c as [s2|r2]; [by auto|].
    destruct H2 as (-> & ent & cocd & Hin & Hrest). split; [done|].
    exists ent, cocd. split; [by right|done].
  - injection H2 as <- <-. destruct H1 as (-> & Hrest). split; [done|].
    exists e, c'. split; [by left|done].
Qed.

(** X19. [close_notifications] returns [True] after closing QM02, or
    [False] right after a search of a notification to which QM02 answered
    that the transaction is not started: then QM02 is not closed, the
    checkpoint [qm_notifications_processed] of the entity is still false
    and the entities after it are not worked on. No other failure of the
    closing makes the result [False]. *)
Theorem close_notifications_result (env : Env)
    (entits : list (string * string)) (w : World) (b : bool) (w' : World) :
  close_notifications env entits w = (Ok b, w') →
  (b = true ∧ last (calls w') = Some (SessionCall "qm02.close"))
  ∨ (b = false
     ∧ ∃ ent cocd, (ent, cocd) ∈ entits ∧ search_not_started env ent w'
         ∧ get_state w' ent "qm_notifications_processed" = Some false).
Proof.
  unfold close_notifications.
  intros [(? & w0 & [_ ->]%call_inv & H)|(? & _ & [=])]%bind_inv.
  apply bind_inv in H as [(c & w1 & H1 & H2)|(? & _ & [=])].
  apply close_notifications_loop_result in H1.
  destruct c as [s|r].
  - apply bind_inv in H2 as [(? & w2 & [_ ->]%call_inv & H2)|(? & _ & [=])].
    injection H2 as <- <-. left. split; [by apply H1|].
    rewrite calls_add_calls. by rewrite last_snoc.
  - injection H2 as <- <-. right. by destruct H1 as (-> & Hrest).
Qed.

(** The rules and answers of [sample_env], with a QM02 transaction that
    is not started. *)
Definition not_started_env : Env :=
  mkEnv (λ _ _, "company_code") (λ _ _, []) (λ _ _, []) (λ _ _, ["A1"])
    (λ _, 1%float) (λ _, ∅) sequential_sum (λ _, None) all_exported
    (λ _, Ok two_items)
    (λ _ _, DmsFound) (λ _, true) (λ _, Ok [dispute 7])
    (λ _ _ _, Ok (currency_input false))
    (λ _ _, true) (λ _ _, Ok true) (λ _ _, Posted 555)
    (λ _ _, Ok tt) (λ _ _, CaseClosed) (λ _ _, QmTransactionNotStarted)
    (λ _ _, true) (Ok true) true.

(** The items of [E1] are cleared and its disputes are closed. *)
Definition closing_world : World :=
  put_accum "E1" "dms_closing_output"
    (Clearing [("EUR", mkCurrencyParams [(7, clearing_record false)]
                         "Item cleared." [] [7] (Some 555) true 2)])
    (put_state "E1" "f30_items_cleared" true fresh_world).

Lemma close_notifications_result_witness :
  (false = true
   ∧ last (calls (close_notifications not_started_env sample_entities
                    closing_world).2) = Some (SessionCall "qm02.close"))
  ∨ (false = false
     ∧ ∃ ent cocd, (ent, cocd) ∈ sample_entities
         ∧ search_not_started not_started_env ent
             (close_notifications not_started_env sample_entities
                closing_world).2
         ∧ get_state (close_notifications not_started_env sample_entities
                        closing_world).2 ent "qm_notifications_processed"
           = Some false).
Proof.
  apply (close_notifications_result not_started_env sample_entities
           closing_world false).
  vm_compute. reflexivity.
Defined.

(** * The entities of a run ([get_active_entities]) *)

(** The parameters of an entity and of a company code that
    [get_active_entities] reads from the clearing rules. Dictionaries are
    lists of entries in the order of insertion. *)
Record EntityParams : Type := mkEntityParams {
  en_active : bool
}.

Record CompanyParams : Type := mkCompanyParams {
  cc_country : string;
  cc_active : bool;
  cc_entities : list (string * EntityParams)
}.

(** [d.update({k: v})]: the value of an existing key is replaced in
    place, a new key is added at the end. *)
Fixpoint dict_update (k v : string) (d : list (string * string))
  : list (string * string) :=
  match d with
  | [] => [(k, v)]
  | p :: d' =>
      if decide (p.1 = k) then (k, v) :: d' else p :: dict_update k v d'
  end.

(** The loop over the entities of one company code. With an entity
    requested by the user, the loop looks for it and leaves at the first
    hit; otherwise it takes the active entities. *)
Fixpoint scan_entities (user_entity : option string) (cocd : string)
    (ents : list (string * EntityParams)) (entits : list (string * string))
  : list (string * string) :=
  match ents with
  | [] => entits
  | (ent, enparams) :: rest =>
      match user_entity with
      | Some u =>
          if decide (u = ent) then dict_update ent cocd entits
          else scan_entities user_entity cocd rest entits
      | None =>
          if negb (en_active enparams)
          then scan_entities user_entity cocd rest entits
          else scan_entities user_entity cocd rest
                 (dict_update ent cocd entits)
      end
  end.

Definition get_active_entities (rules : list (string * CompanyParams))
    (user_entity : option string) : list (string * string) :=
  foldl (λ entits r,
           if negb (cc_active r.2) then entits
           else scan_entities user_entity r.1 (cc_entities r.2) entits)
    [] rules.

(** The entity is one the scan of a company code takes: the requested
    one, or an active one when none is requested. *)
Definition taken (user_entity : option string) (ent : string)
    (enparams : EntityParams) : Prop :=
  match user_entity with
  | Some u => u = ent
  | None => en_active enparams = true
  end.

(** The rules give the entity under this company code, the company code
    is active and the entity is taken. *)
Definition selects (rules : list (string * CompanyParams))
    (user_entity : option string) (ent cocd : string) : Prop :=
  ∃ ccparams enparams,
    (cocd, ccparams) ∈ rules ∧ cc_active ccparams = true
    ∧ (ent, enparams) ∈ cc_entities ccparams
    ∧ taken user_entity ent enparams.

Lemma dict_update_elem k v d p :
  p ∈ dict_update k v d → p = (k, v) ∨ p ∈ d.
Proof.
  induction d as [|q d IH]; cbn.
  - intros ->%list_elem_of_singleton. by left.
  - destruct (decide (q.1 = k)).
    + intros [->|H]%elem_of_cons; [by left|]. right. by right.
    + intros [->|H]%elem_of_cons; [right; by left|].
      destruct (IH H); [by left|]. right. by right.
Qed.

Lemma dict_update_keys k v d e :
  e ∈ (dict_update k v d).*1 ↔ e = k ∨ e ∈ d.*1.
Proof.
  induction d as [|q d IH]; cbn.
  - rewrite list_elem_of_singleton. set_solver.
  - destruct (decide (q.1 = k)) as [Hq|Hq]; cbn; rewrite !elem_of_cons.
    + rewrite Hq. tauto.
    + rewrite IH. tauto.
Qed.

Lemma dict_update_NoDup k v d : NoDup d.*1 → NoDup (dict_update k v d).*1.
Proof.
  induction d as [|q d IH]; cbn.
  - intros _. apply NoDup_singleton.
  - rewrite NoDup_cons. intros [Hq Hd].
    destruct (decide (q.1 = k)) as [Heq|Hne]; cbn; rewrite NoDup_cons.
    + by rewrite <- Heq.
    + split; [|by apply IH]. rewrite dict_update_keys. intros [?|?]; done.
Qed.

Lemma scan_entities_elem u cocd ents d p :
  p ∈ scan_entities u cocd ents d →
  p ∈ d ∨ (p.2 = cocd ∧ ∃ en, (p.1, en) ∈ ents ∧ taken u p.1 en).
Proof.
  revert d. induction ents as [|[ent en] ents IH]; intros d; cbn; [by left|].
  assert (∀ d', p ∈ scan_entities u cocd ents d' →
            p ∈ d' ∨ p.2 = cocd ∧ ∃ en0, (p.1, en0) ∈ (ent, en) :: ents
                                     ∧ taken u p.1 en0) as IH'.
  { intros d' [?|(? & en0 & ? & ?)]%IH; [by left|]. right. split; [done|].
    exists en0. split; [by right|done]. }
  destruct u as [u|]; cbn.
  - destruct (decide (u = ent)) as [->|Hne]; [|apply IH'].
    intros [->|?]%dict_update_elem; [|by left]. right. split; [done|].
    exists en. split; [by left|done].
  - destruct (en_active en) eqn:Hact; cbn; [|apply IH'].
    intros [[->|?]%dict_update_elem|?]%IH'; [|by left|by right].
    right. split; [done|]. exists en. split; [by left|done].
Qed.

Lemma scan_entities_keys_mono u cocd ents d e :
  e ∈ d.*1 → e ∈ (scan_entities u cocd ents d).*1.
Proof.
  revert d. induction ents as [|[ent en] ents IH]; intros d He; cbn; [done|].
  destruct u as [u|]; cbn.
  - destruct (decide (u = ent)); [|by apply IH].
    apply dict_update_keys. by right.
  - destruct (en_active en); cbn; [|by apply IH].
    apply IH, dict_update_keys. by right.
Qed.

Lemma scan_entities_keys_new u cocd ents d ent en :
  (ent, en) ∈ ents → taken u ent en →
  ent ∈ (scan_entities u cocd ents d).*1.
Proof.
  revert d. induction ents as [|[ent' en'] ents IH]; intros d Hin Ht; cbn.
  { by apply elem_of_nil in Hin. }
  destruct u as [u|]; cbn in *.
  - subst u. destruct (decide (ent = ent')) as [<-|Hne].
    + apply dict_update_keys. by left.
    + apply elem_of_cons in Hin as [[= ? ?]|Hin]; [done|]. by apply IH.
  - apply elem_of_cons in Hin as [[= <- <-]|Hin].
    + rewrite Ht. cbn. apply scan_entities_keys_mono, dict_update_keys.
      by left.
    + destruct (en_active en'); cbn; by apply IH.
Qed.

Lemma scan_entities_NoDup u cocd ents d :
  NoDup d.*1 → NoDup (scan_entities u cocd ents d).*1.
Proof.
  revert d. induction ents as [|[ent en] ents IH]; intros d Hd; cbn; [done|].
  destruct u as [u|]; cbn.
  - destruct (decide (u = ent)); [by apply dict_update_NoDup|by apply IH].
  - destruct (en_active en); cbn; [|by apply IH].
    by apply IH, dict_update_NoDup.
Qed.

Lemma active_entities_fold rules u d :
  let out := foldl (λ entits r,
                      if negb (cc_active r.2) then entits
                      else scan_entities u r.1 (cc_entities r.2) entits)
               d rules in
  (NoDup d.*1 → NoDup out.*1)
  ∧ (∀ p, p ∈ out → p ∈ d ∨ selects rules u p.1 p.2)
  ∧ (∀ e, e ∈ d.*1 → e ∈ out.*1)
  ∧ (∀ ent cocd, selects rules u ent cocd → ent ∈ out.*1).
Proof.
  revert d. induction rules as [|[cocd cc] rules IH]; intros d; cbn.
  { split; [done|]. split; [by left|]. split; [done|].
    by intros ent c (? & ? & ?%elem_of_nil & _). }
  set (d1 := if negb (cc_active cc) then d
             else scan_entities u cocd (cc_entities cc) d).
  destruct (IH d1) as (Hnd & Helem & Hmono & Hnew).
  assert (∀ ent c, selects rules u ent c →
            selects ((cocd, cc) :: rules) u ent c) as Hweak.
  { intros ent c (cc0 & en & Hin & ?). exists cc0, en. split; [by right|done]. }
  split; [|split; [|split]].
  - intros Hd. apply Hnd. unfold d1.
    destruct (cc_active cc); cbn; [by apply scan_entities_NoDup|done].
  - intros p [Hp|Hp]%Helem; [|right; by apply Hweak].
    unfold d1 in Hp. destruct (cc_active cc) eqn:Hact; cbn in Hp; [|by left].
    apply scan_entities_elem in Hp as [?|(Hc & en & Hin & Ht)]; [by left|].
    right. exists cc, en. rewrite Hc. split; [by left|done].
  - intros e He. apply Hmono. unfold d1.
    destruct (cc_active cc); cbn; [by apply scan_entities_keys_mono|done].
  - intros ent c (cc0 & en & [[= -> ->]|Hin]%elem_of_cons & Hact & Hen & Ht).
    + apply Hmono. unfold d1. rewrite Hact. cbn.
      by eapply scan_entities_keys_new.
    + apply (Hnew ent c). by exists cc0, en.
Qed.

(** X20. The entities [get_active_entities] returns. No entity is
    returned twice. Every returned entity comes with a company code that
    is active and lists it, and every entity that an active company code
    lists is returned, where only the entities marked active count when
    the user requests none. When the user requests an entity, nothing but
    this entity is returned, and it is returned whenever an active
    company code lists it, also when the rules mark the entity itself
    inactive. *)
Theorem get_active_entities_selects (rules : list (string * CompanyParams))
    (user_entity : option string) :
  NoDup (get_active_entities rules user_entity).*1
  ∧ (∀ ent cocd, (ent, cocd) ∈ get_active_entities rules user_entity →
       selects rules user_entity ent cocd)
  ∧ (∀ ent, ent ∈ (get_active_entities rules user_entity).*1 ↔
       ∃ cocd, selects rules user_entity ent cocd)
  ∧ (∀ u, user_entity = Some u →
       (∀ ent, ent ∈ (get_active_entities rules user_entity).*1 → ent = u)
       ∧ (u ∈ (get_active_entities rules user_entity).*1 ↔
          ∃ cocd ccparams enparams,
            (cocd, ccparams) ∈ rules ∧ cc_active ccparams = true
            ∧ (u, enparams) ∈ cc_entities ccparams)).
Proof.
  destruct (active_entities_fold rules user_entity [])
    as (Hnd & Helem & _ & Hnew).
  fold (get_active_entities rules user_entity) in *.
  assert (∀ ent cocd, (ent, cocd) ∈ get_active_entities rules user_entity →
            selects rules user_entity ent cocd) as Hsel.
  { intros ent cocd [?%elem_of_nil|?]%Helem; done. }
  assert (∀ ent, ent ∈ (get_active_entities rules user_entity).*1 ↔
            ∃ cocd, selects rules user_entity ent cocd) as Hkeys.
  { intros ent. split.
    - intros ([e c] & -> & Hin)%list_elem_of_fmap. exists c. by apply Hsel.
    - intros [cocd Hs]. by eapply Hnew. }
  split; [apply Hnd; constructor|]. split; [done|]. split; [done|].
  intros u ->. split.
  - intros ent [cocd (cc & en & _ & _ & _ & Ht)]%Hkeys. by cbn in Ht.
  - rewrite Hkeys. split.
    + intros (cocd & cc & en & ? & ? & ? & _). by exists cocd, cc, en.
    + intros (cocd & cc & en & ? & ? & ?). exists cocd, cc, en. by cbn.
Qed.

(** * Amounts in the SAP format ([_parse_amount]) *)

Section parse_amount.
Import Stdlib.Strings.Ascii.

(** [s.replace(old, new)] for an [old] of one character. *)
Fixpoint replace_char (old : Ascii.ascii) (new : string) (s : string) : string :=
  match s with
  | EmptyString => EmptyString
  | String c s' =>
      if Ascii.eqb c old then new +:+ replace_char old new s'
      else String c (replace_char old new s')
  end.

(** [s.endswith(c)] for one character. *)
Fixpoint endswith_char (c : Ascii.ascii) (s : string) : bool :=
  match s with
  | EmptyString => false
  | String a EmptyString => Ascii.eqb a c
  | String _ s' => endswith_char c s'
  end.

Definition _parse_amount (val : string) : string :=
  let parsed := replace_char ","%char "." (replace_char "."%char "" val) in
  if endswith_char "-"%char parsed
  then "-" +:+ replace_char "-"%char "" parsed
  else parsed.

(** The characters of a string that satisfy [P], in their order, and the
    number of occurrences of a character. *)
Fixpoint string_filter (P : Ascii.ascii → bool) (s : string) : string :=
  match s with
  | EmptyString => EmptyString
  | String c s' =>
      if P c then String c (string_filter P s') else string_filter P s'
  end.

Definition count_char (c : Ascii.ascii) (s : string) : nat :=
  String.length (string_filter (Ascii.eqb c) s).

(** A character of the amount proper: not a separator and not a sign. *)
Definition amount_char (c : Ascii.ascii) : bool :=
  negb (Ascii.eqb c "."%char || Ascii.eqb c ","%char || Ascii.eqb c "-"%char).

Lemma append_one (c : Ascii.ascii) (s : string) : String c "" +:+ s = String c s.
Proof. reflexivity. Qed.

Lemma append_empty (s : string) : "" +:+ s = s.
Proof. reflexivity. Qed.

Lemma string_filter_replace_drop (P : Ascii.ascii → bool) (old : Ascii.ascii) (s : string) :
  P old = false →
  string_filter P (replace_char old "" s) = string_filter P s.
Proof.
  intros Hold. induction s as [|a s IH]; cbn; [done|].
  destruct (Ascii.eqb_spec a old) as [->|Hne];
    rewrite ?append_one, ?append_empty; cbn.
  - by rewrite Hold.
  - by rewrite IH.
Qed.

Lemma string_filter_replace_one (P : Ascii.ascii → bool) (old new : Ascii.ascii)
    (s : string) :
  P old = false → P new = false →
  string_filter P (replace_char old (String new "") s) = string_filter P s.
Proof.
  intros Hold Hnew. induction s as [|a s IH]; cbn; [done|].
  destruct (Ascii.eqb_spec a old) as [->|Hne];
    rewrite ?append_one, ?append_empty; cbn.
  - by rewrite Hold, Hnew.
  - by rewrite IH.
Qed.

Lemma count_char_replace_drop (old : Ascii.ascii) (s : string) :
  count_char old (replace_char old "" s) = 0%nat.
Proof.
  unfold count_char. induction s as [|a s IH]; cbn; [done|].
  destruct (Ascii.eqb_spec a old) as [->|Hne];
    rewrite ?append_one, ?append_empty; cbn; [done|].
  destruct (Ascii.eqb_spec old a) as [->|_]; [done|]. exact IH.
Qed.

Lemma count_char_replace_old (old new : Ascii.ascii) (s : string) :
  new ≠ old →
  count_char old (replace_char old (String new "") s) = 0%nat.
Proof.
  intros Hne. unfold count_char. induction s as [|a s IH]; cbn; [done|].
  destruct (Ascii.eqb_spec a old) as [->|Ha];
    rewrite ?append_one, ?append_empty; cbn.
  - destruct (Ascii.eqb_spec old new) as [<-|_]; [done|]. exact IH.
  - destruct (Ascii.eqb_spec old a) as [->|_]; [done|]. exact IH.
Qed.

Lemma count_char_replace_new (old new : Ascii.ascii) (s : string) :
  new ≠ old →
  count_char new (replace_char old (String new "") s)
  = (count_char new s + count_char old s)%nat.
Proof.
  intros Hne. unfold count_char. induction s as [|a s IH]; cbn; [done|].
  destruct (Ascii.eqb_spec a old) as [->|Ha];
    rewrite ?append_one, ?append_empty; cbn.
  - rewrite Ascii.eqb_refl. cbn. rewrite IH.
    destruct (Ascii.eqb_spec new old) as [->|_]; [done|].
    rewrite Ascii.eqb_refl. cbn. lia.
  - destruct (Ascii.eqb_spec new a) as [->|_];
      destruct (Ascii.eqb_spec old a) as [->|_]; cbn; try done;
      rewrite IH; lia.
Qed.

Lemma endswith_char_replace_one (c old new : Ascii.ascii) (s : string) :
  c ≠ old → c ≠ new →
  endswith_char c (replace_char old (String new "") s) = endswith_char c s.
Proof.
  intros Hold Hnew. induction s as [|a s IH]; [done|].
  destruct s as [|b s].
  - cbn. destruct (Ascii.eqb_spec a old) as [->|Ha];
      rewrite ?append_one, ?append_empty; cbn; [|done].
    destruct (Ascii.eqb_spec new c) as [->|_]; [done|].
    by destruct (Ascii.eqb_spec old c) as [->|_].
  - change (endswith_char c (String a (String b s)))
      with (endswith_char c (String b s)).
    rewrite <- IH. cbn.
    by destruct (Ascii.eqb a old), (Ascii.eqb b old);
      rewrite ?append_one.
Qed.

(** X21. [_parse_amount] on any text. The characters other than the
    point, the comma and the minus sign are kept as they are and in their
    order. The result has no comma, and as many points as the value has
    commas: the points of the value are dropped and its commas become
    points. When the value without its points ends with a minus sign, the
    result starts with a minus sign and has no other; otherwise the minus
    signs stay where they are. *)
Theorem parse_amount_spec (val : string) :
  string_filter amount_char (_parse_amount val) = string_filter amount_char val
  ∧ count_char ","%char (_parse_amount val) = 0%nat
  ∧ count_char "."%char (_parse_amount val) = count_char ","%char val
  ∧ (if endswith_char "-"%char (replace_char "."%char "" val)
     then ∃ s, _parse_amount val = String "-"%char s
               ∧ count_char "-"%char s = 0%nat
     else _parse_amount val
          = replace_char ","%char "." (replace_char "."%char "" val)).
Proof.
  unfold _parse_amount.
  rewrite (endswith_char_replace_one "-" "," ".") by done.
  set (parsed := replace_char ","%char "." (replace_char "."%char "" val)).
  assert (string_filter amount_char parsed = string_filter amount_char val)
    as Hkeep.
  { unfold parsed. rewrite string_filter_replace_one by done.
    by rewrite string_filter_replace_drop. }
  assert (count_char ","%char parsed = 0%nat) as Hcomma.
  { unfold parsed. by apply count_char_replace_old. }
  assert (count_char "."%char parsed = count_char ","%char val) as Hpoint.
  { unfold parsed. rewrite count_char_replace_new, count_char_replace_drop by done.
    unfold count_char. by rewrite string_filter_replace_drop. }
  destruct (endswith_char "-"%char (replace_char "."%char "" val)); [|done].
  rewrite append_one.
  split; [|split; [|split]].
  - cbn. by rewrite string_filter_replace_drop.
  - unfold count_char in *. cbn. by rewrite string_filter_replace_drop.
  - unfold count_char in *. cbn. by rewrite string_filter_replace_drop.
  - eexists. split; [reflexivity|]. apply count_char_replace_drop.
Qed.

(** An amount with separators of thousands and a trailing sign. *)
Example parse_amount_negative : _parse_amount "1.234,56-" = "-1234.56".
Proof. reflexivity. Qed.

End parse_amount.

(** * The account of a difference ([_get_gl_account_params]) *)

(** [ent_rules["gl_accounts"]] is a dictionary from the kind of account
    to the account. *)
Definition _get_gl_account_params (rest_amnt : Q)
    (gl_accounts : gmap string string) (categ : string)
  : result (option string) :=
  let has (k : string) : bool := bool_decide (is_Some (gl_accounts !! k)) in
  let get (k : string) : result (option string) :=
    match gl_accounts !! k with
    | Some acc => Ok (Some acc)
    | None => Raise (KeyError k)
    end in
  if Qeq_bool rest_amnt 0 then Ok None
  else if has "penalties" && bool_decide (categ ∈ ["010"; "011"; "012"])
  then get "penalties"
  else if has "write_off_debits" && Qlt_bool 0 rest_amnt
  then get "write_off_debits"
  else if has "write_off_credits" && Qlt_bool rest_amnt 0
  then get "write_off_credits"
  else get "write_off_common".

(** X22. The account [_get_gl_account_params] gives. It gives no
    account exactly when the rest amount is zero, and any account it gives
    is one of the configured ones. The only error is the [KeyError] for
    [write_off_common]; it is not raised when that account is configured,
    nor when both [write_off_debits] and [write_off_credits] are. With
    [penalties] configured, a difference of category 010, 011 or 012 goes
    to the penalties account whatever its sign. *)
Theorem get_gl_account_params_spec (rest_amnt : Q)
    (gl_accounts : gmap string string) (categ : string) :
  (_get_gl_account_params rest_amnt gl_accounts categ = Ok None
   ↔ (rest_amnt == 0)%Q)
  ∧ (∀ acc, _get_gl_account_params rest_amnt gl_accounts categ = Ok (Some acc) →
       ∃ k, gl_accounts !! k = Some acc)
  ∧ (∀ e, _get_gl_account_params rest_amnt gl_accounts categ = Raise e →
       e = KeyError "write_off_common"
       ∧ gl_accounts !! "write_off_common" = None
       ∧ (gl_accounts !! "write_off_debits" = None
          ∨ gl_accounts !! "write_off_credits" = None))
  ∧ (∀ acc, ¬ (rest_amnt == 0)%Q → gl_accounts !! "penalties" = Some acc →
       categ ∈ ["010"; "011"; "012"] →
       _get_gl_account_params rest_amnt gl_accounts categ = Ok (Some acc)).
Proof.
  unfold _get_gl_account_params. cbv zeta beta.
  destruct (Qeq_bool rest_amnt 0) eqn:Hz.
  { apply Qeq_bool_iff in Hz. split; [done|]. split; [done|]. split; [done|].
    by intros acc []. }
  assert (¬ (rest_amnt == 0)%Q) as Hnz.
  { intros H%Qeq_bool_iff. congruence. }
  assert (∀ k, bool_decide (is_Some (gl_accounts !! k)) = true →
            ∃ acc, gl_accounts !! k = Some acc) as Hhas.
  { intros k [acc Hk]%bool_decide_eq_true_1. by exists acc. }
  split; [|split; [|split]].
  - split; [|done].
    repeat match goal with
           | |- context [bool_decide (is_Some (gl_accounts !! ?k)) && ?c] =>
               let E := fresh "E" in
               destruct (bool_decide (is_Some (gl_accounts !! k)) && c) eqn:E
           end.
    all: match goal with
         | |- context [match ?m !! ?k with _ => _ end] =>
             by destruct (m !! k)
         end.
  - intros acc.
    repeat match goal with
           | |- context [bool_decide (is_Some (gl_accounts !! ?k)) && ?c] =>
               let E := fresh "E" in
               destruct (bool_decide (is_Some (gl_accounts !! k)) && c) eqn:E
           end.
    all: match goal with
         | |- context [match ?m !! ?k with _ => _ end] =>
             destruct (m !! k) eqn:Hk; intros [= <-]; by eexists
         end.
  - intros e.
    destruct (_ && bool_decide _) eqn:E1.
    { apply andb_true_iff in E1 as [(acc & ->)%Hhas _]. done. }
    destruct (_ && Qlt_bool 0 _) eqn:E2.
    { apply andb_true_iff in E2 as [(acc & ->)%Hhas _]. done. }
    destruct (_ && Qlt_bool _ 0) eqn:E3.
    { apply andb_true_iff in E3 as [(acc & ->)%Hhas _]. done. }
    destruct (gl_accounts !! "write_off_common") eqn:Hc; [done|].
    intros [= <-]. split; [done|]. split; [done|].
    destruct (gl_accounts !! "write_off_debits") eqn:Hd; [|by left].
    destruct (gl_accounts !! "write_off_credits") eqn:Hcr; [|by right].
    exfalso.
    rewrite bool_decide_eq_true_2 in E2 by done.
    rewrite bool_decide_eq_true_2 in E3 by done.
    cbn in E2, E3. unfold Qlt_bool in E2, E3.
    apply negb_false_iff, Qle_bool_iff in E2, E3.
    apply Hnz. by apply Qle_antisym.
  - intros acc _ Hp Hcat. rewrite Hp.
    rewrite (bool_decide_eq_true_2 (is_Some (Some acc))) by done.
    by rewrite (bool_decide_eq_true_2 _ Hcat).
Qed.

(** * Notification numbers that start with 301 *)

Section notification_numbers.
Local Open Scope Z_scope.

Lemma leading_digits_301 (fuel : nat) (n : Z) :
  (0 ≤ n)%Z → (n < 1000 * 10 ^ Z.of_nat fuel)%Z →
  leading_digits fuel n = 301%Z
  ↔ ∃ k, (0 ≤ k)%Z ∧ (301 * 10 ^ k ≤ n < 302 * 10 ^ k)%Z.
Proof.
  revert n. induction fuel as [|fuel IH]; intros n Hn Hfuel.
  - cbn in *. split.
    + intros ->. exists 0. lia.
    + intros (k & Hk & Hlo & Hhi).
      destruct (decide (k = 0)) as [->|Hk0]; [cbn in *; lia|].
      assert (10 ^ 1 ≤ 10 ^ k) by (apply Z.pow_le_mono_r; lia). lia.
  - cbn [leading_digits]. destruct (n <? 1000) eqn:Hlt.
    + apply Z.ltb_lt in Hlt. split.
      * intros ->. exists 0. lia.
      * intros (k & Hk & Hlo & Hhi).
        destruct (decide (k = 0)) as [->|Hk0]; [cbn in *; lia|].
        assert (10 ^ 1 ≤ 10 ^ k) by (apply Z.pow_le_mono_r; lia). lia.
    + apply Z.ltb_ge in Hlt.
      assert (10 ^ Z.of_nat (S fuel) = 10 * 10 ^ Z.of_nat fuel) as Hpow.
      { rewrite Nat2Z.inj_succ, Z.pow_succ_r; lia. }
      rewrite IH.
      2:{ apply Z.div_pos; lia. }
      2:{ apply Z.div_lt_upper_bound; lia. }
      split.
      * intros (k & Hk & Hlo & Hhi). exists (k + 1).
        rewrite Z.pow_add_r by lia. change (10 ^ 1) with 10.
        split; [lia|].
        pose proof (Z.div_mod n 10 ltac:(lia)).
        pose proof (Z.mod_pos_bound n 10 ltac:(lia)). lia.
      * intros (k & Hk & Hlo & Hhi).
        destruct (decide (k = 0)) as [->|Hk0]; [cbn in *; lia|].
        exists (k - 1). split; [lia|].
        replace k with ((k - 1) + 1) in Hlo, Hhi by lia.
        rewrite Z.pow_add_r in Hlo, Hhi by lia.
        change (10 ^ 1) with 10 in *.
        pose proof (Z.div_mod n 10 ltac:(lia)).
        pose proof (Z.mod_pos_bound n 10 ltac:(lia)).
        assert (0 < 10 ^ (k - 1)) by (apply Z.pow_pos_nonneg; lia). nia.
Qed.

(** X23. [str(notif_id).startswith("301")] on a whole number: the test
    holds exactly for the numbers from 301·10^k up to, and not including,
    302·10^k, for some number k of further digits. It holds for no
    negative number and not for 301 preceded by other digits. *)
Theorem startswith_301_spec (n : Z) :
  startswith_301 n = true
  ↔ ∃ k, (0 ≤ k)%Z ∧ (301 * 10 ^ k ≤ n < 302 * 10 ^ k)%Z.
Proof.
  unfold startswith_301. rewrite Z.eqb_eq.
  destruct (decide (n < 1000)) as [Hsmall|Hbig].
  - assert (leading_digits (Z.to_nat (Z.log2_up n)) n = n) as ->.
    { destruct (Z.to_nat _); cbn; [done|].
      by rewrite (proj2 (Z.ltb_lt _ _) Hsmall). }
    split.
    + intros ->. exists 0. lia.
    + intros (k & Hk & Hlo & Hhi).
      destruct (decide (k = 0)) as [->|Hk0]; [cbn in *; lia|].
      assert (10 ^ 1 ≤ 10 ^ k) by (apply Z.pow_le_mono_r; lia). lia.
  - apply leading_digits_301; [lia|].
    rewrite Z2Nat.id by apply Z.log2_up_nonneg.
    pose proof (Z.log2_up_spec n ltac:(lia)) as [_ Hup].
    assert (2 ^ Z.log2_up n ≤ 10 ^ Z.log2_up n).
    { apply Z.pow_le_mono_l. lia. }
    lia.
Qed.

End notification_numbers.

(** * The codes [main] returns *)

Lemma load_fbl5n_data_false env entits w w' :
  load_fbl5n_data env entits w = (Ok false, w') →
  ∀ ent cocd, (ent, cocd) ∈ entits →
    get_state w' ent "fbl5n_data_exported" ≠ Some true.
Proof.
  unfold load_fbl5n_data, loop_result.
  intros [(c & w1 & H1 & H2)|(? & _ & [=])]%bind_inv.
  apply load_fbl5n_loop_result in H1 as (b1 & -> & Hb1 & Hst).
  injection H2 as -> <-. intros ent cocd Hin Hexp. rewrite Hst in Hexp.
  assert (false = true) as [=]. apply Hb1. right. by exists ent, cocd.
Qed.

Lemma export_dms_data_false env entits w w' :
  export_dms_data env entits w = (Ok false, w') →
  ∃ ent cocd, (ent, cocd) ∈ entits ∧ DmsExport ent ∈ calls w'
              ∧ dms_export env ent = false.
Proof.
  unfold export_dms_data.
  intros [(? & w0 & [_ ->]%call_inv & H)|(? & _ & [=])]%bind_inv.
  apply bind_inv in H as [(c & w1 & H1 & H2)|(? & _ & [=])].
  apply export_dms_loop_calls in H1 as (mid & Hcalls & Hc).
  destruct c as [u|r].
  - apply bind_inv in H2 as [(? & w2 & _ & H2)|(? & _ & [=])].
    by injection H2.
  - destruct Hc as (-> & mid' & ent & -> & Hall & Hfail).
    injection H2 as <-. apply Forall_app in Hall as [_ Hent].
    apply Forall_inv in Hent as (e & c0 & Hin & Hc).
    assert (e = ent) as -> by (destruct Hc as [Hc|Hc]; congruence).
    exists ent, c0. split; [done|]. split; [|done]. rewrite Hcalls.
    set_solver.
Qed.

Lemma close_notifications_false env entits w w' :
  close_notifications env entits w = (Ok false, w') →
  ∃ ent cocd, (ent, cocd) ∈ entits ∧ search_not_started env ent w'.
Proof.
  unfold close_notifications.
  intros [(? & w0 & [_ ->]%call_inv & H)|(? & _ & [=])]%bind_inv.
  apply bind_inv in H as [(c & w1 & H1 & H2)|(? & _ & [=])].
  apply close_notifications_loop_result in H1.
  destruct c as [s|r].
  - apply bind_inv in H2 as [(? & w2 & [_ ->]%call_inv & H2)|(? & _ & [=])].
    injection H2 as -> <-. by discriminate (H1 eq_refl).
  - injection H2 as -> <-. destruct H1 as (_ & ent & cocd & Hin & Hs & _).
    by exists ent, cocd.
Qed.

(** X24. What the codes of [main] tell, from the point where the
    entities are known and the connection to SAP is made. A code other
    than 0 is returned right after the logout from SAP. Code 5: the ledger data of no
    entity are exported. Code 6: the export of the cases of an entity
    was called and failed. Code 10: QM02 answered a search of a
    notification of an entity that the transaction is not started. Code
    11: the report was not sent. *)
Theorem main_failure_codes (env : Env) (entits : list (string * string))
    (w : World) (code : Z) (w' : World) :
  main env entits w = (Ok code, w') →
  (code ≠ 0 → last (calls w') = Some (SessionCall "sap.logout"))
  ∧ (code = 5 →
     ∀ ent cocd, (ent, cocd) ∈ entits →
       get_state w' ent "fbl5n_data_exported" ≠ Some true)
  ∧ (code = 6 →
     ∃ ent cocd, (ent, cocd) ∈ entits ∧ DmsExport ent ∈ calls w'
                 ∧ dms_export env ent = false)
  ∧ (code = 10 →
     ∃ ent cocd n, (ent, cocd) ∈ entits
       ∧ QmSearchNotification ent n ∈ calls w'
       ∧ qm_search_notification env ent n = QmTransactionNotStarted)
  ∧ (code = 11 → report_sent env = Ok false).
Proof.
  intros Hmain. destruct (decide (entits = [])) as [->|Hne].
  { unfold main in Hmain. rewrite bool_decide_eq_true_2 in Hmain by done.
    by injection Hmain as <- <-. }
  rewrite main_unfold in Hmain by done.
  apply bind_inv in Hmain as [(? & w1 & _ & Hmain)|(? & _ & [=])].
  unfold after_initialize, after_conversion, disconnect_from_sap in Hmain.
  run_inv.
  all: split; [intros Hc; try done; by rewrite calls_add_calls, last_snoc|].
  all: repeat split; intros Hcode; try done.
  - intros ent cocd Hin. rewrite get_state_add_calls.
    by eapply load_fbl5n_data_false.
  - match goal with
    | H : export_dms_data _ _ _ = (Ok false, _) |- _ =>
        apply export_dms_data_false in H as (ent & cocd & Hin & Hcall & Hfail)
    end.
    exists ent, cocd. split; [done|]. split; [|done].
    rewrite calls_add_calls. apply elem_of_app. by left.
  - match goal with
    | H : close_notifications _ _ _ = (Ok false, _) |- _ =>
        apply close_notifications_false in H
          as (ent & cocd & Hin & n & Hlast & Hsearch)
    end.
    exists ent, cocd, n. split; [done|]. split; [|done].
    rewrite calls_add_calls. apply elem_of_app. left.
    apply list_elem_of_lookup. eexists. by rewrite <- last_lookup.
  - match goal with
    | H : report_output _ _ = (Ok false, _) |- _ =>
        unfold report_output in H; py_inv
    end. done.
  - match goal with
    | H : report_output _ _ = (Ok false, _) |- _ =>
        unfold report_output in H; py_inv
    end. done.
Qed.

(** The state after a first run in which the export of the cases
    fails. *)
Definition failed_export_run : World :=
  (main failing_export_env sample_entities
     (mkWorld ∅ None empty_accum ∅ [])).2.

Lemma main_failure_codes_witness :
  (6 ≠ 0 → last (calls failed_export_run) = Some (SessionCall "sap.logout"))
  ∧ (6 = 5 →
     ∀ ent cocd, (ent, cocd) ∈ sample_entities →
       get_state failed_export_run ent "fbl5n_data_exported" ≠ Some true)
  ∧ (6 = 6 →
     ∃ ent cocd, (ent, cocd) ∈ sample_entities ∧ DmsExport ent ∈ calls failed_export_run
                 ∧ dms_export failing_export_env ent = false)
  ∧ (6 = 10 →
     ∃ ent cocd n, (ent, cocd) ∈ sample_entities
       ∧ QmSearchNotification ent n ∈ calls failed_export_run
       ∧ qm_search_notification failing_export_env ent n
         = QmTransactionNotStarted)
  ∧ (6 = 11 → report_sent failing_export_env = Ok false).
Proof.
  apply (main_failure_codes failing_export_env sample_entities
           (mkWorld ∅ None empty_accum ∅ []) 6).
  vm_compute. reflexivity.
Defined.

(** ** The result of the clearing *)

(** The call is not a posting that succeeded. *)
Definition no_posting (env : Env) (c : Call) : Prop :=
  ∀ ent curr n, c = F30PostItems ent curr →
    f30_post_items env ent curr ≠ Posted n.

Lemma clear_body_result env ent cocd s w c w' :
  clear_body env ent cocd s w = (Ok c, w') →
  ∃ s' new, c = Next s' ∧ (s = true → s' = true)
    ∧ calls w' = calls w ++ new
    ∧ (s' = false →
       get_state w' ent "f30_items_cleared" = Some false
       ∧ Forall (no_posting env) new).
Proof.
  unfold clear_body. intros H. py_inv.
  1,2: by exists true, []; rewrite app_nil_r.
  match goal with
  | Hall : Forall (stage_call ItemClearing ent) ?x,
    Hout : ∀ out, Ok ?a = Ok out → _ |- _ =>
      exists (s || a.2), x; destruct (Hout a eq_refl) as [_ Hpost]
  end.
  split; [done|]. split; [by intros ->|]. split; [by world_simpl|].
  intros [-> Hno]%orb_false_iff. split.
  { world_simpl. by rewrite Hno. }
  apply Forall_forall. intros c Hc ent' curr n -> Hp.
  match goal with
  | Hall : Forall (stage_call ItemClearing ent) _ |- _ =>
      pose proof (proj1 (Forall_forall _ _) Hall _ Hc) as [[= ->]|[=]]
  end.
  pose proof (Hpost curr n Hc Hp). congruence.
Qed.

Lemma clear_loop_frame env entits s w c w' e k :
  e ∉ entits.*1 →
  mloop (λ p, clear_body env p.1 p.2) entits s w = (Ok c, w') →
  get_state w' e k = get_state w e k.
Proof.
  revert s w. induction entits as [|[e' c'] entits IH]; intros s w He;
    cbn [mloop fst snd].
  { by intros [= <- <-]. }
  intros [(c1 & w1 & H1 & H2)|(? & _ & [=])]%bind_inv.
  apply not_elem_of_cons in He as [Hne He]. cbn in Hne.
  pose proof (clear_body_frame _ _ _ _ _ _ _ H1) as (_ & _ & _ & Hloc).
  destruct c1 as [s1|r1].
  - rewrite (IH _ _ He H2). by apply Hloc.
  - injection H2 as <- <-. by apply Hloc.
Qed.

Lemma clear_loop_result env entits s w c w' :
  mloop (λ p, clear_body env p.1 p.2) entits s w = (Ok c, w') →
  ∃ s' new, c = Next s' ∧ (s = true → s' = true)
    ∧ calls w' = calls w ++ new
    ∧ (s' = false →
       (∀ ent cocd, (ent, cocd) ∈ entits →
          get_state w' ent "f30_items_cleared" = Some false)
       ∧ Forall (no_posting env) new).
Proof.
  revert s w. induction entits as [|[e c'] entits IH]; intros s w;
    cbn [mloop fst snd].
  { intros [= <- <-]. exists s, []. rewrite app_nil_r.
    split; [done|]. split; [done|]. split; [done|]. intros _.
    split; [|done]. by intros ent cocd ?%elem_of_nil. }
  intros [(c1 & w1 & H1 & H2)|(? & _ & [=])]%bind_inv.
  apply clear_body_result in H1 as (s1 & new1 & -> & Hs1 & Hcalls1 & Hf1).
  pose proof H2 as Hloop.
  apply IH in H2 as (s2 & new2 & -> & Hs2 & Hcalls2 & Hf2).
  exists s2, (new1 ++ new2). split; [done|]. split; [by auto|].
  split; [by rewrite Hcalls2, Hcalls1, app_assoc|].
  intros Hfalse. destruct (Hf2 Hfalse) as [Hrest Hnew2].
  assert (s1 = false) as Hs1f.
  { destruct s1; [|done]. by rewrite Hs2 in Hfalse. }
  destruct (Hf1 Hs1f) as [Hhead Hnew1].
  split; [|by apply Forall_app].
  intros ent cocd [[= -> ->]|Hin]%elem_of_cons; [|by eapply Hrest].
  destruct (decide (e ∈ entits.*1)) as [Hdup|Hfresh].
  - apply list_elem_of_fmap in Hdup as ([e0 c0] & -> & Hin).
    by eapply Hrest.
  - by rewrite (clear_loop_frame _ _ _ _ _ _ _ _ Hfresh Hloop).
Qed.

(** X25. [clear_open_items] opens F-30 first and closes it last. It
    returns [False] only when nothing was cleared: then no posting of the
    stage succeeded and the checkpoint [f30_items_cleared] of every
    entity is false. It does so for an empty list of entities as
    well. *)
Theorem clear_open_items_result (env : Env) (entits : list (string * string))
    (w : World) (b : bool) (w' : World) :
  clear_open_items env entits w = (Ok b, w') →
  ∃ new,
    calls w' = calls w ++ [SessionCall "f30.start"] ++ new
                 ++ [SessionCall "f30.close"]
    ∧ (b = false →
       (∀ ent cocd, (ent, cocd) ∈ entits →
          get_state w' ent "f30_items_cleared" = Some false)
       ∧ Forall (no_posting env) new)
    ∧ (entits = [] → b = false).
Proof.
  unfold clear_open_items, loop_result.
  intros [(? & w0 & [_ ->]%call_inv & H)|(? & _ & [=])]%bind_inv.
  apply bind_inv in H as [(b1 & w1 & H1 & H2)|(? & _ & [=])].
  apply bind_inv in H1 as [(c & w2 & H1 & H3)|(? & _ & [=])].
  apply bind_inv in H2 as [(? & w3 & [_ ->]%call_inv & H2)|(? & _ & [=])].
  injection H2 as <- <-.
  pose proof H1 as Hloop.
  apply clear_loop_result in H1 as (s' & new & -> & _ & Hcalls & Hf).
  injection H3 as <- <-. exists new.
  rewrite calls_add_calls, Hcalls, calls_add_calls, <- !app_assoc.
  split; [done|]. split.
  - intros Hfalse. destruct (Hf Hfalse) as [Hst Hnew]. split; [|done].
    intros ent cocd Hin. rewrite get_state_add_calls. by eapply Hst.
  - intros ->. cbn in Hloop. by injection Hloop as <- _.
Qed.

Lemma clear_open_items_result_witness :
  ∃ new,
    calls (clear_open_items (sample_env all_exported None) [("E1", "C1")]
             all_skipped_world).2
    = calls all_skipped_world ++ [SessionCall "f30.start"] ++ new
        ++ [SessionCall "f30.close"]
    ∧ (false = false →
       (∀ ent cocd, (ent, cocd) ∈ [("E1", "C1")] →
          get_state (clear_open_items (sample_env all_exported None)
                       [("E1", "C1")] all_skipped_world).2 ent
            "f30_items_cleared" = Some false)
       ∧ Forall (no_posting (sample_env all_exported None)) new)
    ∧ ([("E1", "C1")] = [] → false = false).
Proof.
  apply (clear_open_items_result (sample_env all_exported None)
           [("E1", "C1")] all_skipped_world false).
  vm_compute. reflexivity.
Defined.
